(** * Insight+ for Firefish: price retrieval, rate-limit coordination and
      portfolio aggregation (content.js)

    A shallow embedding of the parts of [content.js] that fetch, cache and
    reconcile BTC prices, together with the properties stated about them,
    and of what surrounds them: the detection of the loan cards and the
    extraction of their data, the general cache, the debounced observer
    callback, the start of the extension, the analysis of all loans and the
    summary of the dashboard.

    Conventions of the embedding.
    - A JavaScript number is an IEEE-754 binary64 value: Rocq's primitive
      [float], whose operations round as the JavaScript ones do.
    - A JavaScript string is a [string]; the text-processing helpers work on
      its characters ([list ascii]).  Every character outside ASCII is
      dropped by the first step of the number parser, so bytes and UTF-16
      code units agree for it.
    - [Date.now()] is an integer number of milliseconds ([Z]).
    - Mutable singletons ([priceCache], [rateLimitState], the API client, the
      timer table of the page) are fields of an explicit state record that
      every operation takes and returns.
    - Platform services whose results are not decided by the repository
      (network responses, [Intl.NumberFormat]) are arguments. *)

From Stdlib Require Import ZArith Ascii String List Bool Lia Permutation.
From Stdlib Require Import PrimFloat SpecFloat FloatOps FloatAxioms DecimalString.
From stdpp Require Import gmap strings list.

Set Warnings "-inexact-float".
Local Open Scope Z_scope.

(** ** JavaScript values used by the script *)

Module JS.

(** The values a price lookup can produce: a number, [undefined] (a key
    missing from an object) or [null]. *)
Inductive value :=
| VUndefined
| VNull
| VNum (f : float).

Definition isNaN (f : float) : bool := PrimFloat.is_nan f.

(** [ToBoolean] on a number: [0], [-0] and [NaN] are falsy. *)
Definition truthyNum (f : float) : bool :=
  negb (PrimFloat.eqb f 0%float) && negb (isNaN f).

Definition truthy (v : value) : bool :=
  match v with
  | VUndefined | VNull => false
  | VNum f => truthyNum f
  end.

(** [ToNumber]: [undefined] becomes [NaN], [null] becomes [0]. *)
Definition toNumber (v : value) : float :=
  match v with
  | VUndefined => nan
  | VNull => 0%float
  | VNum f => f
  end.

Definition isFinite (f : float) : bool :=
  negb (isNaN f) && negb (PrimFloat.is_infinity f).

(** *** Strings as character lists *)

Definition chars (s : string) : list ascii := list_ascii_of_string s.

Definition comma : ascii := ","%char.
Definition dot : ascii := "."%char.
Definition minus : ascii := "-"%char.

Definition isDigit (c : ascii) : bool :=
  let n := N_of_ascii c in (48 <=? n)%N && (n <=? 57)%N.

Definition digitVal (c : ascii) : Z := Z.of_N (N_of_ascii c) - 48.

(** [str.split(sep)] for a one-character separator: always at least one
    part, [''.split(',')] is [['']]. *)
Fixpoint split (sep : ascii) (s : list ascii) : list (list ascii) :=
  match s with
  | [] => [[]]
  | c :: s' =>
      if Ascii.eqb c sep then [] :: split sep s'
      else match split sep s' with
           | [] => [[c]]
           | p :: ps => (c :: p) :: ps
           end
  end.

(** [parts.join('')]. *)
Definition join (parts : list (list ascii)) : list ascii := List.concat parts.

(** [parts.pop()]: the last element, and the array that is left. *)
Definition pop (parts : list (list ascii)) : list ascii * list (list ascii) :=
  (List.last parts [], List.removelast parts).

(** [str.lastIndexOf(ch)], [-1] when [ch] does not occur. *)
Fixpoint lastIndexOf (ch : ascii) (s : list ascii) : Z :=
  match s with
  | [] => -1
  | c :: s' =>
      let r := lastIndexOf ch s' in
      if 0 <=? r then r + 1 else if Ascii.eqb c ch then 0 else -1
  end.

(** [(str.match(new RegExp('\\' + ch, 'g')) || []).length]. *)
Definition count (s : list ascii) (ch : ascii) : Z :=
  Z.of_nat (List.length (List.filter (Ascii.eqb ch) s)).

(** [str.replace(/,/g, '.')]. *)
Definition replaceAll (from to : ascii) (s : list ascii) : list ascii :=
  List.map (fun c => if Ascii.eqb c from then to else c) s.

(** [str.replace(/(?!^)-/g, '')]: every minus sign that is not the first
    character is removed. *)
Definition dropInnerMinus (s : list ascii) : list ascii :=
  match s with
  | [] => []
  | c :: s' => c :: List.filter (fun d => negb (Ascii.eqb d minus)) s'
  end.

Definition isSpace (c : ascii) : bool :=
  let n := N_of_ascii c in
  ((9 <=? n)%N && (n <=? 13)%N) || (n =? 32)%N.

Fixpoint trimStart (s : list ascii) : list ascii :=
  match s with
  | c :: s' => if isSpace c then trimStart s' else s
  | [] => []
  end.

(** [str.trim()] on the ASCII white space. *)
Definition trim (s : list ascii) : list ascii :=
  List.rev (trimStart (List.rev (trimStart s))).

(** *** [parseFloat] *)

(** The longest run of decimal digits at the head of [s]: its value
    appended to [acc], the number of digits read, and the rest. *)
Fixpoint readDigits (s : list ascii) (acc : Z) (n : Z) : Z * Z * list ascii :=
  match s with
  | c :: s' =>
      if isDigit c then readDigits s' (10 * acc + digitVal c) (n + 1)
      else (acc, n, s)
  | [] => (acc, n, s)
  end.

Definition prec : Z := 53.
Definition emax : Z := 1024.

(** The binary64 value nearest to [(-1)^neg * m / 10^k] (ties to even). *)
Definition decimalToFloat (neg : bool) (m k : Z) : float :=
  match m with
  | Zpos _ =>
      let '(q, e, l) := SFdiv_core_binary prec emax m 0 (10 ^ k) 0 in
      SF2Prim (binary_round_aux prec emax neg q e l)
  | _ => if neg then (-0)%float else 0%float
  end.

(** [parseFloat(str)]: optional white space and sign, then the longest
    prefix [digits [. digits]]; [NaN] when there is no digit.  The strings
    that reach it here are over the alphabet [0-9 . , -], so the exponent
    and [Infinity] forms of the grammar cannot occur and are left out. *)
Definition parseFloat (s : list ascii) : float :=
  let s0 := trimStart s in
  let '(neg, s1) :=
    match s0 with
    | "-"%char :: r => (true, r)
    | "+"%char :: r => (false, r)
    | _ => (false, s0)
    end in
  let '(ip, ni, s2) := readDigits s1 0 0 in
  let '(m, nf) :=
    match s2 with
    | "."%char :: r => let '(v, k, _) := readDigits r ip 0 in (v, k)
    | _ => (ip, 0)
    end in
  if (ni + nf =? 0) then nan else decimalToFloat neg m nf.

End JS.

(** ** Input normalizer: [utils.parseNumberFromText] *)

Module Utils.
Import JS.

(** [s.replace(/[^0-9.,-]/g, '')]. *)
Definition isNumberChar (c : ascii) : bool :=
  isDigit c || Ascii.eqb c dot || Ascii.eqb c comma || Ascii.eqb c minus.

Definition keepNumberChars (s : list ascii) : list ascii :=
  List.filter isNumberChar s.

(** [stripThousands(str, sep)], that is [str.split(sep).join('')]. *)
Definition stripThousands (s : list ascii) (sep : ascii) : list ascii :=
  join (split sep s).

(** The tail of every branch: drop inner minus signs, [parseFloat], and
    [isNaN(n) ? NaN : n]. *)
Definition finish (s : list ascii) : float :=
  let n := parseFloat (dropInnerMinus s) in
  if isNaN n then nan else n.

(** Case 1: both separators occur. *)
Definition parseBoth (s : list ascii) : float :=
  let lastComma := lastIndexOf comma s in
  let lastDot := lastIndexOf dot s in
  let decimalSep : ascii := if lastDot <? lastComma then comma else dot in
  let thousandsSep : ascii := if Ascii.eqb decimalSep comma then dot else comma in
  let s := stripThousands s thousandsSep in
  let '(decimalPart, parts) := pop (split decimalSep s) in
  let s := join parts ++ decimalSep :: decimalPart in
  let s := if Ascii.eqb decimalSep comma then replaceAll comma dot s else s in
  finish s.

(** Case 2: only commas. *)
Definition parseCommas (s : list ascii) (commas : Z) : float :=
  let last := lastIndexOf comma s in
  let trailing := Z.of_nat (List.length s) - last - 1 in
  if trailing =? 3 then finish (stripThousands s comma)
  else
    let '(dec, parts) := pop (split comma s) in
    if (1 <? commas) && (Z.of_nat (List.length dec) =? 2)
    then finish (join parts ++ dot :: dec)
    else finish (replaceAll comma dot s).

(** Case 3: only dots. *)
Definition parseDots (s : list ascii) : float :=
  let last := lastIndexOf dot s in
  let trailing := Z.of_nat (List.length s) - last - 1 in
  if trailing =? 3 then finish (stripThousands s dot)
  else finish s.

Definition parseNumberFromText (text : string) : float :=
  match chars text with
  | [] => nan                                   (* if (!text) return NaN *)
  | t =>
      let s := keepNumberChars (trim t) in
      match s with
      | [] => nan                               (* if (!s) return NaN *)
      | _ =>
          let commas := count s comma in
          let dots := count s dot in
          if (0 <? commas) && (0 <? dots) then parseBoth s
          else if (0 <? commas) && (dots =? 0) then parseCommas s commas
          else if (0 <? dots) && (commas =? 0) then parseDots s
          else finish s
      end
  end.

End Utils.

(** ** The separator rule in the words of the specification *)

Module AmountSpec.
Import JS Utils.

Definition isSeparator (c : ascii) : bool :=
  Ascii.eqb c comma || Ascii.eqb c dot.

(** The text before and after the rightmost character satisfying [p]. *)
Fixpoint splitAtLast (p : ascii -> bool) (s : list ascii)
  : option (list ascii * list ascii) :=
  match s with
  | [] => None
  | c :: s' =>
      match splitAtLast p s' with
      | Some (b, a) => Some (c :: b, a)
      | None => if p c then Some ([], s') else None
      end
  end.

Definition stripSeparators (s : list ascii) : list ascii :=
  List.filter (fun c => negb (isSeparator c)) s.

(** "The rightmost occurrence is the decimal separator and the other is
    stripped as a thousands separator": the digits before the rightmost
    separator form the integer part, the characters after it the
    fraction. *)
Definition rightmostIsDecimal (s : list ascii) : float :=
  match splitAtLast isSeparator s with
  | Some (before, after) => finish (stripSeparators before ++ dot :: after)
  | None => finish s
  end.

(** The rule for a text with one separator type: "a trailing group of
    exactly 3 digits after the last occurrence is treated as thousands
    (stripped), a trailing group of exactly 2 digits is treated as
    decimal, otherwise the lone separator is treated as decimal". *)
Definition singleSeparatorRule (s : list ascii) : float :=
  match splitAtLast isSeparator s with
  | Some (before, after) =>
      let trailing := Z.of_nat (List.length after) in
      if trailing =? 3 then finish (stripSeparators s)
      else if trailing =? 2 then finish (stripSeparators before ++ dot :: after)
      else finish (replaceAll comma dot s)
  | None => finish s
  end.

End AmountSpec.

(** ** State of the page and of the price client *)

(** [BTC_CACHE_CONFIG]. *)
Module BTC_CACHE_CONFIG.
Definition CURRENT_PRICE_DURATION : Z := 15 * 60 * 1000.
Definition RATE_LIMIT_COOLDOWN : Z := 60 * 1000.
End BTC_CACHE_CONFIG.

(** A loan card is a DOM element; its identity is the position at which the
    page created it. *)
Abbreviation Card := nat (only parsing).

(** The object returned by [extractFirefishLoanData]. *)
Record LoanData := {
  currency : string;
  loanAmount : float;
  interestRate : float;
  provisionDate : string;
  collateralBTC : float;
  isValid : bool
}.

(** The [firefish-btc-results] element: its performance class and the texts
    of its [_fieldValue_1gfcb_41] children, in document order. *)
Record ResultsView := {
  outperformingClass : bool;
  fieldValues : list string
}.

(** The elements the script inserts after the details section of a card.
    The rate-limit element wraps a [firefish-btc-loading] element, which the
    clean-up selectors can remove on its own ([inner = false]). *)
Inductive Widget :=
| WLoading
| WRateLimited (message : string) (inner : bool)
| WResults (view : ResultsView)
| WError (message : string).

Record CardDom := {
  bodyTexts : list string;         (* textContent of each .ant-card-body *)
  amountText : option string;      (* textContent of ._amount_148t9_34 *)
  hasDetails : bool;               (* ._details_1gfcb_5._details_gxzzy_12 *)
  extracted : option LoanData;     (* what extractFirefishLoanData returns *)
  processed : bool;                (* data-firefish-btc-processed = 'true' *)
  widgets : list Widget
}.

Abbreviation Page := (gmap nat CardDom) (only parsing).

(** [priceCache]. *)
Record HistoricalEntry := { price : JS.value; timestamp : Z }.

Record CurrentEntry := {
  data : option (gmap string float);   (* null, or the object data.bitcoin *)
  dataTimestamp : option Z
}.

Record PriceCache := {
  current : CurrentEntry;
  historical : gmap string HistoricalEntry;
  apiBlocked : bool;
  blockedUntil : option Z
}.

(** The callbacks the script hands to [setInterval] and [setTimeout]. *)
Inductive TimerTask :=
| CountdownTick          (* the interval of startRateLimitCountdown *)
| RetryResolve           (* the timeout of startRateLimitCountdown *)
| ProcessPending.        (* the timeout of the rate-limit callback *)

Record Timer := {
  timerId : nat;
  due : Z;
  period : option Z;               (* Some p for setInterval *)
  task : TimerTask
}.

(** The callback registered by [initializeDefensively]. *)
Inductive Callback := RestartProcessing.

(** [rateLimitState]. *)
Record RateLimitState := {
  isRateLimited : bool;
  rateLimitedAt : option Z;
  retryTimeout : option nat;
  pendingCards : list Card;        (* a Set, in insertion order *)
  countdownInterval : option nat;
  onRateLimitResolved : option Callback
}.

(** What an observer of the page can see happen. *)
Inductive Event :=
| Requested (url : string) (at_ : Z)           (* fetch(url) *)
| RateLimitResolved (at_ : Z)                  (* onRateLimitResolved() *)
| Resubmitted (card : Card) (at_ : Z).         (* processingQueue.add(card) *)

Record State := {
  now : Z;                                     (* Date.now() *)
  priceCache : PriceCache;
  rateLimitState : RateLimitState;
  lastRequest : Z;                             (* btcApiClient.lastRequest *)
  requestHistory : list Z;                     (* btcApiClient.requestHistory *)
  timers : list Timer;
  nextTimerId : nat;
  page : Page;
  processingQueue : list Card;                 (* a Set, in insertion order *)
  worker : list Card;                          (* cards a processQueuedCards loop still holds *)
  events : list Event                          (* newest first *)
}.

Definition set_now v st := {|
  now := v; priceCache := priceCache st; rateLimitState := rateLimitState st;
  lastRequest := lastRequest st; requestHistory := requestHistory st;
  timers := timers st; nextTimerId := nextTimerId st; page := page st;
  processingQueue := processingQueue st; worker := worker st; events := events st |}.
Definition set_priceCache v st := {|
  now := now st; priceCache := v; rateLimitState := rateLimitState st;
  lastRequest := lastRequest st; requestHistory := requestHistory st;
  timers := timers st; nextTimerId := nextTimerId st; page := page st;
  processingQueue := processingQueue st; worker := worker st; events := events st |}.
Definition set_rateLimitState v st := {|
  now := now st; priceCache := priceCache st; rateLimitState := v;
  lastRequest := lastRequest st; requestHistory := requestHistory st;
  timers := timers st; nextTimerId := nextTimerId st; page := page st;
  processingQueue := processingQueue st; worker := worker st; events := events st |}.
Definition set_requests last hist st := {|
  now := now st; priceCache := priceCache st; rateLimitState := rateLimitState st;
  lastRequest := last; requestHistory := hist;
  timers := timers st; nextTimerId := nextTimerId st; page := page st;
  processingQueue := processingQueue st; worker := worker st; events := events st |}.
Definition set_timers ts next st := {|
  now := now st; priceCache := priceCache st; rateLimitState := rateLimitState st;
  lastRequest := lastRequest st; requestHistory := requestHistory st;
  timers := ts; nextTimerId := next; page := page st;
  processingQueue := processingQueue st; worker := worker st; events := events st |}.
Definition set_page v st := {|
  now := now st; priceCache := priceCache st; rateLimitState := rateLimitState st;
  lastRequest := lastRequest st; requestHistory := requestHistory st;
  timers := timers st; nextTimerId := nextTimerId st; page := v;
  processingQueue := processingQueue st; worker := worker st; events := events st |}.
Definition set_queues q w st := {|
  now := now st; priceCache := priceCache st; rateLimitState := rateLimitState st;
  lastRequest := lastRequest st; requestHistory := requestHistory st;
  timers := timers st; nextTimerId := nextTimerId st; page := page st;
  processingQueue := q; worker := w; events := events st |}.
Definition emit e st := {|
  now := now st; priceCache := priceCache st; rateLimitState := rateLimitState st;
  lastRequest := lastRequest st; requestHistory := requestHistory st;
  timers := timers st; nextTimerId := nextTimerId st; page := page st;
  processingQueue := processingQueue st; worker := worker st; events := e :: events st |}.

(** The state when the content script has been loaded. *)
Definition initialState (t0 : Z) (p : Page) : State := {|
  now := t0;
  priceCache := {| current := {| data := None; dataTimestamp := None |};
                   historical := ∅; apiBlocked := false; blockedUntil := None |};
  rateLimitState := {| isRateLimited := false; rateLimitedAt := None;
                       retryTimeout := None; pendingCards := [];
                       countdownInterval := None; onRateLimitResolved := None |};
  lastRequest := 0; requestHistory := [];
  timers := []; nextTimerId := 1;
  page := p; processingQueue := []; worker := []; events := [] |}.

(** [set.add(x)] on a JavaScript [Set] kept in insertion order. *)
Definition setAdd (x : Card) (s : list Card) : list Card :=
  if List.existsb (Nat.eqb x) s then s else s ++ [x].

(** [set.delete(x)]. *)
Definition setDelete (x : Card) (s : list Card) : list Card :=
  List.filter (fun y => negb (Nat.eqb x y)) s.

(** ** Timers of the page *)

Module Timers.

Definition setTimer (tk : TimerTask) (delay : Z) (per : option Z) (st : State)
  : nat * State :=
  let id := nextTimerId st in
  (id, set_timers (timers st ++ [{| timerId := id; due := now st + delay;
                                     period := per; task := tk |}])
                  (S id) st).

(** [setTimeout(task, delay)]. *)
Definition setTimeout tk delay st := setTimer tk delay None st.

(** [setInterval(task, delay)]. *)
Definition setInterval tk delay st := setTimer tk delay (Some delay) st.

(** [clearTimeout(id)] and [clearInterval(id)]. *)
Definition clearTimer (id : nat) (st : State) : State :=
  set_timers (List.filter (fun tm => negb (Nat.eqb (timerId tm) id)) (timers st))
             (nextTimerId st) st.

(** Whether [a] runs before [b]: earlier deadline first; among equal
    deadlines the order is chosen by [newestFirst]. *)
Definition before (newestFirst : bool) (a b : Timer) : bool :=
  (due a <? due b) ||
  ((due a =? due b) &&
   (if newestFirst then Nat.ltb (timerId b) (timerId a)
    else Nat.ltb (timerId a) (timerId b))).

(** The timer that runs next. *)
Fixpoint next (newestFirst : bool) (ts : list Timer) : option Timer :=
  match ts with
  | [] => None
  | tm :: ts' =>
      match next newestFirst ts' with
      | Some best => if before newestFirst best tm then Some best else Some tm
      | None => Some tm
      end
  end.

(** A one-shot timer leaves the table when it runs; an interval is re-armed
    one period later. *)
Definition rearm (tm : Timer) (st : State) : State :=
  match period tm with
  | None => clearTimer (timerId tm) st
  | Some p =>
      set_timers
        (List.map (fun x => if Nat.eqb (timerId x) (timerId tm)
                            then {| timerId := timerId x; due := due x + p;
                                    period := period x; task := task x |}
                            else x) (timers st))
        (nextTimerId st) st
  end.

End Timers.

(** ** Displays inserted into a loan card *)

Module Display.

(** [card.querySelectorAll(sel).forEach(el => el.remove())] where [sel]
    lists some of the classes [firefish-btc-loading], [-results],
    [-error]. *)
Definition removeDisplays (loading results errors : bool) (ws : list Widget)
  : list Widget :=
  List.flat_map
    (fun w => match w with
              | WLoading => if loading then [] else [w]
              | WRateLimited m inner => [WRateLimited m (inner && negb loading)]
              | WResults _ => if results then [] else [w]
              | WError _ => if errors then [] else [w]
              end) ws.

(** [existingDetails.parentNode.insertBefore(el, existingDetails.nextSibling)]
    guarded by [if (existingDetails)]. *)
Definition insertAfterDetails (w : Widget) (c : CardDom) (ws : list Widget)
  : list Widget :=
  if hasDetails c then w :: ws else ws.

Definition set_widgets (ws : list Widget) (c : CardDom) : CardDom := {|
  bodyTexts := bodyTexts c; amountText := amountText c;
  hasDetails := hasDetails c; extracted := extracted c;
  processed := processed c; widgets := ws |}.

Definition set_processed (b : bool) (c : CardDom) : CardDom := {|
  bodyTexts := bodyTexts c; amountText := amountText c;
  hasDetails := hasDetails c; extracted := extracted c;
  processed := b; widgets := widgets c |}.

(** [card.querySelector('.firefish-btc-loading, .firefish-btc-results')]
    finds something. *)
Definition hasLoadingOrResults (ws : list Widget) : bool :=
  List.existsb (fun w => match w with
                         | WLoading | WResults _ => true
                         | WRateLimited _ inner => inner
                         | WError _ => false
                         end) ws.

Definition hasLoading (ws : list Widget) : bool :=
  List.existsb (fun w => match w with
                         | WLoading => true
                         | WRateLimited _ inner => inner
                         | _ => false
                         end) ws.

(** [showRateLimitMessage(loanCard, message)]. *)
Definition showRateLimitMessage (message : string) (c : CardDom) : CardDom :=
  let ws := removeDisplays true true true (widgets c) in
  set_widgets (insertAfterDetails (WRateLimited message true) c ws) c.

(** [uiEnhancer.showFirefishLoadingState(loanCard)]. *)
Definition showFirefishLoadingState (c : CardDom) : CardDom :=
  if hasLoadingOrResults (widgets c) then c
  else
    let ws := removeDisplays true true true (widgets c) in
    set_widgets (insertAfterDetails WLoading c ws) c.

(** [FirefishBTCAnalyzer.showFirefishError(loanCard, errorMessage)]. *)
Definition showFirefishError (message : string) (c : CardDom) : CardDom :=
  let ws := removeDisplays true true false (widgets c) in
  set_widgets (insertAfterDetails (WError message) c ws) c.

(** Removal of the first [firefish-btc-rate-limited] element of a card. *)
Fixpoint removeFirstRateLimited (ws : list Widget) : list Widget :=
  match ws with
  | [] => []
  | WRateLimited _ _ :: ws' => ws'
  | w :: ws' => w :: removeFirstRateLimited ws'
  end.

Definition onCard (f : CardDom -> CardDom) (card : Card) (p : Page) : Page :=
  alter f card p.

Definition onCards (f : CardDom -> CardDom) (cards : list Card) (p : Page) : Page :=
  List.fold_left (fun p card => onCard f card p) cards p.

End Display.

(** ** Rate-limit coordinator ([FirefishBTCApiClient], first part) *)

Module RateLimit.
Import Display BTC_CACHE_CONFIG.

Definition set_pendingCards (v : list Card) (r : RateLimitState) := {|
  isRateLimited := isRateLimited r; rateLimitedAt := rateLimitedAt r;
  retryTimeout := retryTimeout r; pendingCards := v;
  countdownInterval := countdownInterval r;
  onRateLimitResolved := onRateLimitResolved r |}.
Definition set_limited (b : bool) (at_ : option Z) (r : RateLimitState) := {|
  isRateLimited := b; rateLimitedAt := at_;
  retryTimeout := retryTimeout r; pendingCards := pendingCards r;
  countdownInterval := countdownInterval r;
  onRateLimitResolved := onRateLimitResolved r |}.
Definition set_retryTimeout (v : option nat) (r : RateLimitState) := {|
  isRateLimited := isRateLimited r; rateLimitedAt := rateLimitedAt r;
  retryTimeout := v; pendingCards := pendingCards r;
  countdownInterval := countdownInterval r;
  onRateLimitResolved := onRateLimitResolved r |}.
Definition set_countdownInterval (v : option nat) (r : RateLimitState) := {|
  isRateLimited := isRateLimited r; rateLimitedAt := rateLimitedAt r;
  retryTimeout := retryTimeout r; pendingCards := pendingCards r;
  countdownInterval := v;
  onRateLimitResolved := onRateLimitResolved r |}.
Definition set_callback (v : option Callback) (r : RateLimitState) := {|
  isRateLimited := isRateLimited r; rateLimitedAt := rateLimitedAt r;
  retryTimeout := retryTimeout r; pendingCards := pendingCards r;
  countdownInterval := countdownInterval r;
  onRateLimitResolved := v |}.

Definition update (f : RateLimitState -> RateLimitState) (st : State) : State :=
  set_rateLimitState (f (rateLimitState st)) st.

(** [setRateLimitCallback(callback)]. *)
Definition setRateLimitCallback (cb : Callback) (st : State) : State :=
  update (set_callback (Some cb)) st.

Definition secondsText (n : Z) : string :=
  DecimalString.NilZero.string_of_int (Z.to_int n).

(** [updateRateLimitDisplay(remainingSeconds = null)]. *)
Definition updateRateLimitDisplay (remainingSeconds : option Z) (st : State) : State :=
  let message :=
    ("BTC price API rate limited - retrying in " ++
     match remainingSeconds with
     | Some n => secondsText n ++ "s..."
     | None => "60s..."
     end)%string in
  set_page (onCards (showRateLimitMessage message)
                    (pendingCards (rateLimitState st)) (page st)) st.

(** [startRateLimitCountdown()]. *)
Definition startRateLimitCountdown (st : State) : State :=
  let st := match countdownInterval (rateLimitState st) with
            | Some id => Timers.clearTimer id st
            | None => st
            end in
  let st := update (set_limited true (Some (now st))) st in
  let waitTime := RATE_LIMIT_COOLDOWN in
  let st := updateRateLimitDisplay None st in
  let '(id, st) := Timers.setInterval CountdownTick 1000 st in
  let st := update (set_countdownInterval (Some id)) st in
  let '(id, st) := Timers.setTimeout RetryResolve waitTime st in
  update (set_retryTimeout (Some id)) st.

(** The callback passed to [setRateLimitCallback] by
    [initializeDefensively]: it schedules [processPendingCards] one
    second later. *)
Definition runCallback (cb : Callback) (st : State) : State :=
  match cb with
  | RestartProcessing => snd (Timers.setTimeout ProcessPending 1000 st)
  end.

(** [resolveRateLimit()]. *)
Definition resolveRateLimit (st : State) : State :=
  let st := match countdownInterval (rateLimitState st) with
            | Some id => update (set_countdownInterval None) (Timers.clearTimer id st)
            | None => st
            end in
  let st := match retryTimeout (rateLimitState st) with
            | Some id => update (set_retryTimeout None) (Timers.clearTimer id st)
            | None => st
            end in
  let st := update (set_limited false None) st in
  let st := set_page (onCards (fun c => set_widgets (removeFirstRateLimited (widgets c)) c)
                              (pendingCards (rateLimitState st)) (page st)) st in
  match onRateLimitResolved (rateLimitState st) with
  | Some cb => runCallback cb (emit (RateLimitResolved (now st)) st)
  | None => st
  end.

(** [addPendingCard(loanCard)]. *)
Definition addPendingCard (card : Card) (st : State) : State :=
  let st := update (fun r => set_pendingCards (setAdd card (pendingCards r)) r) st in
  if isRateLimited (rateLimitState st)
  then set_page (onCard (showRateLimitMessage
                           "BTC price API rate limited - retrying in 60s...")
                        card (page st)) st
  else st.

(** [removePendingCard(loanCard)]. *)
Definition removePendingCard (card : Card) (st : State) : State :=
  update (fun r => set_pendingCards (setDelete card (pendingCards r)) r) st.

(** The body of the interval started by [startRateLimitCountdown]. *)
Definition countdownTick (st : State) : State :=
  let waitTime := RATE_LIMIT_COOLDOWN in
  let elapsed := now st - default 0 (rateLimitedAt (rateLimitState st)) in
  let remaining := Z.max 0 (waitTime - elapsed) in
  let remainingSeconds := (remaining + 999) / 1000 in   (* Math.ceil(remaining / 1000) *)
  if remaining <=? 0 then resolveRateLimit st
  else updateRateLimitDisplay (Some remainingSeconds) st.

End RateLimit.

(** ** Price client ([FirefishBTCApiClient], second part) *)

(** What the network can answer to a [fetch]. *)
Record Exn := { exnName : string; exnMessage : string }.

Inductive Body (B : Type) :=
| Json (b : B)                     (* response.json() resolves *)
| JsonRejected (e : Exn).          (* response.json() rejects *)
Arguments Json {B} b.
Arguments JsonRejected {B} e.

Inductive Response (B : Type) :=
| FetchRejected (e : Exn)          (* fetch() rejects *)
| Http (status : Z) (body : Body B).
Arguments FetchRejected {B} e.
Arguments Http {B} status body.

(** The part of a response body the script reads: for the current prices
    [data.bitcoin], for a historical price [data.market_data.current_price];
    [None] when that object is absent. *)
Definition Prices := option (gmap string float).

Module ApiClient.
Import BTC_CACHE_CONFIG RateLimit.

Definition set_current (v : CurrentEntry) (c : PriceCache) := {|
  current := v; historical := historical c;
  apiBlocked := apiBlocked c; blockedUntil := blockedUntil c |}.
Definition set_historical (v : gmap string HistoricalEntry) (c : PriceCache) := {|
  current := current c; historical := v;
  apiBlocked := apiBlocked c; blockedUntil := blockedUntil c |}.
Definition set_blocked (b : bool) (until : option Z) (c : PriceCache) := {|
  current := current c; historical := historical c;
  apiBlocked := b; blockedUntil := until |}.

Definition toLowerCase (s : string) : string :=
  string_of_list_ascii
    (List.map (fun c => let n := N_of_ascii c in
                        if (65 <=? n)%N && (n <=? 90)%N
                        then ascii_of_N (n + 32) else c)
              (list_ascii_of_string s)).

Definition toUpperCase (s : string) : string :=
  string_of_list_ascii
    (List.map (fun c => let n := N_of_ascii c in
                        if (97 <=? n)%N && (n <=? 122)%N
                        then ascii_of_N (n - 32) else c)
              (list_ascii_of_string s)).

Fixpoint startsWith (needle hay : list ascii) : bool :=
  match needle, hay with
  | [], _ => true
  | _ :: _, [] => false
  | a :: n', b :: h' => Ascii.eqb a b && startsWith n' h'
  end.

Fixpoint includesChars (needle hay : list ascii) : bool :=
  startsWith needle hay ||
  match hay with
  | [] => false
  | _ :: h' => includesChars needle h'
  end.

(** [hay.includes(needle)]. *)
Definition includes (hay needle : string) : bool :=
  includesChars (list_ascii_of_string needle) (list_ascii_of_string hay).

(** [str.padStart(2, '0')]. *)
Definition padStart2 (s : string) : string :=
  match String.length s with
  | 0%nat => "00"
  | 1%nat => "0" ++ s
  | _ => s
  end%string.

(** The [months] table.  Only its own twelve keys are month names. *)
Definition months (name : string) : option string :=
  if String.eqb name "Jan" then Some "01" else
  if String.eqb name "Feb" then Some "02" else
  if String.eqb name "Mar" then Some "03" else
  if String.eqb name "Apr" then Some "04" else
  if String.eqb name "May" then Some "05" else
  if String.eqb name "Jun" then Some "06" else
  if String.eqb name "Jul" then Some "07" else
  if String.eqb name "Aug" then Some "08" else
  if String.eqb name "Sep" then Some "09" else
  if String.eqb name "Oct" then Some "10" else
  if String.eqb name "Nov" then Some "11" else
  if String.eqb name "Dec" then Some "12" else None.

(** [convertFirefishDateToCoinGecko]: ["24 Nov 2024"] to ["24-11-2024"]. *)
Definition convertFirefishDateToCoinGecko (firefishDate : string) : option string :=
  match List.map string_of_list_ascii
          (JS.split " "%char (list_ascii_of_string firefishDate)) with
  | [d; m; y] =>
      match months m with
      | Some month => Some (padStart2 d ++ "-" ++ month ++ "-" ++ y)%string
      | None => None
      end
  | _ => None
  end.

Definition cacheKey (coinGeckoDate currency : string) : string :=
  (coinGeckoDate ++ "_" ++ toLowerCase currency)%string.

(** [isCurrentPriceCacheValid()]. *)
Definition isCurrentPriceCacheValid (st : State) : bool :=
  match data (current (priceCache st)), dataTimestamp (current (priceCache st)) with
  | Some _, Some t =>
      negb (t =? 0) && (now st - t <? CURRENT_PRICE_DURATION)
  | _, _ => false
  end.

(** [checkRateLimit()]: sleeps until [blockedUntil]. *)
Definition checkRateLimit (st : State) : State :=
  if apiBlocked (priceCache st) &&
     (now st <? default 0 (blockedUntil (priceCache st)))
  then set_now (default 0 (blockedUntil (priceCache st))) st
  else st.

(** [addRequestDelay()]: sleeps so that 50 ms separate two requests. *)
Definition addRequestDelay (st : State) : State :=
  if lastRequest st =? 0 then st
  else
    let timeSinceLastRequest := now st - lastRequest st in
    let minDelay := 50 in
    if timeSinceLastRequest <? minDelay
    then set_now (now st + (minDelay - timeSinceLastRequest)) st
    else st.

(** [getRecentRequestCount()]: also prunes the history. *)
Definition getRecentRequestCount (st : State) : Z * State :=
  let recentThreshold := 60000 in
  let h := List.filter (fun timestamp => now st - timestamp <? recentThreshold)
                       (requestHistory st) in
  (Z.of_nat (List.length h), set_requests (lastRequest st) h st).

(** [array.slice(-n)]. *)
Definition sliceLast (n : nat) (l : list Z) : list Z :=
  List.skipn (List.length l - n) l.

(** [isRequestingTooFast()]. *)
Definition isRequestingTooFast (st : State) : bool :=
  if Nat.ltb (List.length (requestHistory st)) 2 then false
  else
    let recentRequests := sliceLast 5 (requestHistory st) in
    let thirtySecondsAgo := now st - 30000 in
    let requestsInLast30s :=
      List.length (List.filter (fun timestamp => thirtySecondsAgo <? timestamp)
                               recentRequests) in
    Nat.ltb 5 requestsInLast30s.

(** [recordRequest()]. *)
Definition recordRequest (st : State) : State :=
  let h := requestHistory st ++ [now st] in
  let h := if Nat.ltb 10 (List.length h) then List.tl h else h in
  set_requests (now st) h st.

Definition rateLimitIndicators : list string :=
  ["429"; "too many requests"; "rate limit"; "quota exceeded";
   "failed to fetch"; "network error"; "cors policy"]%string.

(** [detectRateLimitFromError(errorMessage, ...)]. *)
Definition detectRateLimitFromError (errorMessage : string) (st : State)
  : bool * State :=
  let errorLower := toLowerCase errorMessage in
  let hasRateLimitIndicator :=
    List.existsb (fun indicator => includes errorLower indicator)
                 rateLimitIndicators in
  let '(recentRequests, st) := getRecentRequestCount st in
  let likelyRateLimited := 3 <? recentRequests in
  let tooFast := isRequestingTooFast st in
  (hasRateLimitIndicator || likelyRateLimited || tooFast, st).

(** [error.message || error.toString()]. *)
Definition errorMessage (e : Exn) : string :=
  if String.eqb (exnMessage e) "" then exnName e else exnMessage e.

(** The exception raised by [error.message.includes(...)] when [error] has
    no [message]. *)
Definition includesOfUndefined : Exn :=
  {| exnName := "TypeError";
     exnMessage := "Cannot read properties of undefined (reading 'includes')" |}.

Definition readOfUndefined (prop : string) : Exn :=
  {| exnName := "TypeError";
     exnMessage := "Cannot read properties of undefined (reading '" ++ prop ++ "')" |}.

(** [handleRateLimit(error)] on the object [{status: response.status}]
    that its two callers pass: without a [message], a status other than
    429 ends in an exception. *)
Definition handleRateLimit (status : Z) (st : State) : State * (bool + Exn) :=
  if status =? 429
  then (set_priceCache
          (set_blocked true (Some (now st + RATE_LIMIT_COOLDOWN)) (priceCache st)) st,
        inl true)
  else (st, inr includesOfUndefined).

Definition ok (status : Z) : bool := (200 <=? status) && (status <=? 299).

Definition statusText (n : Z) : string :=
  DecimalString.NilZero.string_of_int (Z.to_int n).

Definition currentPricesUrl : string :=
  "https://api.coingecko.com/api/v3/simple/price?ids=bitcoin&vs_currencies=eur,usd,chf,czk".

Definition historyUrl (coinGeckoDate : string) : string :=
  ("https://api.coingecko.com/api/v3/coins/bitcoin/history?date=" ++ coinGeckoDate)%string.

(** The [catch] block of [getCurrentPriceForAllCurrencies]. *)
Definition currentPricesFailed (e : Exn) (st : State) : Prices * State :=
  let '(limited, st) := detectRateLimitFromError (errorMessage e) st in
  if limited
  then (None, if isRateLimited (rateLimitState st) then st
              else startRateLimitCountdown st)
  else (None, st).

(** [getCurrentPriceForAllCurrencies()], given the answer the network
    gives if it is asked. *)
Definition getCurrentPriceForAllCurrencies (resp : Response Prices) (st : State)
  : Prices * State :=
  if isCurrentPriceCacheValid st then (data (current (priceCache st)), st)
  else
    let st := checkRateLimit st in
    let st := addRequestDelay st in
    let st := recordRequest st in
    let st := emit (Requested currentPricesUrl (now st)) st in
    match resp with
    | FetchRejected e => currentPricesFailed e st
    | Http status body =>
        if negb (ok status) then
          if status =? 429 then (None, startRateLimitCountdown st)
          else
            match handleRateLimit status st with
            | (st, inr e) => currentPricesFailed e st
            | (st, inl _) =>      (* not reached: the status is not 429 *)
                currentPricesFailed
                  {| exnName := "Error";
                     exnMessage := "API request failed: " ++ statusText status |} st
            end
        else
          match body with
          | JsonRejected e => currentPricesFailed e st
          | Json bitcoin =>
              (bitcoin,
               set_priceCache
                 (set_current {| data := bitcoin; dataTimestamp := Some (now st) |}
                              (priceCache st)) st)
          end
    end.

(** The [catch] block of [getHistoricalPrice]. *)
Definition historicalPriceFailed (e : Exn) (loanCard : option Card) (st : State)
  : JS.value * State :=
  let '(limited, st) := detectRateLimitFromError (errorMessage e) st in
  if limited
  then
    let st := match loanCard with
              | Some card => addPendingCard card st
              | None => st
              end in
    (JS.VNull, if isRateLimited (rateLimitState st) then st
               else startRateLimitCountdown st)
  else (JS.VNull, st).

(** [data.market_data.current_price[currency.toLowerCase()]]. *)
Definition priceOf (current_price : gmap string float) (currency : string) : JS.value :=
  match current_price !! toLowerCase currency with
  | Some f => JS.VNum f
  | None => JS.VUndefined
  end.

(** [getHistoricalPrice(firefishDate, currency, loanCard = null)], given
    the answer the network gives if it is asked. *)
Definition getHistoricalPrice (firefishDate currency : string)
    (loanCard : option Card) (resp : Response Prices) (st : State)
  : JS.value * State :=
  match convertFirefishDateToCoinGecko firefishDate with
  | None => (JS.VNull, st)
  | Some coinGeckoDate =>
      let key := cacheKey coinGeckoDate currency in
      match historical (priceCache st) !! key with
      | Some entry => (price entry, st)
      | None =>
          let st := checkRateLimit st in
          let st := addRequestDelay st in
          let st := recordRequest st in
          let st := emit (Requested (historyUrl coinGeckoDate) (now st)) st in
          match resp with
          | FetchRejected e => historicalPriceFailed e loanCard st
          | Http status body =>
              if negb (ok status) then
                if status =? 429 then
                  let st := match loanCard with
                            | Some card => addPendingCard card st
                            | None => st
                            end in
                  (JS.VNull, startRateLimitCountdown st)
                else
                  match handleRateLimit status st with
                  | (st, inr e) => historicalPriceFailed e loanCard st
                  | (st, inl _) =>   (* not reached: the status is not 429 *)
                      historicalPriceFailed
                        {| exnName := "Error";
                           exnMessage := "Historical API request failed: "
                                         ++ statusText status |} loanCard st
                  end
              else
                match body with
                | JsonRejected e => historicalPriceFailed e loanCard st
                | Json None =>
                    historicalPriceFailed (readOfUndefined "current_price") loanCard st
                | Json (Some current_price) =>
                    let p := priceOf current_price currency in
                    let st := set_priceCache
                                (set_historical
                                   (<[key := {| price := p; timestamp := now st |}]>
                                      (historical (priceCache st)))
                                   (priceCache st)) st in
                    let st := match loanCard with
                              | Some card => removePendingCard card st
                              | None => st
                              end in
                    (p, st)
                end
          end
      end
  end.

End ApiClient.

(** ** Performance calculator ([cryptoService.calculateFirefishBTCPerformance]) *)

(** The formatting services of the platform.  [formatCurrency cur v] is
    [new Intl.NumberFormat('en-DE', {style: 'currency', currency: cur,
    minimumFractionDigits: 2, maximumFractionDigits: 2}).format(v)], [None]
    when the constructor throws (a currency code that is not well formed);
    [toFixed1 v] is [v.toFixed(1)]. *)
Class Intl := {
  formatCurrency : string -> float -> option string;
  toFixed1 : float -> string
}.

Module Raw.
Record t := {
  btcValueChange : float;
  btcPercentageChange : float;
  loanInterestCost : float;
  historicalPrice : float;
  currentPrice : float;
  theoreticalResult : float
}.
End Raw.

Module Performance.
Record t := {
  btcValueChange : string;
  btcPercentageChange : string;
  loanInterestCost : string;
  loanInterestRate : string;
  theoreticalResult : string;
  theoreticalLabel : string;
  initialBTCPrice : string;
  currentBTCPrice : string;
  isOutperforming : bool;
  provisionDate : string;
  currency : string;
  collateralBTC : float;
  raw : Raw.t
}.
End Performance.

Module CryptoService.
Section WithIntl.
Context `{Intl}.

(** [formatPercentage(value)]. *)
Definition formatPercentage (value : float) : string :=
  let sign := if PrimFloat.leb 0 value then "+" else "" in
  (sign ++ toFixed1 value ++ "%")%string.

Definition calculateFirefishBTCPerformance
    (loanData : LoanData) (currentPrice historicalPrice : float)
  : option Performance.t :=
  let btcValueChange :=
    (loanAmount loanData * (currentPrice / historicalPrice - 1))%float in
  let btcPercentageChange :=
    ((currentPrice - historicalPrice) / historicalPrice * 100)%float in
  let loanInterestCost :=
    (loanAmount loanData * (interestRate loanData / 100))%float in
  let isOutperforming := PrimFloat.ltb loanInterestCost btcValueChange in
  let theoreticalResult := (btcValueChange - loanInterestCost)%float in
  let theoreticalLabel :=
    if PrimFloat.ltb 0 theoreticalResult
    then "Theoretical Gain" else "Theoretical Loss" in
  let theoreticalValue := PrimFloat.abs theoreticalResult in
  let fmt := formatCurrency (currency loanData) in
  match fmt btcValueChange, fmt loanInterestCost, fmt theoreticalValue,
        fmt historicalPrice, fmt currentPrice with
  | Some sChange, Some sCost, Some sResult, Some sInitial, Some sCurrent =>
      Some {|
        Performance.btcValueChange := sChange;
        Performance.btcPercentageChange := formatPercentage btcPercentageChange;
        Performance.loanInterestCost := sCost;
        Performance.loanInterestRate := formatPercentage (interestRate loanData);
        Performance.theoreticalResult := sResult;
        Performance.theoreticalLabel := theoreticalLabel;
        Performance.initialBTCPrice := sInitial;
        Performance.currentBTCPrice := sCurrent;
        Performance.isOutperforming := isOutperforming;
        Performance.provisionDate := provisionDate loanData;
        Performance.currency := currency loanData;
        Performance.collateralBTC := collateralBTC loanData;
        Performance.raw := {|
          Raw.btcValueChange := btcValueChange;
          Raw.btcPercentageChange := btcPercentageChange;
          Raw.loanInterestCost := loanInterestCost;
          Raw.historicalPrice := historicalPrice;
          Raw.currentPrice := currentPrice;
          Raw.theoreticalResult := theoreticalResult |} |}
  | _, _, _, _, _ => None      (* catch: return null *)
  end.

End WithIntl.
End CryptoService.

(** ** Result display and the processing pipeline ([FirefishBTCAnalyzer]) *)

Module Analyzer.
Import Display RateLimit ApiClient.

(** [uiEnhancer.showFirefishBTCResults(loanCard, performance)]. *)
Definition resultsView (performance : Performance.t) : ResultsView :=
  let statusIcon := if Performance.isOutperforming performance then "✅" else "❌" in
  let statusText := if Performance.isOutperforming performance
                    then "Outperforming" else "Underperforming" in
  {| outperformingClass := Performance.isOutperforming performance;
     fieldValues :=
       [ (statusIcon ++ " " ++ statusText)%string;
         Performance.initialBTCPrice performance;
         Performance.currentBTCPrice performance;
         Performance.btcValueChange performance;
         Performance.loanInterestCost performance;
         Performance.theoreticalResult performance ] |}.

Definition showFirefishBTCResults (performance : Performance.t) (c : CardDom)
  : CardDom :=
  let ws := removeDisplays true true false (widgets c) in
  set_widgets (insertAfterDetails (WResults (resultsView performance)) c ws) c.

Definition onCardSt (f : CardDom -> CardDom) (card : Card) (st : State) : State :=
  set_page (onCard f card (page st)) st.

Section WithIntl.
Context `{Intl}.

(** [processFirefishLoanCard(loanCard)], given the answers the network
    gives to the two requests if they are made. *)
Definition processFirefishLoanCard (loanCard : Card)
    (respCurrent respHistorical : Response Prices) (st : State) : State :=
  match page st !! loanCard with
  | None => st
  | Some c =>
      if processed c then st
      else
        let st := onCardSt (set_processed true) loanCard st in
        let st := onCardSt showFirefishLoadingState loanCard st in
        match extracted c with
        | None => onCardSt (showFirefishError "Could not extract loan data") loanCard st
        | Some loanData =>
            if negb (isValid loanData)
            then onCardSt (showFirefishError "Could not extract loan data") loanCard st
            else
              let '(currentPrices, st) := getCurrentPriceForAllCurrencies respCurrent st in
              match currentPrices with
              | None =>
                  onCardSt (showFirefishError "Failed to fetch current BTC prices")
                           loanCard st
              | Some prices =>
                  let currentPrice := priceOf prices (currency loanData) in
                  let '(historicalPrice, st) :=
                    getHistoricalPrice (provisionDate loanData) (currency loanData)
                                       (Some loanCard) respHistorical st in
                  if negb (JS.truthy historicalPrice) then
                    if isRateLimited (rateLimitState st) then st
                    else onCardSt
                           (showFirefishError
                              ("Failed to fetch BTC price for " ++ provisionDate loanData))
                           loanCard st
                  else
                    match CryptoService.calculateFirefishBTCPerformance loanData
                            (JS.toNumber currentPrice) (JS.toNumber historicalPrice) with
                    | None =>
                        onCardSt (showFirefishError "Performance calculation failed")
                                 loanCard st
                    | Some performance =>
                        onCardSt (showFirefishBTCResults performance) loanCard st
                    end
              end
        end
  end.

(** The first, synchronous part of [processQueuedCards()]: the queue is
    emptied into the loop, and every card without a loading element gets
    one. *)
Definition processQueuedCards (st : State) : State :=
  let cardsToProcess := processingQueue st in
  let st := set_queues [] (worker st ++ cardsToProcess) st in
  set_page
    (onCards (fun c => if hasLoading (widgets c) then c
                       else showFirefishLoadingState c)
             cardsToProcess (page st)) st.

(** One iteration of the loop of [processQueuedCards()]. *)
Definition processNextCard (respCurrent respHistorical : Response Prices)
    (st : State) : State :=
  match worker st with
  | [] => st
  | card :: rest =>
      let st := set_queues (processingQueue st) rest st in
      if isRateLimited (rateLimitState st)
      then update (fun r => set_pendingCards (setAdd card (pendingCards r)) r) st
      else processFirefishLoanCard card respCurrent respHistorical st
  end.

End WithIntl.

(** The body of the [forEach] of [processPendingCards()]: the processed
    marker is removed and the card joins the processing queue. *)
Definition resubmit (st : State) (card : Card) : State :=
  let st := onCardSt (set_processed false) card st in
  emit (Resubmitted card (now st))
       (set_queues (setAdd card (processingQueue st)) (worker st) st).

(** [processPendingCards()]. *)
Definition processPendingCards (st : State) : State :=
  let pending := pendingCards (rateLimitState st) in
  match pending with
  | [] => st
  | _ =>
      let st := update (set_pendingCards []) st in
      let st := List.fold_left resubmit pending st in
      processQueuedCards st
  end.

End Analyzer.

(** ** The event loop *)

Module EventLoop.
Import Timers.

Definition runTask (tk : TimerTask) (st : State) : State :=
  match tk with
  | CountdownTick => RateLimit.countdownTick st
  | RetryResolve => RateLimit.resolveRateLimit st
  | ProcessPending => Analyzer.processPendingCards st
  end.

(** A timer runs: the clock is at its deadline at least. *)
Definition fire (tm : Timer) (st : State) : State :=
  runTask (task tm) (rearm tm (set_now (Z.max (now st) (due tm)) st)).

(** Lets time pass until [t]: the timers due by then run in order.
    [fuel] bounds the number of timer runs. *)
Fixpoint advance (fuel : nat) (newestFirst : bool) (t : Z) (st : State) : State :=
  match fuel with
  | O => st
  | S fuel' =>
      match next newestFirst (timers st) with
      | Some tm =>
          if due tm <=? t then advance fuel' newestFirst t (fire tm st)
          else set_now (Z.max (now st) t) st
      | None => set_now (Z.max (now st) t) st
      end
  end.

End EventLoop.

(** ** Portfolio aggregator ([uiEnhancer.aggregatePortfolioData]) *)

Record Totals := {
  totalLoans : nat;
  analyzedCount : nat;
  totalTheoretical : float;
  outperformingCount : nat;
  totalLoanAmount : float
}.

Module UiEnhancer.

(** [isPending(card)]: some [.ant-card-body] of the card contains
    "PENDING", whatever the case of its letters. *)
Definition isPending (card : CardDom) : bool :=
  List.existsb
    (fun textContent =>
       negb (String.eqb textContent "") &&
       ApiClient.includes (ApiClient.toUpperCase textContent) "PENDING")
    (bodyTexts card).

Definition resultViews (card : CardDom) : list ResultsView :=
  List.flat_map (fun w => match w with WResults v => [v] | _ => [] end)
                (widgets card).

Definition errorViews (card : CardDom) : list string :=
  List.flat_map (fun w => match w with WError m => [m] | _ => [] end)
                (widgets card).

(** [document.querySelectorAll('.firefish-btc-results')], filtered to the
    elements whose card is not pending; each with its card. *)
Definition resultEls (document : list CardDom) : list (ResultsView * CardDom) :=
  List.flat_map
    (fun card => if isPending card then []
                 else List.map (fun res => (res, card)) (resultViews card))
    document.

Definition errorEls (document : list CardDom) : list string :=
  List.flat_map (fun card => if isPending card then [] else errorViews card)
                document.

(** The three accumulators of the [forEach] over the result elements. *)
Record Sums := {
  sumTheoretical : float;
  sumOutperforming : nat;
  sumLoanAmount : float
}.

(** The body of the [forEach]. *)
Definition accumulate (acc : Sums) (el : ResultsView * CardDom) : Sums :=
  let '(res, card) := el in
  let isOutperforming := outperformingClass res in
  let outperformingCount :=
    if isOutperforming then S (sumOutperforming acc) else sumOutperforming acc in
  let totalTheoretical :=
    match fieldValues res with
    | [] => sumTheoretical acc
    | valueFields =>
        let lastText := List.last valueFields ""%string in
        let num := Utils.parseNumberFromText lastText in
        if JS.isNaN num then sumTheoretical acc
        else (sumTheoretical acc + (if isOutperforming then num else - num))%float
    end in
  let totalLoanAmount :=
    match amountText card with
    | Some text =>
        let amt := Utils.parseNumberFromText text in
        if JS.isNaN amt then sumLoanAmount acc
        else (sumLoanAmount acc + amt)%float
    | None => sumLoanAmount acc
    end in
  {| sumTheoretical := totalTheoretical;
     sumOutperforming := outperformingCount;
     sumLoanAmount := totalLoanAmount |}.

Definition aggregatePortfolioData (document : list CardDom) : Totals :=
  let allCards := document in
  let validCards := List.filter (fun card => negb (isPending card)) allCards in
  let totalLoans := List.length validCards in
  let results := resultEls document in
  let errors := errorEls document in
  let sums := List.fold_left accumulate results
                {| sumTheoretical := 0; sumOutperforming := 0; sumLoanAmount := 0 |} in
  {| totalLoans := totalLoans;
     analyzedCount := (List.length results + List.length errors)%nat;
     totalTheoretical := sumTheoretical sums;
     outperformingCount := sumOutperforming sums;
     totalLoanAmount := sumLoanAmount sums |}.

End UiEnhancer.

(** ** Loan cards of the page and [firefishDetector]

    The texts of the page are strings of bytes (UTF-8).  The character
    classes of the script's regular expressions other than [\s] hold ASCII
    characters only; [\s] and [trim()] also know the white space outside
    ASCII, which is matched here in its encoded form. *)

Module Text.

Definition code (c : ascii) : N := N_of_ascii c.

Definition isUpper (c : ascii) : bool := ((65 <=? code c) && (code c <=? 90))%N.

Definition isAlpha (c : ascii) : bool :=
  (isUpper c || ((97 <=? code c) && (code c <=? 122)))%N.

(** One white-space character or line terminator at the head of [s]
    (tab, line feed, vertical tab, form feed, carriage return, space,
    U+00A0, U+1680, U+2000 to U+200A, U+2028, U+2029, U+202F, U+205F,
    U+3000, U+FEFF): the rest of [s] behind it. *)
Definition takeSpace (s : list ascii) : option (list ascii) :=
  match s with
  | [] => None
  | c :: r =>
      if JS.isSpace c then Some r
      else
        match r with
        | c2 :: r2 =>
            if ((code c =? 194) && (code c2 =? 160))%N then Some r2
            else
              match r2 with
              | c3 :: r3 =>
                  if (((code c =? 225) && (code c2 =? 154) && (code c3 =? 128))
                      || ((code c =? 226) && (code c2 =? 128)
                          && (((128 <=? code c3) && (code c3 <=? 138))
                              || (code c3 =? 168) || (code c3 =? 169)
                              || (code c3 =? 175)))
                      || ((code c =? 226) && (code c2 =? 129) && (code c3 =? 159))
                      || ((code c =? 227) && (code c2 =? 128) && (code c3 =? 128))
                      || ((code c =? 239) && (code c2 =? 187) && (code c3 =? 191)))%N
                  then Some r3 else None
              | [] => None
              end
        | [] => None
        end
  end.

(** The same, read from the end of a text: [s] is the text reversed. *)
Definition takeSpaceRev (s : list ascii) : option (list ascii) :=
  match s with
  | [] => None
  | c :: r =>
      if JS.isSpace c then Some r
      else
        match r with
        | c2 :: r2 =>
            if ((code c2 =? 194) && (code c =? 160))%N then Some r2
            else
              match r2 with
              | c3 :: r3 =>
                  match takeSpace [c3; c2; c] with
                  | Some [] => Some r3
                  | _ => None
                  end
              | [] => None
              end
        | [] => None
        end
  end.

Fixpoint dropWhile (take : list ascii -> option (list ascii)) (fuel : nat)
    (s : list ascii) : list ascii :=
  match fuel with
  | O => s
  | S fuel' =>
      match take s with
      | Some r => dropWhile take fuel' r
      | None => s
      end
  end.

(** [\s*] at the head of [s]: what follows the white space. *)
Definition skipSpaces (s : list ascii) : list ascii :=
  dropWhile takeSpace (List.length s) s.

(** [\s+] at the head of [s]. *)
Definition spaces (s : list ascii) : option (list ascii) :=
  match takeSpace s with
  | Some r => Some (skipSpaces r)
  | None => None
  end.

(** [str.trim()]. *)
Definition trim (s : list ascii) : list ascii :=
  let s := skipSpaces s in
  List.rev (dropWhile takeSpaceRev (List.length s) (List.rev s)).

(** The longest prefix of [s] whose characters satisfy [p], and the rest. *)
Fixpoint span (p : ascii -> bool) (s : list ascii) : list ascii * list ascii :=
  match s with
  | c :: r => if p c then let '(a, b) := span p r in (c :: a, b) else ([], s)
  | [] => ([], [])
  end.

(** The first suffix of [s], from the left, on which [f] answers. *)
Fixpoint firstMatch {A} (f : list ascii -> option A) (s : list ascii) : option A :=
  match f s with
  | Some a => Some a
  | None => match s with
            | _ :: r => firstMatch f r
            | [] => None
            end
  end.

(** [str.replace(ch, '')]: the first occurrence of [ch] is removed. *)
Fixpoint removeFirst (ch : ascii) (s : list ascii) : list ascii :=
  match s with
  | c :: r => if Ascii.eqb c ch then r else c :: removeFirst ch r
  | [] => []
  end.

(** [parseFloat(str)] on any text: leading white space, a sign, then the
    longest prefix that is [Infinity] or a decimal literal with an
    optional exponent. *)
Definition exponent (s : list ascii) : Z :=
  match s with
  | c :: r =>
      if (Ascii.eqb c "e" || Ascii.eqb c "E")%char then
        let '(neg, r1) :=
          match r with
          | "-"%char :: r' => (true, r')
          | "+"%char :: r' => (false, r')
          | _ => (false, r)
          end in
        let '(v, n, _) := JS.readDigits r1 0 0 in
        if n =? 0 then 0 else if neg then - v else v
      else 0
  | [] => 0
  end.

Definition infinityText : list ascii := list_ascii_of_string "Infinity".

Definition parseFloat (s : list ascii) : float :=
  let s0 := skipSpaces s in
  let '(neg, s1) :=
    match s0 with
    | "-"%char :: r => (true, r)
    | "+"%char :: r => (false, r)
    | _ => (false, s0)
    end in
  if ApiClient.startsWith infinityText s1
  then (if neg then neg_infinity else infinity)
  else
    let '(ip, ni, s2) := JS.readDigits s1 0 0 in
    let '(m, nf, s3) :=
      match s2 with
      | "."%char :: r => let '(v, k, r') := JS.readDigits r ip 0 in (v, k, r')
      | _ => (ip, 0, s2)
      end in
    if (ni + nf =? 0) then nan
    else
      let e := exponent s3 - nf in
      if 0 <=? e then JS.decimalToFloat neg (m * 10 ^ e) 0
      else JS.decimalToFloat neg m (- e).

End Text.

(** What the selectors of the script find in a loan card
    ([._activeCard_fvh4n_5]). *)
Record FieldValue := {
  fieldTitle : option string;      (* getAttribute('title') *)
  fieldText : string               (* textContent *)
}.

Record LoanCard := {
  cardBodies : list string;        (* textContent of each .ant-card-body *)
  amountElement : option string;   (* textContent of ._amount_148t9_34 *)
  interestTitles : list string;    (* title of each ._value_148t9_59[title*="%"] *)
  fieldValueElements : list FieldValue;   (* each ._fieldValue_1gfcb_41 *)
  collateralLink : option string;  (* textContent of a[href*="mempool.space"] *)
  detailsSection : bool            (* ._details_1gfcb_5._details_gxzzy_12 *)
}.

Module Detector.
Import Text.

(** Some [.ant-card-body] of the card contains "PENDING". *)
Definition isPending (card : LoanCard) : bool :=
  List.existsb
    (fun textContent =>
       negb (String.eqb textContent "") && ApiClient.includes textContent "PENDING")
    (cardBodies card).

(** [amountText.match(/^([A-Z]{3})\s+([\d,]+)/)]: the two groups. *)
Definition matchAmount (s : list ascii) : option (list ascii * list ascii) :=
  match s with
  | a :: b :: c :: r =>
      if isUpper a && isUpper b && isUpper c then
        match spaces r with
        | Some r' =>
            match span (fun d => JS.isDigit d || Ascii.eqb d JS.comma) r' with
            | ([], _) => None
            | (digits, _) => Some ([a; b; c], digits)
            end
        | None => None
        end
      else None
  | _ => None
  end.

(** [/\d{1,2}\s+[A-Za-z]{3}\s+\d{4}/] at the head of [s]. *)
Definition dateAt (s : list ascii) : option unit :=
  match s with
  | d1 :: r =>
      if JS.isDigit d1 then
        let afterDay :=
          match spaces r with
          | Some r' => Some r'
          | None =>
              match r with
              | d2 :: r2 => if JS.isDigit d2 then spaces r2 else None
              | [] => None
              end
          end in
        match afterDay with
        | Some (a :: b :: c :: r3) =>
            if isAlpha a && isAlpha b && isAlpha c then
              match spaces r3 with
              | Some (y1 :: y2 :: y3 :: y4 :: _) =>
                  if JS.isDigit y1 && JS.isDigit y2 && JS.isDigit y3 && JS.isDigit y4
                  then Some tt else None
              | _ => None
              end
            else None
        | _ => None
        end
      else None
  | [] => None
  end.

(** [/\d{1,2}\s+[A-Za-z]{3}\s+\d{4}/.test(dateText)]. *)
Definition hasDate (s : list ascii) : bool :=
  match firstMatch dateAt s with Some _ => true | None => false end.

(** [/([\d.]+)\s+BTC/] at the head of [s]: the group. *)
Definition btcAt (s : list ascii) : option (list ascii) :=
  match span (fun d => JS.isDigit d || Ascii.eqb d JS.dot) s with
  | ([], _) => None
  | (digits, r) =>
      match spaces r with
      | Some r' => if ApiClient.startsWith (list_ascii_of_string "BTC") r'
                   then Some digits else None
      | None => None
      end
  end.

(** [text.match(/([\d.]+)\s+BTC/)]: the group of the first match. *)
Definition matchBTC (s : list ascii) : option (list ascii) := firstMatch btcAt s.

Definition trimmed (s : string) : list ascii := trim (list_ascii_of_string s).

(** The [forEach] over the interest elements: the last title wins. *)
Definition interestOf (titles : list string) : JS.value :=
  List.fold_left
    (fun interestRate title =>
       if negb (String.eqb title "") && ApiClient.includes title "%"
       then JS.VNum (Text.parseFloat (removeFirst "%"%char (list_ascii_of_string title)))
       else interestRate)
    titles JS.VNull.

(** The [forEach] over the elements with a title: the last date wins. *)
Definition dateOf (fields : list FieldValue) : option string :=
  List.fold_left
    (fun provisionDate el =>
       match fieldTitle el with
       | Some dateText =>
           if negb (String.eqb dateText "") && hasDate (list_ascii_of_string dateText)
           then Some (string_of_list_ascii (trimmed dateText))
           else provisionDate
       | None => provisionDate
       end)
    fields None.

(** The collateral: from the link, else from the last field that names an
    amount of BTC. *)
Definition collateralOf (card : LoanCard) : JS.value :=
  let fromLink :=
    match collateralLink card with
    | Some textContent =>
        match matchBTC (trimmed textContent) with
        | Some digits => JS.VNum (JS.parseFloat digits)
        | None => JS.VNull
        end
    | None => JS.VNull
    end in
  if negb (JS.truthy fromLink) then
    List.fold_left
      (fun collateralBTC el =>
         match matchBTC (trimmed (fieldText el)) with
         | Some digits => JS.VNum (JS.parseFloat digits)
         | None => collateralBTC
         end)
      (fieldValueElements card) fromLink
  else fromLink.

(** [extractFirefishLoanData(loanCard)]. *)
Definition extractFirefishLoanData (card : LoanCard) : option LoanData :=
  if isPending card then None
  else
    let amountText := match amountElement card with
                      | Some textContent => trimmed textContent
                      | None => []
                      end in
    match matchAmount amountText with
    | None => None
    | Some (cur, digits) =>
        let currency := string_of_list_ascii cur in
        let loanAmount :=
          JS.parseFloat (List.filter (fun c => negb (Ascii.eqb c JS.comma)) digits) in
        let interestRate := interestOf (interestTitles card) in
        let provisionDate := dateOf (fieldValueElements card) in
        let collateralBTC := collateralOf card in
        if String.eqb currency "" || negb (JS.truthyNum loanAmount)
           || negb (JS.truthy interestRate)
           || match provisionDate with
              | Some d => String.eqb d ""
              | None => true
              end
           || negb (JS.truthy collateralBTC)
        then None
        else
          Some {| currency := currency;
                  loanAmount := loanAmount;
                  interestRate := JS.toNumber interestRate;
                  provisionDate := default ""%string provisionDate;
                  collateralBTC := JS.toNumber collateralBTC;
                  isValid := true |}
    end.

(** The filter of [detectFirefishLoanCards()]. *)
Definition hasFirefishStructure (card : LoanCard) : bool :=
  match amountElement card with Some _ => true | None => false end
  && match interestTitles card with _ :: _ => true | [] => false end
  && detailsSection card.

(** [detectFirefishLoanCards()] on the cards of the document. *)
Definition detectFirefishLoanCards (loanCards : list LoanCard) : list LoanCard :=
  List.filter (fun card => negb (isPending card) && hasFirefishStructure card)
              loanCards.

(** [getAllLoanData()]: the data of the cards that yield some, each with
    its index among the detected cards. *)
Definition getAllLoanData (loanCards : list LoanCard) : list (nat * LoanData) :=
  List.flat_map
    (fun ic => match extractFirefishLoanData (snd ic) with
               | Some data => [(fst ic, data)]
               | None => []
               end)
    (List.combine (List.seq 0 (List.length loanCards)) loanCards).

End Detector.

(** The card as the pipeline and the aggregator see it when the script
    has not touched it yet. *)
Definition cardDomOf (card : LoanCard) : CardDom :=
  {| bodyTexts := cardBodies card;
     amountText := amountElement card;
     hasDetails := detailsSection card;
     extracted := Detector.extractFirefishLoanData card;
     processed := false;
     widgets := [] |}.

(** ** The general cache ([cache]) and [cryptoService.getPrice] *)

(** [CONFIG.cacheExpiry]. *)
Definition cacheExpiry : Z := 5 * 60 * 1000.

(** What the script stores in [cache]: a price, or an array (the top coins,
    a price history), which is an object and so always truthy. *)
Inductive Stored :=
| SNumber (n : float)
| SObject (ref : nat).

Definition truthyStored (v : Stored) : bool :=
  match v with
  | SNumber n => JS.truthyNum n
  | SObject _ => true
  end.

Module Cache.

Record Item := { value : Stored; expiry : Z }.

(** [cache.data]. *)
Abbreviation t := (gmap string Item) (only parsing).

(** [cache.set(key, value, expiry = CONFIG.cacheExpiry)] at time [now]. *)
Definition set (key : string) (v : Stored) (expiry : Z) (now : Z) (data : t) : t :=
  <[key := {| value := v; expiry := now + expiry |}]> data.

(** [cache.get(key)] at time [now]: the value and the map that is left. *)
Definition get (key : string) (now : Z) (data : t) : option Stored * t :=
  match data !! key with
  | Some item =>
      if now <? expiry item then (Some (value item), data)
      else (None, delete key data)
  | None => (None, delete key data)
  end.

(** [cache.clear()]. *)
Definition clear (data : t) : t := ∅.

End Cache.

(** The answer of [/simple/price]: for each coin, its price per currency. *)
Definition SimplePrices := gmap string (gmap string float).

Record PriceLookup := {
  result : option Stored;          (* the value returned, [None] for null *)
  cacheAfter : Cache.t;
  requested : bool                 (* whether [fetch] was called *)
}.

(** [cryptoService.getPrice(symbol)] called at time [now]; the answer of
    the network, if it is asked, is read at time [received]. *)
Definition getPrice (symbol : string) (resp : Response SimplePrices)
    (now received : Z) (data : Cache.t) : PriceLookup :=
  let cacheKey := ("price_" ++ symbol)%string in
  let '(cached, data) := Cache.get cacheKey now data in
  let fetched :=
    match resp with
    | Http _ (Json d) =>
        match d !! symbol with
        | Some coin =>
            match coin !! "usd"%string with
            | Some p =>
                if JS.truthyNum p
                then {| result := Some (SNumber p);
                        cacheAfter := Cache.set cacheKey (SNumber p) cacheExpiry received data;
                        requested := true |}
                else {| result := None; cacheAfter := data; requested := true |}
            | None => {| result := None; cacheAfter := data; requested := true |}
            end
        | None => {| result := None; cacheAfter := data; requested := true |}
        end
    | _ => {| result := None; cacheAfter := data; requested := true |}
    end in
  match cached with
  | Some v => if truthyStored v
              then {| result := Some v; cacheAfter := data; requested := false |}
              else fetched
  | None => fetched
  end.

(** ** [utils.debounce] *)

Module Debounce.
Section WithArgs.
Context {A : Type}.

(** A timeout of the debounced function: its id, its deadline and the
    arguments its [later] closure holds. *)
Record Pending := { id : nat; deadline : Z; args : A }.

(** The closure state of [debounce(func, wait)]: the variable [timeout],
    the timeouts of the page that belong to it, and the calls of [func]
    made so far (newest first). *)
Record Closure := {
  timeout : option nat;
  pending : list Pending;
  nextId : nat;
  invoked : list (Z * A)
}.

Definition initial : Closure :=
  {| timeout := None; pending := []; nextId := 1; invoked := [] |}.

(** [clearTimeout(timeout)]; clearing [undefined] or an id that has run
    does nothing. *)
Definition clearTimeout (t : option nat) (table : list Pending) : list Pending :=
  match t with
  | Some i => List.filter (fun p => negb (Nat.eqb (id p) i)) table
  | None => table
  end.

(** [executedFunction(...args)] at time [now]. *)
Definition executedFunction (wait : Z) (a : A) (now : Z) (st : Closure) : Closure :=
  let table := clearTimeout (timeout st) (pending st) in
  {| timeout := Some (nextId st);
     pending := table ++ [{| id := nextId st; deadline := now + wait; args := a |}];
     nextId := S (nextId st);
     invoked := invoked st |}.

(** [later()], run by the timeout [p] at its deadline. *)
Definition later (p : Pending) (st : Closure) : Closure :=
  let table := List.filter (fun q => negb (Nat.eqb (id q) (id p))) (pending st) in
  {| timeout := timeout st;
     pending := clearTimeout (timeout st) table;
     nextId := nextId st;
     invoked := (deadline p, args p) :: invoked st |}.

(** The timeout that runs next: the earliest deadline, the older one among
    equal deadlines. *)
Fixpoint next (table : list Pending) : option Pending :=
  match table with
  | [] => None
  | p :: rest =>
      match next rest with
      | Some q => if deadline q <? deadline p then Some q else Some p
      | None => Some p
      end
  end.

(** Time passes until [t]: the timeouts due by then run.  A run of
    [later] sets no timeout, so at most [n] of them run when [n] are
    pending. *)
Fixpoint elapseN (n : nat) (t : Z) (st : Closure) : Closure :=
  match n with
  | O => st
  | S n' =>
      match next (pending st) with
      | Some p => if deadline p <=? t then elapseN n' t (later p st) else st
      | None => st
      end
  end.

Definition elapse (t : Z) (st : Closure) : Closure :=
  elapseN (List.length (pending st)) t st.

(** A sequence of calls, each with its time. *)
Definition calls (wait : Z) (cs : list (Z * A)) (st : Closure) : Closure :=
  List.fold_left (fun st c => executedFunction wait (snd c) (fst c) (elapse (fst c) st))
                 cs st.

(** Each call comes less than [wait] after the one before, and not before
    it. *)
Fixpoint burst (wait : Z) (t : Z) (cs : list (Z * A)) : bool :=
  match cs with
  | [] => true
  | c :: rest => (t <=? fst c) && (fst c <? t + wait) && burst wait (fst c) rest
  end.

End WithArgs.
Arguments Closure A : clear implicits.
Arguments Pending A : clear implicits.
End Debounce.

(** ** Start of the extension ([initializeFirefish]) *)

Module Startup.

Definition MAX_RETRIES : nat := 10.

(** [retryCount], [firefishDetector.isInitialized], the deadline of the
    pending [setTimeout(initializeFirefish, 2000)], and the times at which
    [validateFirefishPage()] was called (newest first). *)
Record Progress := {
  retryCount : nat;
  isInitialized : bool;
  retryAt : option Z;
  validations : list Z
}.

Definition initial : Progress :=
  {| retryCount := 0; isInitialized := false; retryAt := None; validations := [] |}.

(** [initializeFirefish()] at time [now], given what
    [validateFirefishPage()] answers.  On a valid page the observer and the
    interface are set up before the flag is set; they are taken to
    return. *)
Definition initializeFirefish (valid : bool) (now : Z) (st : Progress) : Progress :=
  if negb valid then
    let retryCount := S (retryCount st) in
    if Nat.leb MAX_RETRIES retryCount
    then {| retryCount := retryCount; isInitialized := isInitialized st;
            retryAt := None; validations := now :: validations st |}
    else {| retryCount := retryCount; isInitialized := isInitialized st;
            retryAt := Some (now + 2000); validations := now :: validations st |}
  else {| retryCount := 0; isInitialized := true;
          retryAt := None; validations := now :: validations st |}.

(** The call at [now] and the retries it schedules, each run at its
    deadline; [validAt t] is what the page answers at time [t]. *)
Fixpoint attempts (fuel : nat) (validAt : Z -> bool) (now : Z) (st : Progress) : Progress :=
  match fuel with
  | O => st
  | S fuel' =>
      let st := initializeFirefish (validAt now) now st in
      match retryAt st with
      | Some t => attempts fuel' validAt t st
      | None => st
      end
  end.

(** The times of the first [n] attempts of a start at [t0]. *)
Definition schedule (t0 : Z) (n : nat) : list Z :=
  List.map (fun k => t0 + 2000 * Z.of_nat k) (List.seq 0 n).

End Startup.

(** ** The summary of the dashboard ([uiEnhancer.updatePortfolioDashboard]) *)

Module Dashboard.

(** [isComplete]: the summary replaces the progress line. *)
Definition isComplete (totals : Totals) : bool :=
  Nat.leb (totalLoans totals) (analyzedCount totals)
  && Nat.ltb 0 (totalLoans totals).

End Dashboard.

(** ** Analysis of all loans ([cryptoService.getBTCAnalysis]) *)

Module BTCAnalysis.

(** An element of [analysis.analysis]. *)
Record Entry := {
  cardIndex : nat;
  currency : string;
  loanAmount : float;
  collateralBTC : float;
  provisionDate : string;
  btcPriceAtProvision : float;
  btcPriceNow : float;
  btcValueAtProvision : float;
  btcValueNow : float;
  priceChangePercent : float;
  valueChange : float;
  loanToValueRatio : float;
  riskLevel : string;
  performance : option Performance.t
}.

Record t := {
  loanData : list (nat * LoanData);
  currentBTCPrice : JS.value;          (* currentPrices.usd *)
  analysis : list Entry
}.

End BTCAnalysis.

Module LoanAnalysis.
Section WithIntl.
Context `{Intl}.

(** [calculateRiskLevel(loanAmount, btcValueNow, priceChange)]. *)
Definition calculateRiskLevel (loanAmount btcValueNow priceChange : float) : string :=
  let ltv := (loanAmount / btcValueNow)%float in
  if PrimFloat.ltb 0.8 ltv then "HIGH"
  else if PrimFloat.ltb 0.6 ltv then "MEDIUM"
  else if PrimFloat.ltb priceChange (-20) then "ELEVATED"
  else "LOW".

(** The element pushed for a loan whose two prices are there. *)
Definition entryOf (index : nat) (loan : LoanData) (currentPrice historicalPrice : float)
  : BTCAnalysis.Entry :=
  let btcValueAtProvision := (collateralBTC loan * historicalPrice)%float in
  let btcValueNow := (collateralBTC loan * currentPrice)%float in
  let priceChange := ((currentPrice - historicalPrice) / historicalPrice * 100)%float in
  let valueChange := (btcValueNow - btcValueAtProvision)%float in
  let performance :=
    CryptoService.calculateFirefishBTCPerformance loan currentPrice historicalPrice in
  {| BTCAnalysis.cardIndex := index;
     BTCAnalysis.currency := currency loan;
     BTCAnalysis.loanAmount := loanAmount loan;
     BTCAnalysis.collateralBTC := collateralBTC loan;
     BTCAnalysis.provisionDate := provisionDate loan;
     BTCAnalysis.btcPriceAtProvision := historicalPrice;
     BTCAnalysis.btcPriceNow := currentPrice;
     BTCAnalysis.btcValueAtProvision := btcValueAtProvision;
     BTCAnalysis.btcValueNow := btcValueNow;
     BTCAnalysis.priceChangePercent := priceChange;
     BTCAnalysis.valueChange := valueChange;
     BTCAnalysis.loanToValueRatio := (loanAmount loan / btcValueNow)%float;
     BTCAnalysis.riskLevel := calculateRiskLevel (loanAmount loan) btcValueNow priceChange;
     BTCAnalysis.performance := performance |}.

(** The [for] loop over the loans; [respHistorical k] is the answer of the
    network to the request for the loan at position [k], if it is made. *)
Fixpoint analyseLoans (loans : list (nat * LoanData)) (k : nat)
    (currentPrices : gmap string float) (respHistorical : nat -> Response Prices)
    (st : State) : list BTCAnalysis.Entry * State :=
  match loans with
  | [] => ([], st)
  | (index, loan) :: rest =>
      let '(historicalPrice, st) :=
        ApiClient.getHistoricalPrice (provisionDate loan) (currency loan) None
                                     (respHistorical k) st in
      let pushed :=
        if negb (JS.truthy historicalPrice) then []            (* continue *)
        else
          let currentPrice := ApiClient.priceOf currentPrices (currency loan) in
          if negb (JS.truthy currentPrice) then []             (* continue *)
          else [entryOf index loan (JS.toNumber currentPrice)
                        (JS.toNumber historicalPrice)] in
      let '(entries, st) := analyseLoans rest (S k) currentPrices respHistorical st in
      (pushed ++ entries, st)
  end.

(** [getBTCAnalysis(loanData)]. *)
Definition getBTCAnalysis (loanData : list (nat * LoanData))
    (respCurrent : Response Prices) (respHistorical : nat -> Response Prices)
    (st : State) : option BTCAnalysis.t * State :=
  let '(currentPrices, st) := ApiClient.getCurrentPriceForAllCurrencies respCurrent st in
  match currentPrices with
  | None => (None, st)
  | Some prices =>
      let '(entries, st) := analyseLoans loanData 0 prices respHistorical st in
      (Some {| BTCAnalysis.loanData := loanData;
               BTCAnalysis.currentBTCPrice := ApiClient.priceOf prices "usd";
               BTCAnalysis.analysis := entries |}, st)
  end.

End WithIntl.
End LoanAnalysis.

(** ** Runs of the page

    An operation is one uninterrupted piece of the script: a call of the
    price client, a step of the processing loop, or time passing with the
    timers that come due. *)

Inductive Op :=
| Advance (fuel : nat) (newestFirst : bool) (t : Z)
| GetCurrent (resp : Response Prices)
| GetHistorical (firefishDate cur : string) (loanCard : option Card)
                (resp : Response Prices)
| ProcessCard (card : Card) (respCurrent respHistorical : Response Prices)
| Enqueue (card : Card)                (* processingQueue.add(card) *)
| ProcessQueued
| ProcessNext (respCurrent respHistorical : Response Prices)
| ForceRetry                           (* window.firefishBTC.forceRetry() *)
| SetCallback.                         (* setRateLimitCallback(...) *)

Section Runs.
Context `{Intl}.

Definition step (op : Op) (st : State) : State :=
  match op with
  | Advance fuel newestFirst t => EventLoop.advance fuel newestFirst t st
  | GetCurrent resp => snd (ApiClient.getCurrentPriceForAllCurrencies resp st)
  | GetHistorical d c card resp => snd (ApiClient.getHistoricalPrice d c card resp st)
  | ProcessCard card rc rh => Analyzer.processFirefishLoanCard card rc rh st
  | Enqueue card => set_queues (setAdd card (processingQueue st)) (worker st) st
  | ProcessQueued => Analyzer.processQueuedCards st
  | ProcessNext rc rh => Analyzer.processNextCard rc rh st
  | ForceRetry => if isRateLimited (rateLimitState st)
                  then RateLimit.resolveRateLimit st else st
  | SetCallback => RateLimit.setRateLimitCallback RestartProcessing st
  end.

Definition run (ops : list Op) (st : State) : State :=
  List.fold_left (fun st op => step op st) ops st.

End Runs.

(** The page once [initializeDefensively] has registered the callback. *)
Definition booted (t0 : Z) (p : gmap nat CardDom) : State :=
  RateLimit.setRateLimitCallback RestartProcessing (initialState t0 p).

(** ** An [Intl] instance for evaluating examples

    Formatting in the manner of the [en-DE] locale for finite values: the
    exact value of the number is rounded half away from zero to the
    requested number of decimals, groups of three digits are separated by
    [.], the decimal separator is [,], and the currency code follows. *)

Module IntlEnDE.

(** [round (|v| * 10^k)] for a finite [v]. *)
Definition scaled (k : Z) (v : float) : option Z :=
  match Prim2SF v with
  | S754_zero _ => Some 0
  | S754_finite _ m e =>
      let n := Zpos m * 10 ^ k in
      if 0 <=? e then Some (n * 2 ^ e)
      else
        let d := 2 ^ (- e) in
        Some (if d <=? 2 * (n mod d) then n / d + 1 else n / d)
  | _ => None
  end.

Definition negative (v : float) : bool :=
  match Prim2SF v with
  | S754_zero s | S754_infinity s | S754_finite s _ _ => s
  | S754_nan => false
  end.

Definition digits (n : Z) : list ascii :=
  list_ascii_of_string (NilZero.string_of_int (Z.to_int n)).

(** Insertion of [sep] between groups of three digits, from the right. *)
Fixpoint groupRev (sep : ascii) (ds : list ascii) (k : nat) : list ascii :=
  match ds with
  | [] => []
  | d :: ds' =>
      match k, ds' with
      | 2%nat, _ :: _ => d :: sep :: groupRev sep ds' 0
      | _, _ => d :: groupRev sep ds' (S k)
      end
  end.

Definition grouped (sep : ascii) (n : Z) : list ascii :=
  List.rev (groupRev sep (List.rev (digits n)) 0).

Definition twoDigits (n : Z) : list ascii :=
  if n <? 10 then "0"%char :: digits n else digits n.

Definition isLetter (c : ascii) : bool :=
  let n := N_of_ascii c in
  ((65 <=? n)%N && (n <=? 90)%N) || ((97 <=? n)%N && (n <=? 122)%N).

Definition wellFormedCurrency (cur : string) : bool :=
  (String.length cur =? 3)%nat && List.forallb isLetter (list_ascii_of_string cur).

Definition format (cur : string) (v : float) : option string :=
  if negb (wellFormedCurrency cur) then None
  else
    let body :=
      match scaled 2 v with
      | Some cents =>
          string_of_list_ascii
            ((if negative v then ["-"%char] else []) ++
             grouped "."%char (cents / 100) ++ ","%char :: twoDigits (cents mod 100))
      | None => if PrimFloat.is_nan v then "NaN"
                else if negative v then "-∞" else "∞"
      end in
    Some (body ++ " " ++ cur)%string.

Definition fixed1 (v : float) : string :=
  match scaled 1 v with
  | Some tenths =>
      string_of_list_ascii
        ((if negative v && (0 <? tenths) then ["-"%char] else []) ++
         digits (tenths / 10) ++ "."%char :: digits (tenths mod 10))
  | None => if PrimFloat.is_nan v then "NaN"
            else if negative v then "-Infinity" else "Infinity"
  end.

Definition instance : Intl :=
  {| formatCurrency := format; toFixed1 := fixed1 |}.

End IntlEnDE.

(** * Specifications *)

(** ** The aggregate in the words of the specification *)

Module PortfolioSpec.

(** "ItemState: one of Queued, Loading, AwaitingRetry, Result, Failed"; a
    result carries the net result, whether it outperforms, and the
    principal of its position. *)
Inductive ItemState :=
| Queued
| Loading
| AwaitingRetry
| Result (netResult : float) (outperforming : bool) (principal : float)
| Failed.

(** An item with the answer of the exclusion predicate for its position:
    "the core treats true as never submit, never count". *)
Record Item := {
  excluded : bool;
  state : ItemState
}.








End PortfolioSpec.

(** ** The historical cache *)

Definition hist (st : State) : gmap string HistoricalEntry :=
  historical (priceCache st).

(** Entries present before an operation are present, unchanged, after it. *)
Definition keeps (st st' : State) : Prop :=
  forall k e, hist st !! k = Some e -> hist st' !! k = Some e.

(** ** Pending cards and the rate-limit flag *)

Definition isDrain (tm : Timer) : bool :=
  match task tm with ProcessPending => true | _ => false end.

(** A run of [processPendingCards] is scheduled. *)
Definition drainScheduled (st : State) : bool :=
  List.existsb isDrain (timers st).

Definition callbackRegistered (st : State) : Prop :=
  onRateLimitResolved (rateLimitState st) = Some RestartProcessing.

(** The countdown only ever runs as an interval. *)
Definition tickIsInterval (tm : Timer) : bool :=
  match task tm, period tm with
  | CountdownTick, None => false
  | _, _ => true
  end.

(** The callback is registered, the waiting cards form a set, and the
    countdown timers are intervals. *)
Definition wellFormed (st : State) : Prop :=
  callbackRegistered st /\
  List.NoDup (pendingCards (rateLimitState st)) /\
  List.forallb tickIsInterval (timers st) = true.

(** Cards wait only while the flag is set or a resubmission is scheduled. *)
Definition pendingCovered (st : State) : Prop :=
  pendingCards (rateLimitState st) = [] \/
  isRateLimited (rateLimitState st) = true \/
  drainScheduled st = true.

Definition coordinatorInvariant (st : State) : Prop :=
  wellFormed st /\ pendingCovered st.

(** Two states with the same coordinator and the same timers. *)
Definition sameCoordinator (st st' : State) : Prop :=
  rateLimitState st' = rateLimitState st /\ timers st' = timers st.

(** ** Observations *)

(** How many recorded timestamps lie in the trailing 30 seconds. *)
Definition recentCount (st : State) : nat :=
  List.length (List.filter (fun timestamp => now st - 30000 <? timestamp)
                           (requestHistory st)).

(** The times at which the resolution callback was invoked, oldest first. *)
Definition resolvedAt (st : State) : list Z :=
  List.rev (List.flat_map (fun e => match e with
                                    | RateLimitResolved t => [t]
                                    | _ => []
                                    end) (events st)).

Definition pendingTimers (st : State) : list (TimerTask * Z) :=
  List.map (fun tm => (task tm, due tm)) (timers st).

(** The cards of the page in document order. *)
Definition documentOf (st : State) (cards : list nat) : list CardDom :=
  List.flat_map (fun card => match page st !! card with
                             | Some c => [c]
                             | None => []
                             end) cards.

(** The first steps of [processFirefishLoanCard]: the processed marker and
    the loading display. *)
Definition markAndShowLoading (card : Card) (st : State) : State :=
  Analyzer.onCardSt Display.showFirefishLoadingState card
    (Analyzer.onCardSt (Display.set_processed true) card st).

(** ** The timer table during a cooldown *)

(** The resolution times recorded in a list of events, newest first. *)
Definition resolutions (evs : list Event) : list Z :=
  List.flat_map (fun e => match e with
                          | RateLimitResolved t => [t]
                          | _ => []
                          end) evs.

(** The table when the interval [id] has been re-armed [p] ms later. *)
Definition bumped (id : nat) (p : Z) (ts : list Timer) : list Timer :=
  List.map (fun x => if Nat.eqb (timerId x) id
                     then {| timerId := timerId x; due := due x + p;
                             period := period x; task := task x |}
                     else x) ts.

(** The table without the timer [id]. *)
Definition without (id : nat) (ts : list Timer) : list Timer :=
  List.filter (fun tm => negb (Nat.eqb (timerId tm) id)) ts.

(** The countdown interval and the cooldown timeout, as
    [startRateLimitCountdown] sets them. *)
Definition tickTimer (id : nat) (d : Z) : Timer :=
  {| timerId := id; due := d; period := Some 1000; task := CountdownTick |}.

Definition resolveTimer (id : nat) (d : Z) : Timer :=
  {| timerId := id; due := d; period := None; task := RetryResolve |}.

(** The coordinator during the first cooldown, started at [first]; the next
    tick is due at [d]. *)
Definition counting (first d : Z) (st : State) : Prop :=
  timers st = [tickTimer 1 d; resolveTimer 2 (first + 60000)] /\
  nextTimerId st = 3%nat /\
  rateLimitedAt (rateLimitState st) = Some first /\
  countdownInterval (rateLimitState st) = Some 1%nat /\
  retryTimeout (rateLimitState st) = Some 2%nat /\
  onRateLimitResolved (rateLimitState st) = Some RestartProcessing /\
  now st <= d.

(** The coordinator after a second throttle at [second]: the timeout of the
    first cooldown is still in the table. *)
Definition rearmed (first second d : Z) (st : State) : Prop :=
  timers st = [resolveTimer 2 (first + 60000); tickTimer 3 d;
               resolveTimer 4 (second + 60000)] /\
  nextTimerId st = 5%nat /\
  rateLimitedAt (rateLimitState st) = Some second /\
  countdownInterval (rateLimitState st) = Some 3%nat /\
  retryTimeout (rateLimitState st) = Some 4%nat /\
  onRateLimitResolved (rateLimitState st) = Some RestartProcessing /\
  now st <= d /\ now st <= first + 60000.

(** ** The price client, the displays and the texts of a card *)

(** A text without a digit. *)
Definition noDigit (s : list ascii) : bool :=
  List.forallb (fun c => negb (JS.isDigit c)) s.

(** Two states with the same price client: caches, request history and the
    time of the last request. *)
Definition sameClient (st st' : State) : Prop :=
  priceCache st' = priceCache st /\
  requestHistory st' = requestHistory st /\
  lastRequest st' = lastRequest st.

(** What the price client keeps true of itself. *)
Definition clientInvariant (st : State) : Prop :=
  (apiBlocked (priceCache st) = false /\ blockedUntil (priceCache st) = None) /\
  (List.length (requestHistory st) <= 10)%nat.

(** How many recorded requests are less than a minute old. *)
Definition requestsInLastMinute (st : State) : Z :=
  Z.of_nat (List.length (List.filter (fun timestamp => now st - timestamp <? 60000)
                                     (requestHistory st))).

(** A text without a space. *)
Definition noSpace (s : string) : bool :=
  List.forallb (fun c => negb (Ascii.eqb c " "%char)) (list_ascii_of_string s).

(** Two views of a card that differ at most in the displays inserted. *)
Definition sameFrame (c c' : CardDom) : Prop :=
  bodyTexts c' = bodyTexts c /\ amountText c' = amountText c /\
  hasDetails c' = hasDetails c /\ extracted c' = extracted c /\
  processed c' = processed c.

(** Every card of [p] is a card of [p'], with at most its displays
    changed. *)
Definition framesKept (p p' : gmap nat CardDom) : Prop :=
  forall card c, p !! card = Some c ->
                 exists c', p' !! card = Some c' /\ sameFrame c c'.

(** The [firefish-btc-rate-limited] elements of a card. *)
Definition rateLimitElements (c : CardDom) : nat :=
  List.length (List.filter (fun w => match w with
                                     | WRateLimited _ _ => true
                                     | _ => false
                                     end) (widgets c)).

(** The newest display of a card is a result or an error. *)
Definition settled (c : CardDom) : bool :=
  match widgets c with
  | WResults _ :: _ | WError _ :: _ => true
  | _ => false
  end.

(** [toUpperCase] on one character. *)
Definition upperChar (c : ascii) : ascii :=
  let n := N_of_ascii c in
  if ((97 <=? n) && (n <=? 122))%N then ascii_of_N (n - 32) else c.

(** The closure of a debounced function after a call at [t] with [a] that
    no other call has followed: one timeout, nothing invoked. *)
Definition armed {A : Type} (wait t : Z) (a : A) (st : Debounce.Closure A) : Prop :=
  exists i, Debounce.pending st
            = [{| Debounce.id := i; Debounce.deadline := t + wait;
                  Debounce.args := a |}] /\
            Debounce.timeout st = Some i /\ Debounce.invoked st = [].

(** ** The displays a card shows *)

(** The elements of a card that the selectors [.firefish-btc-loading],
    [.firefish-btc-results] and [.firefish-btc-error] find: the loading
    element inside a rate-limit message is one of them. *)
Definition isDisplay (w : Widget) : bool :=
  match w with
  | WRateLimited _ inner => inner
  | WLoading | WResults _ | WError _ => true
  end.

Definition isErrorDisplay (w : Widget) : bool :=
  match w with
  | WError _ => true
  | _ => false
  end.

Definition displayCount (c : CardDom) : nat :=
  List.length (List.filter isDisplay (widgets c)).

Definition errorCount (c : CardDom) : nat :=
  List.length (List.filter isErrorDisplay (widgets c)).

(** A card shows at most one of loading indicator, result and error. *)
Definition oneDisplay (c : CardDom) : Prop := (displayCount c <= 1)%nat.

(** Every card of the page satisfies [Q], which may depend on the card. *)
Definition pageAll (Q : nat -> CardDom -> Prop) (p : gmap nat CardDom) : Prop :=
  forall card c, p !! card = Some c -> Q card c.

(** While a card is processed it has no error display: the loading state
    has removed it, and the lookups insert rate-limit messages only. *)
Definition processing (loanCard : nat) (card : nat) (c : CardDom) : Prop :=
  oneDisplay c /\ (card = loanCard -> errorCount c = 0%nat).

(** The card shows a result or an error. *)
Definition analysed (c : CardDom) : bool :=
  List.existsb (fun w => match w with
                         | WResults _ | WError _ => true
                         | _ => false
                         end) (widgets c).

(** ** The items a page renders

    The aggregator reads the items off the page, so the page is where they
    are published.  What follows says, from the side of the sink, when a
    card renders an item; it uses none of the aggregator's functions. *)

Module Rendering.
Import PortfolioSpec.











End Rendering.

(** * Scenarios *)

Definition exampleLoan : LoanData := {|
  currency := "EUR"; loanAmount := 10000; interestRate := 12.5;
  provisionDate := "24 Nov 2024"; collateralBTC := 0.25; isValid := true |}.

(** A page with three active loans and one pending loan. *)
Definition laterLoan : LoanData := {|
  currency := "EUR"; loanAmount := 10000; interestRate := 12.5;
  provisionDate := "25 Nov 2024"; collateralBTC := 0.25; isValid := true |}.

Definition exampleCard : CardDom := {|
  bodyTexts := ["EUR 10,000 12.5% 24 Nov 2024 0.25 BTC"%string];
  amountText := Some "EUR 10,000"%string;
  hasDetails := true;
  extracted := Some exampleLoan;
  processed := false;
  widgets := [] |}.

Definition cardOf (loan : LoanData) : CardDom := {|
  bodyTexts := ["EUR 10,000 12.5% 0.25 BTC"%string];
  amountText := Some "EUR 10,000"%string;
  hasDetails := true;
  extracted := Some loan;
  processed := false;
  widgets := [] |}.

Definition pendingCard : CardDom := {|
  bodyTexts := ["EUR 5,000 Pending"%string];
  amountText := Some "EUR 5,000"%string;
  hasDetails := false;
  extracted := None;
  processed := false;
  widgets := [] |}.

Definition onePage : gmap nat CardDom := {[ 0%nat := exampleCard ]}.

Definition twoCards : gmap nat CardDom :=
  {[ 0%nat := exampleCard; 1%nat := exampleCard ]}.

Definition fourCards : gmap nat CardDom :=
  {[ 0%nat := cardOf exampleLoan; 1%nat := cardOf laterLoan;
     2%nat := cardOf exampleLoan; 3%nat := pendingCard ]}.

Definition eurPrices (p : float) : Prices := Some {[ "eur"%string := p ]}.

Definition usdOnly : gmap string float := {[ "usd"%string := 65000%float ]}.

(** An answer with status 429. *)
Definition tooManyRequests : Response Prices :=
  Http 429 (JsonRejected {| exnName := "SyntaxError";
                            exnMessage := "Unexpected end of JSON input" |}).

(** A [fetch] that is rejected. *)
Definition failedToFetch : Response Prices :=
  FetchRejected {| exnName := "TypeError"; exnMessage := "Failed to fetch" |}.

(** ** A burst of requests *)

(** The requests of a burst: [recordRequest()] at each of the times. *)
Definition recordRequestsAt (times : list Z) (st : State) : State :=
  List.fold_left (fun st t => ApiClient.recordRequest (set_now t st)) times st.

Definition burstTimes : list Z :=
  [1000; 2000; 3000; 4000; 5000; 6000; 7000; 8000; 9000; 10000; 11000; 12000].

(** ** A year of operations after one lookup *)

Definition afterOneLookup : State :=
  snd (ApiClient.getHistoricalPrice "24 Nov 2024" "EUR" None
         (Http 200 (Json (eurPrices 60000))) (initialState 1000 ∅)).

Definition aYearOfOperations : list Op :=
  [ Advance 10 false 31536000000;
    GetCurrent (Http 200 (Json (eurPrices 90000)));
    GetHistorical "25 Nov 2024" "EUR" None (Http 200 (Json (eurPrices 61000)));
    GetHistorical "24 Nov 2024" "EUR" None (Http 200 (Json (eurPrices 1)));
    Advance 10 true 63072000000 ].

(** ** Throttles *)

(** A card is throttled at 1000 ms; then 60 seconds pass. *)
Definition throttleThenWait : list Op :=
  [ GetHistorical "24 Nov 2024" "EUR" (Some 0%nat) tooManyRequests;
    Advance 500 false 61000 ].

Definition resolvedButPending : State :=
  @run IntlEnDE.instance throttleThenWait (booted 1000 onePage).

(** A first 429 when the page is loaded, at [first], a second one at
    [second], then time runs until [finish]. *)
Definition doubleThrottle (newestFirst : bool) (second finish : Z) : list Op :=
  [ GetHistorical "24 Nov 2024" "EUR" (Some 0%nat) tooManyRequests;
    Advance 500 newestFirst second;
    GetHistorical "25 Nov 2024" "EUR" (Some 1%nat) tooManyRequests;
    Advance 500 newestFirst finish ].

Definition afterDoubleThrottle (newestFirst : bool) (first second finish : Z)
  : State :=
  @run IntlEnDE.instance (doubleThrottle newestFirst second finish)
       (booted first twoCards).

(** ** A page with a result, a failure and a pending loan *)

(** The first card gets its result, the second a zero historical price. *)
Definition scenarioState : State :=
  @run IntlEnDE.instance
    [ ProcessCard 0%nat (Http 200 (Json (eurPrices 90000)))
                        (Http 200 (Json (eurPrices 60000)));
      Advance 10 false 2000;
      ProcessCard 1%nat (Http 200 (Json (eurPrices 90000)))
                        (Http 200 (Json (eurPrices 0))) ]
    (booted 1000 fourCards).

Definition scenarioDocument : list CardDom :=
  documentOf scenarioState [0; 1; 2; 3]%nat.

(** ** A page with an underperforming loan and an analysed pending loan *)








(** ** A net result with more than two decimals *)




(** ** A rate-limited client with current prices *)


(** ** A loan card as the page shows it *)

Definition sampleCard : LoanCard :=
  {| cardBodies := ["EUR 10,000 12.5% ACTIVE"%string];
     amountElement := Some " EUR 10,000 "%string;
     interestTitles := ["12.5%"%string];
     fieldValueElements :=
       [ {| fieldTitle := Some "24 Nov 2024"%string; fieldText := "24 Nov 2024" |};
         {| fieldTitle := None; fieldText := "0.25891 BTC" |} ];
     collateralLink := None;
     detailsSection := true |}.

(** * Proofs *)

(** ** The input normalizer on examples *)

Example parse_both_1 : Utils.parseNumberFromText "1.234,56" = 1234.56%float.
Proof. vm_compute. reflexivity. Qed.
Example parse_both_2 : Utils.parseNumberFromText "1,234.56" = 1234.56%float.
Proof. vm_compute. reflexivity. Qed.
Example parse_c1 : Utils.parseNumberFromText "10,000" = 10000%float.
Proof. vm_compute. reflexivity. Qed.
Example parse_c2 : Utils.parseNumberFromText "12,5" = 12.5%float.
Proof. vm_compute. reflexivity. Qed.
Example parse_c3 : Utils.parseNumberFromText "1,234,56" = 1234.56%float.
Proof. vm_compute. reflexivity. Qed.
Example parse_d3 : Utils.parseNumberFromText "1.234.56" = 1.234%float.
Proof. vm_compute. reflexivity. Qed.
Example parse_e1 : Utils.parseNumberFromText "€3,732.68" = 3732.68%float.
Proof. vm_compute. reflexivity. Qed.
Example parse_e2 : Utils.parseNumberFromText "EUR 15,000" = 15000%float.
Proof. vm_compute. reflexivity. Qed.
Example parse_e3 : Utils.parseNumberFromText "-1.234,56" = (-1234.56)%float.
Proof. vm_compute. reflexivity. Qed.
Example parse_e4 : Utils.parseNumberFromText "185.000,00" = 185000%float.
Proof. vm_compute. reflexivity. Qed.
Example parse_e5 : Utils.parseNumberFromText "3.750,00 €" = 3750%float.
Proof. vm_compute. reflexivity. Qed.

(** ** Splitting, joining and searching strings *)

Section StringFacts.
Import JS Utils AmountSpec.

Lemma split_nonempty sep s : split sep s <> [].
Proof.
  induction s as [|c s IH]; simpl; [discriminate|].
  destruct (Ascii.eqb c sep); [discriminate|].
  destruct (split sep s); [contradiction|discriminate].
Qed.

Lemma join_split sep s :
  join (split sep s) = List.filter (fun c => negb (Ascii.eqb c sep)) s.
Proof.
  unfold join. induction s as [|c s IH]; simpl; [reflexivity|].
  destruct (Ascii.eqb c sep) eqn:E; simpl; [exact IH|].
  pose proof (split_nonempty sep s) as Hne.
  destruct (split sep s) as [|p ps]; [contradiction|].
  simpl in *. now rewrite <- IH.
Qed.

Lemma split_app_sep sep pre suf :
  split sep (pre ++ sep :: suf) = split sep pre ++ split sep suf.
Proof.
  induction pre as [|c pre IH]; simpl.
  - now rewrite Ascii.eqb_refl.
  - destruct (Ascii.eqb c sep); [now rewrite IH|].
    rewrite IH. pose proof (split_nonempty sep pre) as Hne.
    destruct (split sep pre); [contradiction|reflexivity].
Qed.

Lemma split_absent sep s :
  List.forallb (fun c => negb (Ascii.eqb c sep)) s = true -> split sep s = [s].
Proof.
  induction s as [|c s IH]; simpl; [reflexivity|].
  intros H. apply andb_true_iff in H as [Hc Hs].
  apply negb_true_iff in Hc. rewrite Hc, (IH Hs). reflexivity.
Qed.

Lemma pop_snoc parts p : pop (parts ++ [p]) = (p, parts).
Proof. unfold pop. now rewrite List.last_last, List.removelast_last. Qed.

Lemma filter_absent (q : ascii -> bool) s :
  List.forallb q s = true -> List.filter q s = s.
Proof.
  induction s as [|c s IH]; simpl; [reflexivity|].
  intros H. apply andb_true_iff in H as [Hc Hs]. now rewrite Hc, (IH Hs).
Qed.

Lemma forallb_filter_same (q : ascii -> bool) s :
  List.forallb q (List.filter q s) = true.
Proof.
  induction s as [|c s IH]; simpl; [reflexivity|].
  destruct (q c) eqn:E; simpl; [now rewrite E|exact IH].
Qed.

Lemma forallb_weaken (q r : ascii -> bool) s :
  (forall c, q c = true -> r c = true) ->
  List.forallb q s = true -> List.forallb r s = true.
Proof.
  intros Hqr. induction s as [|c s IH]; simpl; [reflexivity|].
  intros H. apply andb_true_iff in H as [Hc Hs].
  now rewrite (Hqr _ Hc), (IH Hs).
Qed.

Lemma replaceAll_absent from to s :
  List.forallb (fun c => negb (Ascii.eqb c from)) s = true ->
  replaceAll from to s = s.
Proof.
  unfold replaceAll. induction s as [|c s IH]; simpl; [reflexivity|].
  intros H. apply andb_true_iff in H as [Hc Hs].
  apply negb_true_iff in Hc. now rewrite Hc, (IH Hs).
Qed.

Lemma replaceAll_app from to s t :
  replaceAll from to (s ++ t) = replaceAll from to s ++ replaceAll from to t.
Proof. unfold replaceAll. apply List.map_app. Qed.

Lemma lastIndexOf_bounds ch s :
  -1 <= lastIndexOf ch s < Z.of_nat (List.length s).
Proof.
  induction s as [|c s IH]; simpl List.length; simpl lastIndexOf; [lia|].
  destruct (0 <=? lastIndexOf ch s) eqn:E; [lia|].
  destruct (Ascii.eqb c ch); lia.
Qed.

Lemma lastIndexOf_absent ch s :
  List.forallb (fun c => negb (Ascii.eqb c ch)) s = true ->
  lastIndexOf ch s = -1.
Proof.
  induction s as [|c s IH]; simpl; [reflexivity|].
  intros H. apply andb_true_iff in H as [Hc Hs].
  apply negb_true_iff in Hc. now rewrite (IH Hs), Hc.
Qed.

(** The last occurrence of [ch] sits right after [b] when the rest is
    free of it. *)
Lemma lastIndexOf_at ch b a :
  List.forallb (fun c => negb (Ascii.eqb c ch)) a = true ->
  lastIndexOf ch (b ++ ch :: a) = Z.of_nat (List.length b).
Proof.
  intros Ha. induction b as [|c b IH].
  - simpl. now rewrite (lastIndexOf_absent _ _ Ha), Ascii.eqb_refl.
  - simpl List.app. simpl lastIndexOf. rewrite IH.
    simpl List.length.
    destruct (0 <=? Z.of_nat (List.length b)) eqn:E; lia.
Qed.

(** A character that occurs neither at position [length b] nor after it
    has its last occurrence inside [b]. *)
Lemma lastIndexOf_before ch b c a :
  Ascii.eqb c ch = false ->
  List.forallb (fun c => negb (Ascii.eqb c ch)) a = true ->
  lastIndexOf ch (b ++ c :: a) < Z.of_nat (List.length b).
Proof.
  intros Hc Ha. induction b as [|x b IH].
  - simpl. rewrite (lastIndexOf_absent _ _ Ha), Hc. simpl. lia.
  - simpl List.app. simpl lastIndexOf. simpl List.length.
    destruct (0 <=? lastIndexOf ch (b ++ c :: a)) eqn:E; [lia|].
    destruct (Ascii.eqb x ch); lia.
Qed.

Lemma splitAtLast_Some p s b a :
  splitAtLast p s = Some (b, a) ->
  exists c, s = b ++ c :: a /\ p c = true /\
            List.forallb (fun x => negb (p x)) a = true.
Proof.
  revert b a. induction s as [|x s IH]; intros b a; simpl; [discriminate|].
  destruct (splitAtLast p s) as [[b' a']|] eqn:E.
  - intros [= <- <-]. destruct (IH _ _ eq_refl) as (c & -> & Hc & Ha).
    exists c. auto.
  - destruct (p x) eqn:Hx; [|discriminate].
    intros [= <- <-]. exists x. repeat split; auto.
    clear IH. induction s as [|y s IH]; simpl in *; [reflexivity|].
    destruct (splitAtLast p s) as [[? ?]|]; [discriminate|].
    destruct (p y); [discriminate|]. simpl. now apply IH.
Qed.

Lemma splitAtLast_None p s :
  splitAtLast p s = None -> List.forallb (fun x => negb (p x)) s = true.
Proof.
  induction s as [|y s IH]; simpl; [reflexivity|].
  destruct (splitAtLast p s) as [[? ?]|]; [discriminate|].
  destruct (p y); [discriminate|]. simpl. intros _. now apply IH.
Qed.

Lemma count_absent ch s :
  List.forallb (fun c => negb (Ascii.eqb c ch)) s = true -> count s ch = 0.
Proof.
  unfold count. induction s as [|c s IH]; simpl; [reflexivity|].
  intros H. apply andb_true_iff in H as [Hc Hs].
  apply negb_true_iff in Hc. rewrite Ascii.eqb_sym, Hc. now apply IH.
Qed.

Lemma count_nonneg ch s : 0 <= count s ch.
Proof. unfold count. lia. Qed.

Lemma filter_two_separators s :
  List.filter (fun c => negb (Ascii.eqb c comma))
    (List.filter (fun c => negb (Ascii.eqb c dot)) s) = stripSeparators s.
Proof.
  unfold stripSeparators, isSeparator.
  induction s as [|c s IH]; simpl; [reflexivity|].
  destruct (Ascii.eqb c dot) eqn:Ed; simpl.
  - rewrite orb_true_r. simpl. exact IH.
  - rewrite orb_false_r. destruct (Ascii.eqb c comma); simpl; now rewrite IH.
Qed.

Lemma filter_two_separators' s :
  List.filter (fun c => negb (Ascii.eqb c dot))
    (List.filter (fun c => negb (Ascii.eqb c comma)) s) = stripSeparators s.
Proof.
  unfold stripSeparators, isSeparator.
  induction s as [|c s IH]; simpl; [reflexivity|].
  destruct (Ascii.eqb c comma) eqn:Ed; simpl; [exact IH|].
  destruct (Ascii.eqb c dot); simpl; now rewrite IH.
Qed.

Lemma stripSeparators_no_comma s :
  List.forallb (fun c => negb (Ascii.eqb c comma)) (stripSeparators s) = true.
Proof.
  unfold stripSeparators.
  eapply forallb_weaken; [|apply forallb_filter_same].
  intros c. unfold isSeparator. simpl. destruct (Ascii.eqb c comma); auto.
Qed.

Lemma no_separator_no_char ch a :
  isSeparator ch = true ->
  List.forallb (fun x => negb (isSeparator x)) a = true ->
  List.forallb (fun c => negb (Ascii.eqb c ch)) a = true.
Proof.
  intros Hch. apply forallb_weaken. intros c Hc.
  destruct (Ascii.eqb c ch) eqn:E; [|reflexivity].
  apply Ascii.eqb_eq in E. subst c. now rewrite Hch in Hc.
Qed.

End StringFacts.

(** ** The rightmost-separator rule *)

Section ParseNumberFacts.
Import JS Utils AmountSpec.

Lemma isSeparator_cases c :
  isSeparator c = true -> c = comma \/ c = dot.
Proof.
  unfold isSeparator. intros H. apply orb_true_iff in H as [H|H];
    apply Ascii.eqb_eq in H; auto.
Qed.

Lemma stripThousands_filter s sep :
  stripThousands s sep = List.filter (fun c => negb (Ascii.eqb c sep)) s.
Proof. apply join_split. Qed.

(** Case 1 of the parser, decomposed around the rightmost separator. *)
Lemma parseBoth_decompose b c a :
  isSeparator c = true ->
  List.forallb (fun x => negb (isSeparator x)) a = true ->
  parseBoth (b ++ c :: a) = finish (stripSeparators b ++ dot :: a).
Proof.
  intros Hc Ha.
  pose proof (no_separator_no_char comma a eq_refl Ha) as Hac.
  pose proof (no_separator_no_char dot a eq_refl Ha) as Had.
  unfold parseBoth.
  destruct (isSeparator_cases c Hc) as [-> | ->].
  - rewrite (lastIndexOf_at comma b a Hac).
    pose proof (lastIndexOf_before dot b comma a eq_refl Had) as Hlt.
    apply Z.ltb_lt in Hlt. rewrite Hlt.
    change (Ascii.eqb comma comma) with true. cbv iota.
    rewrite stripThousands_filter, List.filter_app. simpl List.filter.
    change (negb (Ascii.eqb comma dot)) with true. cbv iota.
    rewrite (filter_absent _ a Had).
    rewrite split_app_sep, (split_absent comma a Hac), pop_snoc.
    rewrite join_split, filter_two_separators.
    rewrite replaceAll_app. simpl replaceAll at 2.
    change (Ascii.eqb comma comma) with true. cbv iota.
    rewrite (replaceAll_absent comma dot _ (stripSeparators_no_comma b)).
    fold (replaceAll comma dot a). now rewrite (replaceAll_absent _ _ _ Hac).
  - rewrite (lastIndexOf_at dot b a Had).
    pose proof (lastIndexOf_before comma b dot a eq_refl Hac) as Hlt.
    assert ((Z.of_nat (List.length b) <? lastIndexOf comma (b ++ dot :: a)) = false)
      as -> by (apply Z.ltb_ge; lia).
    change (Ascii.eqb dot comma) with false. cbv iota.
    rewrite stripThousands_filter, List.filter_app. simpl List.filter.
    change (negb (Ascii.eqb dot comma)) with true. cbv iota.
    rewrite (filter_absent _ a Hac).
    rewrite split_app_sep, (split_absent dot a Had), pop_snoc.
    now rewrite join_split, filter_two_separators'.
Qed.

Lemma parseBoth_rightmost s :
  0 < count s comma -> parseBoth s = rightmostIsDecimal s.
Proof.
  intros Hc. unfold rightmostIsDecimal.
  destruct (splitAtLast isSeparator s) as [[b a]|] eqn:E.
  - destruct (splitAtLast_Some _ _ _ _ E) as (c & -> & Hsep & Ha).
    now apply parseBoth_decompose.
  - apply splitAtLast_None in E.
    rewrite (count_absent comma s) in Hc; [lia|].
    revert E. apply forallb_weaken. intros c. unfold isSeparator.
    destruct (Ascii.eqb c comma); auto.
Qed.

(** The parser on a text whose cleaned form is [s]. *)
Lemma parseNumberFromText_cleaned text s :
  s = keepNumberChars (trim (chars text)) -> s <> [] ->
  parseNumberFromText text =
    if (0 <? count s comma) && (0 <? count s dot) then parseBoth s
    else if (0 <? count s comma) && (count s dot =? 0)
         then parseCommas s (count s comma)
    else if (0 <? count s dot) && (count s comma =? 0) then parseDots s
    else finish s.
Proof.
  intros -> Hne. unfold parseNumberFromText.
  destruct (chars text) as [|c t] eqn:Et; [now elim Hne|].
  destruct (keepNumberChars (trim (c :: t))); [now elim Hne|reflexivity].
Qed.

Lemma count_pos_nonempty s ch : 0 < count s ch -> s <> [].
Proof. intros H ->. unfold count in H. simpl in H. lia. Qed.

End ParseNumberFacts.

(** C6.  When both [.] and [,] occur in an amount text, the parser reads the
    rightmost separator as the decimal point and strips every other
    separator; ["1.234,56"] and ["1,234.56"] both parse to [1234.56]. *)
Theorem parseAmount_both_separators :
  (forall text s,
      s = Utils.keepNumberChars (JS.trim (JS.chars text)) ->
      0 < JS.count s JS.comma -> 0 < JS.count s JS.dot ->
      Utils.parseNumberFromText text = AmountSpec.rightmostIsDecimal s) /\
  Utils.parseNumberFromText "1.234,56" = 1234.56%float /\
  Utils.parseNumberFromText "1,234.56" = 1234.56%float.
Proof.
  split; [|split; vm_compute; reflexivity].
  intros text s Hs Hc Hd.
  rewrite (parseNumberFromText_cleaned text s Hs (count_pos_nonempty s _ Hc)).
  apply Z.ltb_lt in Hc as Hc', Hd as Hd'. rewrite Hc', Hd'. simpl.
  now apply parseBoth_rightmost.
Qed.

Lemma parseAmount_both_separators_witness :
  0 < JS.count (JS.chars "185.000,00") JS.comma /\
  0 < JS.count (JS.chars "185.000,00") JS.dot /\
  Utils.parseNumberFromText "EUR 185.000,00" = 185000%float.
Proof.
  split; [reflexivity|]. split; [reflexivity|].
  rewrite (proj1 parseAmount_both_separators "EUR 185.000,00"
             (JS.chars "185.000,00") eq_refl eq_refl eq_refl).
  vm_compute. reflexivity.
Defined.

(** ** Texts with one separator type *)

Section SingleSeparatorFacts.
Import JS Utils AmountSpec.

Lemma count_zero_absent ch s :
  count s ch = 0 -> List.forallb (fun c => negb (Ascii.eqb c ch)) s = true.
Proof.
  unfold count. induction s as [|c s IH]; simpl; [reflexivity|].
  rewrite (Ascii.eqb_sym ch c). destruct (Ascii.eqb c ch); simpl; [lia|].
  exact IH.
Qed.

Lemma forallb_app_inv (q : ascii -> bool) s t :
  List.forallb q (s ++ t) = true ->
  List.forallb q s = true /\ List.forallb q t = true.
Proof. rewrite List.forallb_app. apply andb_true_iff. Qed.

Lemma stripSeparators_one_type ch other s :
  isSeparator ch = true -> isSeparator other = true -> ch <> other ->
  List.forallb (fun c => negb (Ascii.eqb c other)) s = true ->
  stripSeparators s = List.filter (fun c => negb (Ascii.eqb c ch)) s.
Proof.
  intros Hch Hot Hne. unfold stripSeparators.
  induction s as [|c s IH]; simpl; [reflexivity|].
  intros H. apply andb_true_iff in H as [Hc Hs]. rewrite (IH Hs).
  replace (isSeparator c) with (Ascii.eqb c ch); [reflexivity|].
  apply negb_true_iff in Hc.
  destruct (isSeparator_cases _ Hch), (isSeparator_cases _ Hot); subst;
    try congruence; unfold isSeparator; rewrite Hc;
    [now rewrite orb_false_r | reflexivity].
Qed.

Lemma count_app_sep ch b a :
  count (b ++ ch :: a) ch = count b ch + 1 + count a ch.
Proof.
  unfold count. rewrite List.filter_app, List.length_app. simpl.
  rewrite Ascii.eqb_refl. simpl. lia.
Qed.

(** Case 2 of the parser around the last comma of a text without dots. *)
Lemma parseCommas_decompose b a :
  List.forallb (fun c => negb (Ascii.eqb c dot)) (b ++ comma :: a) = true ->
  List.forallb (fun c => negb (Ascii.eqb c comma)) a = true ->
  parseCommas (b ++ comma :: a) (count (b ++ comma :: a) comma) =
    let trailing := Z.of_nat (List.length a) in
    if trailing =? 3 then finish (stripSeparators (b ++ comma :: a))
    else if trailing =? 2 then finish (stripSeparators b ++ dot :: a)
    else finish (replaceAll comma dot (b ++ comma :: a)).
Proof.
  intros Hnd Ha. cbv zeta. unfold parseCommas.
  rewrite (lastIndexOf_at comma b a Ha).
  replace (Z.of_nat (List.length (b ++ comma :: a)) - Z.of_nat (List.length b) - 1)
    with (Z.of_nat (List.length a))
    by (rewrite List.length_app; simpl List.length; lia).
  destruct (Z.of_nat (List.length a) =? 3) eqn:E3.
  - rewrite stripThousands_filter.
    now rewrite (stripSeparators_one_type comma dot _ eq_refl eq_refl
                   ltac:(discriminate) Hnd).
  - rewrite split_app_sep, (split_absent comma a Ha), pop_snoc.
    destruct (forallb_app_inv _ _ _ Hnd) as [Hb _].
    destruct (Z.of_nat (List.length a) =? 2) eqn:E2.
    + rewrite andb_true_r.
      rewrite (stripSeparators_one_type comma dot b eq_refl eq_refl
                 ltac:(discriminate) Hb).
      destruct (1 <? count (b ++ comma :: a) comma) eqn:Ec.
      * now rewrite join_split.
      * rewrite count_app_sep, (count_absent comma a Ha) in Ec.
        apply Z.ltb_ge in Ec. pose proof (count_nonneg comma b).
        assert (count b comma = 0) as Hb0 by lia.
        apply count_zero_absent in Hb0.
        rewrite replaceAll_app, (replaceAll_absent _ _ _ Hb0).
        rewrite (filter_absent _ b Hb0). simpl replaceAll.
        change (Ascii.eqb comma comma) with true. cbv iota.
        fold (replaceAll comma dot a).
        now rewrite (replaceAll_absent _ _ _ Ha).
    + now rewrite andb_false_r.
Qed.

(** Case 3 of the parser around the last dot of a text without commas. *)
Lemma parseDots_decompose b a :
  List.forallb (fun c => negb (Ascii.eqb c comma)) (b ++ dot :: a) = true ->
  List.forallb (fun c => negb (Ascii.eqb c dot)) a = true ->
  parseDots (b ++ dot :: a) =
    if Z.of_nat (List.length a) =? 3
    then finish (stripSeparators (b ++ dot :: a))
    else finish (b ++ dot :: a).
Proof.
  intros Hnc Ha. unfold parseDots.
  rewrite (lastIndexOf_at dot b a Ha).
  replace (Z.of_nat (List.length (b ++ dot :: a)) - Z.of_nat (List.length b) - 1)
    with (Z.of_nat (List.length a))
    by (rewrite List.length_app; simpl List.length; lia).
  destruct (Z.of_nat (List.length a) =? 3); [|reflexivity].
  rewrite stripThousands_filter.
  now rewrite (stripSeparators_one_type dot comma _ eq_refl eq_refl
                 ltac:(discriminate) Hnc).
Qed.

Lemma splitAtLast_one_type ch other s b a :
  isSeparator ch = true -> isSeparator other = true -> ch <> other ->
  List.forallb (fun c => negb (Ascii.eqb c other)) s = true ->
  splitAtLast isSeparator s = Some (b, a) ->
  s = b ++ ch :: a /\
  List.forallb (fun c => negb (Ascii.eqb c ch)) a = true.
Proof.
  intros Hch Hot Hne Hs E.
  destruct (splitAtLast_Some _ _ _ _ E) as (c & -> & Hc & Ha).
  destruct (forallb_app_inv _ _ _ Hs) as [_ Hca]. simpl in Hca.
  apply andb_true_iff in Hca as [Hco _]. apply negb_true_iff in Hco.
  assert (c = ch) as ->.
  { destruct (isSeparator_cases _ Hc), (isSeparator_cases _ Hch),
      (isSeparator_cases _ Hot); subst; try congruence;
      rewrite Ascii.eqb_refl in Hco; discriminate. }
  split; [reflexivity|]. now apply no_separator_no_char.
Qed.

(** With commas only, the parser follows the single-separator rule. *)
Lemma parseNumberFromText_commas_rule text s :
  s = keepNumberChars (trim (chars text)) ->
  0 < count s comma -> count s dot = 0 ->
  parseNumberFromText text = singleSeparatorRule s.
Proof.
  intros Hs Hc Hd.
  rewrite (parseNumberFromText_cleaned text s Hs (count_pos_nonempty s _ Hc)).
  apply Z.ltb_lt in Hc as Hc'. rewrite Hc', Hd. simpl.
  apply count_zero_absent in Hd. unfold singleSeparatorRule.
  destruct (splitAtLast isSeparator s) as [[b a]|] eqn:E.
  - destruct (splitAtLast_one_type comma dot s b a eq_refl eq_refl
                ltac:(discriminate) Hd E) as [-> Ha].
    now apply parseCommas_decompose.
  - apply splitAtLast_None in E.
    rewrite (count_absent comma s) in Hc; [lia|].
    revert E. apply forallb_weaken. intros c. unfold isSeparator.
    destruct (Ascii.eqb c comma); auto.
Qed.

(** With dots only, the parser follows the rule when the text has one
    dot, or when the last group does not have exactly two characters. *)
Lemma parseNumberFromText_dots_rule text s :
  s = keepNumberChars (trim (chars text)) ->
  0 < count s dot -> count s comma = 0 ->
  (count s dot = 1 \/
   Z.of_nat (List.length s) - lastIndexOf dot s - 1 <> 2) ->
  parseNumberFromText text = singleSeparatorRule s.
Proof.
  intros Hs Hd Hc Hside.
  rewrite (parseNumberFromText_cleaned text s Hs (count_pos_nonempty s _ Hd)).
  apply Z.ltb_lt in Hd as Hd'. rewrite Hd', Hc. simpl.
  apply count_zero_absent in Hc. unfold singleSeparatorRule.
  destruct (splitAtLast isSeparator s) as [[b a]|] eqn:E.
  - destruct (splitAtLast_one_type dot comma s b a eq_refl eq_refl
                ltac:(discriminate) Hc E) as [-> Ha].
    rewrite (parseDots_decompose b a Hc Ha). cbv zeta.
    destruct (Z.of_nat (List.length a) =? 3) eqn:E3; [reflexivity|].
    rewrite (replaceAll_absent comma dot _ Hc).
    destruct (Z.of_nat (List.length a) =? 2) eqn:E2; [|reflexivity].
    destruct Hside as [Hone | Htr].
    + rewrite count_app_sep, (count_absent dot a Ha) in Hone.
      pose proof (count_nonneg dot b).
      assert (count b dot = 0) as Hb0 by lia.
      apply count_zero_absent in Hb0.
      destruct (forallb_app_inv _ _ _ Hc) as [Hbc _].
      rewrite (stripSeparators_one_type dot comma b eq_refl eq_refl
                 ltac:(discriminate) Hbc).
      now rewrite (filter_absent _ b Hb0).
    + exfalso. apply Htr. rewrite (lastIndexOf_at dot b a Ha).
      rewrite List.length_app. simpl List.length.
      apply Z.eqb_eq in E2. lia.
  - apply splitAtLast_None in E.
    rewrite (count_absent dot s) in Hd; [lia|].
    revert E. apply forallb_weaken. intros c. unfold isSeparator.
    destruct (Ascii.eqb c dot); [|reflexivity].
    now rewrite orb_true_r.
Qed.

End SingleSeparatorFacts.

(** C7.  With one separator type the rule reads a last group of exactly two
    characters as the fraction.  On the dots-only text ["1.234.56"] the
    parser returns [1.234]: the dots branch hands the text to [parseFloat]
    unchanged, which stops at the second dot.  The rule, and the commas
    branch on ["1,234,56"], give [1234.56].  The two examples of the claim
    hold: ["10,000"] is [10000] and ["12,5"] is [12.5]. *)
Theorem parseAmount_dots_two_digit_group :
  Utils.parseNumberFromText "1.234.56" = 1.234%float /\
  AmountSpec.singleSeparatorRule (JS.chars "1.234.56") = 1234.56%float /\
  Utils.parseNumberFromText "1,234,56" = 1234.56%float /\
  Utils.parseNumberFromText "10,000" = 10000%float /\
  Utils.parseNumberFromText "12,5" = 12.5%float.
Proof. repeat split; vm_compute; reflexivity. Qed.

(** ** The performance calculator *)

Example format_3750 : IntlEnDE.format "EUR" 3750%float = Some "3.750,00 EUR"%string.
Proof. vm_compute. reflexivity. Qed.
Example format_big : IntlEnDE.format "EUR" 1234567.891%float = Some "1.234.567,89 EUR"%string.
Proof. vm_compute. reflexivity. Qed.
Example format_small : IntlEnDE.format "EUR" (-0.5)%float = Some "-0,50 EUR"%string.
Proof. vm_compute. reflexivity. Qed.
Example format_bad : IntlEnDE.format "EURO" 1%float = None.
Proof. vm_compute. reflexivity. Qed.
Example fixed_1 : IntlEnDE.fixed1 12.5%float = "12.5"%string.
Proof. vm_compute. reflexivity. Qed.

(** C1.  For a loan with principal [P] and annual rate [R], a historical
    price [H] and a current price [C], the calculator returns
    [btcValueChange = P * (C / H - 1)], [interestCost = P * (R / 100)],
    [netResult = btcValueChange - interestCost] and
    [outperforming = (btcValueChange > interestCost)], the operations being
    those of JavaScript numbers; for [P = 10000], [R = 12.5], [H = 60000],
    [C = 90000] these are [5000], [1250], [3750] and [true].  The currency
    of the loan is one the platform can format. *)
Theorem calculateFirefishBTCPerformance_formulas `{Intl}
    (loanData : LoanData) (C Hist : float) :
  (forall v, is_Some (formatCurrency (currency loanData) v)) ->
  exists p,
    CryptoService.calculateFirefishBTCPerformance loanData C Hist = Some p /\
    let P := loanAmount loanData in
    let R := interestRate loanData in
    let r := Performance.raw p in
    Raw.btcValueChange r = (P * (C / Hist - 1))%float /\
    Raw.loanInterestCost r = (P * (R / 100))%float /\
    Raw.theoreticalResult r = (Raw.btcValueChange r - Raw.loanInterestCost r)%float /\
    Performance.isOutperforming p =
      PrimFloat.ltb (Raw.loanInterestCost r) (Raw.btcValueChange r) /\
    (P = 10000%float -> R = 12.5%float -> Hist = 60000%float -> C = 90000%float ->
     Raw.btcValueChange r = 5000%float /\
     Raw.loanInterestCost r = 1250%float /\
     Raw.theoreticalResult r = 3750%float /\
     Performance.isOutperforming p = true).
Proof.
  intros Hfmt. unfold CryptoService.calculateFirefishBTCPerformance.
  destruct (Hfmt (loanAmount loanData * (C / Hist - 1))%float) as [s1 ->].
  destruct (Hfmt (loanAmount loanData * (interestRate loanData / 100))%float) as [s2 ->].
  destruct (Hfmt (PrimFloat.abs
                    (loanAmount loanData * (C / Hist - 1) -
                     loanAmount loanData * (interestRate loanData / 100)))%float)
    as [s3 ->].
  destruct (Hfmt Hist) as [s4 ->]. destruct (Hfmt C) as [s5 ->].
  eexists. split; [reflexivity|]. cbn.
  do 4 (split; [reflexivity|]).
  intros HP HR HH HC. rewrite HP, HR, HH, HC.
  vm_compute. repeat split.
Qed.

Lemma calculateFirefishBTCPerformance_formulas_witness :
  exists p,
    @CryptoService.calculateFirefishBTCPerformance IntlEnDE.instance
      exampleLoan 90000 60000 = Some p /\
    Raw.btcValueChange (Performance.raw p) = 5000%float /\
    Raw.loanInterestCost (Performance.raw p) = 1250%float /\
    Raw.theoreticalResult (Performance.raw p) = 3750%float /\
    Performance.isOutperforming p = true /\
    Performance.theoreticalResult p = "3.750,00 EUR"%string.
Proof.
  destruct (@calculateFirefishBTCPerformance_formulas IntlEnDE.instance
              exampleLoan 90000 60000) as (p & Hp & _ & _ & _ & _ & Hex).
  { intros v. vm_compute. eauto. }
  exists p. destruct (Hex eq_refl eq_refl eq_refl eq_refl) as (H1 & H2 & H3 & H4).
  repeat split; try assumption.
  vm_compute in Hp. injection Hp as <-. reflexivity.
Defined.

(** ** Properties of the request throttler *)

Section ThrottlerFacts.
Import ApiClient.

Lemma sliceLast_length n l : (List.length (sliceLast n l) <= n)%nat.
Proof. unfold sliceLast. rewrite List.length_skipn. lia. Qed.

Lemma filter_length_le {A} (q : A -> bool) (l : list A) :
  (List.length (List.filter q l) <= List.length l)%nat.
Proof.
  induction l as [|x l IH]; simpl; [lia|]. destruct (q x); simpl; lia.
Qed.

(** The burst check inspects at most five timestamps, so its count never
    exceeds five. *)
Lemma isRequestingTooFast_false st : isRequestingTooFast st = false.
Proof.
  unfold isRequestingTooFast.
  destruct (Nat.ltb (List.length (requestHistory st)) 2); [reflexivity|].
  apply Nat.ltb_ge.
  etransitivity; [apply filter_length_le | apply sliceLast_length].
Qed.

End ThrottlerFacts.

(** C3.  The claim is that the burst check answers [true] whenever more
    than five recorded timestamps lie in the trailing 30 seconds.  After
    twelve requests one second apart the rolling window holds the last ten
    timestamps, all ten within the trailing 30 seconds, and
    [isRequestingTooFast()] answers [false]; it answers [false] in every
    state. *)
Theorem isRequestingTooFast_misses_burst :
  let st := recordRequestsAt burstTimes (initialState 0 ∅) in
  requestHistory st =
    [3000; 4000; 5000; 6000; 7000; 8000; 9000; 10000; 11000; 12000] /\
  now st = 12000 /\
  recentCount st = 10%nat /\
  ApiClient.isRequestingTooFast st = false /\
  (forall st', ApiClient.isRequestingTooFast st' = false).
Proof.
  repeat split; try (vm_compute; reflexivity).
  apply isRequestingTooFast_false.
Qed.

(** ** The historical cache never expires *)

Ltac break_match :=
  match goal with
  | |- context [match ?x with _ => _ end] => destruct x eqn:?
  end.

Section HistoricalFrame.
Import Timers Display RateLimit ApiClient Analyzer EventLoop.

Lemma hist_onCards f cards st :
  hist (set_page (onCards f cards (page st)) st) = hist st.
Proof. reflexivity. Qed.

Lemma hist_updateRateLimitDisplay r st :
  hist (updateRateLimitDisplay r st) = hist st.
Proof. reflexivity. Qed.

Lemma hist_startRateLimitCountdown st :
  hist (startRateLimitCountdown st) = hist st.
Proof.
  unfold startRateLimitCountdown.
  destruct (countdownInterval (rateLimitState st)); reflexivity.
Qed.

Lemma hist_resolveRateLimit st : hist (resolveRateLimit st) = hist st.
Proof.
  unfold resolveRateLimit. repeat break_match; try reflexivity.
  all: destruct c; reflexivity.
Qed.

Lemma hist_addPendingCard card st : hist (addPendingCard card st) = hist st.
Proof. unfold addPendingCard. break_match; reflexivity. Qed.

Lemma hist_countdownTick st : hist (countdownTick st) = hist st.
Proof.
  unfold countdownTick. break_match;
    [apply hist_resolveRateLimit | apply hist_updateRateLimitDisplay].
Qed.

Lemma hist_checkRateLimit st : hist (checkRateLimit st) = hist st.
Proof. unfold checkRateLimit. break_match; reflexivity. Qed.

Lemma hist_addRequestDelay st : hist (addRequestDelay st) = hist st.
Proof. unfold addRequestDelay. repeat break_match; reflexivity. Qed.

Lemma hist_emit_record e st : hist (emit e (recordRequest st)) = hist st.
Proof. reflexivity. Qed.

Lemma hist_detectRateLimitFromError msg st :
  hist (snd (detectRateLimitFromError msg st)) = hist st.
Proof. reflexivity. Qed.

Lemma hist_currentPricesFailed e st :
  hist (snd (currentPricesFailed e st)) = hist st.
Proof.
  unfold currentPricesFailed.
  destruct (detectRateLimitFromError (errorMessage e) st) as [limited st'] eqn:E.
  assert (hist st' = hist st) as <-
    by (change st' with (snd (limited, st')); now rewrite <- E).
  repeat break_match; try reflexivity. apply hist_startRateLimitCountdown.
Qed.

Lemma hist_getCurrentPriceForAllCurrencies resp st :
  hist (snd (getCurrentPriceForAllCurrencies resp st)) = hist st.
Proof.
  unfold getCurrentPriceForAllCurrencies.
  destruct (isCurrentPriceCacheValid st); [reflexivity|].
  set (st1 := emit _ _).
  assert (hist st1 = hist st) as Hst1.
  { subst st1.
    now rewrite hist_emit_record, hist_addRequestDelay, hist_checkRateLimit. }
  destruct resp as [e|status body].
  - now rewrite hist_currentPricesFailed.
  - destruct (negb (ok status)).
    + destruct (status =? 429).
      * cbn [snd]. now rewrite hist_startRateLimitCountdown.
      * unfold handleRateLimit. destruct (status =? 429);
          rewrite hist_currentPricesFailed; exact Hst1.
    + destruct body as [bitcoin|e]; [exact Hst1|].
      now rewrite hist_currentPricesFailed.
Qed.

Lemma keeps_refl st : keeps st st.
Proof. now intros k e. Qed.

Lemma keeps_trans st1 st2 st3 : keeps st1 st2 -> keeps st2 st3 -> keeps st1 st3.
Proof. intros H12 H23 k e Hk. auto. Qed.

Lemma keeps_eq st st' : hist st' = hist st -> keeps st st'.
Proof. intros E k e. now rewrite E. Qed.

Lemma hist_historicalPriceFailed e card st :
  hist (snd (historicalPriceFailed e card st)) = hist st.
Proof.
  unfold historicalPriceFailed.
  destruct (detectRateLimitFromError (errorMessage e) st) as [limited st'] eqn:E.
  assert (hist st' = hist st) as <-
    by (change st' with (snd (limited, st')); now rewrite <- E).
  destruct limited; [|reflexivity]. cbn [snd].
  destruct card as [card|].
  - break_match; [|rewrite hist_startRateLimitCountdown];
      apply hist_addPendingCard.
  - break_match; [reflexivity|apply hist_startRateLimitCountdown].
Qed.

Lemma keeps_getHistoricalPrice d c card resp st :
  keeps st (snd (getHistoricalPrice d c card resp st)).
Proof.
  unfold getHistoricalPrice.
  destruct (convertFirefishDateToCoinGecko d) as [cg|]; [|apply keeps_refl].
  destruct (historical (priceCache st) !! cacheKey cg c) as [entry|] eqn:Hmiss;
    [apply keeps_refl|].
  set (st1 := emit _ _).
  assert (hist st1 = hist st) as Hst1.
  { subst st1.
    now rewrite hist_emit_record, hist_addRequestDelay, hist_checkRateLimit. }
  destruct resp as [e|status body].
  - apply keeps_eq. now rewrite hist_historicalPriceFailed.
  - destruct (negb (ok status)).
    + destruct (status =? 429).
      * apply keeps_eq. cbn [snd]. rewrite hist_startRateLimitCountdown.
        destruct card; [now rewrite hist_addPendingCard | exact Hst1].
      * apply keeps_eq. unfold handleRateLimit. destruct (status =? 429);
          rewrite hist_historicalPriceFailed; exact Hst1.
    + destruct body as [[current_price|]|e].
      * intros k e Hk. cbn [snd].
        assert (k <> cacheKey cg c) as Hne.
        { intros ->. unfold hist in Hk. congruence. }
        destruct card; cbn; unfold hist; cbn;
          rewrite lookup_insert_ne by congruence;
          change (hist (addRequestDelay (checkRateLimit st)) !! k = Some e);
          rewrite hist_addRequestDelay, hist_checkRateLimit; exact Hk.
      * apply keeps_eq. now rewrite hist_historicalPriceFailed.
      * apply keeps_eq. now rewrite hist_historicalPriceFailed.
Qed.

End HistoricalFrame.

Section HistoricalRuns.
Import Timers Display RateLimit ApiClient Analyzer EventLoop.
Context `{Intl}.

Lemma fold_left_invariant {A B} (P : A -> Prop) (f : A -> B -> A) (l : list B) a :
  (forall a b, P a -> P (f a b)) -> P a -> P (List.fold_left f l a).
Proof.
  intros Hf. revert a. induction l as [|b l IH]; simpl; auto.
Qed.

Lemma hist_onCardSt f card st : hist (onCardSt f card st) = hist st.
Proof. reflexivity. Qed.

Lemma keeps_processFirefishLoanCard card rc rh st :
  keeps st (processFirefishLoanCard card rc rh st).
Proof.
  unfold processFirefishLoanCard.
  destruct (page st !! card) as [c|]; [|apply keeps_refl].
  destruct (processed c); [apply keeps_refl|].
  destruct (extracted c) as [loanData|]; [|now apply keeps_eq].
  destruct (negb (isValid loanData)); [now apply keeps_eq|].
  set (st0 := onCardSt showFirefishLoadingState card _).
  destruct (getCurrentPriceForAllCurrencies rc st0) as [currentPrices st1] eqn:E1.
  assert (keeps st st1) as K1.
  { apply keeps_eq. change st1 with (snd (currentPrices, st1)).
    rewrite <- E1. now rewrite hist_getCurrentPriceForAllCurrencies. }
  destruct currentPrices as [prices|];
    [|eapply keeps_trans; [exact K1 | now apply keeps_eq]].
  destruct (getHistoricalPrice _ _ _ rh st1) as [historicalPrice st2] eqn:E2.
  assert (keeps st st2) as K2.
  { eapply keeps_trans; [exact K1|]. change st2 with (snd (historicalPrice, st2)).
    rewrite <- E2. apply keeps_getHistoricalPrice. }
  repeat break_match; try exact K2;
    (eapply keeps_trans; [exact K2 | now apply keeps_eq]).
Qed.

Lemma hist_processQueuedCards st : hist (processQueuedCards st) = hist st.
Proof. reflexivity. Qed.

Lemma hist_processPendingCards st : hist (processPendingCards st) = hist st.
Proof.
  unfold processPendingCards.
  destruct (pendingCards (rateLimitState st)) as [|card rest] eqn:E; [reflexivity|].
  rewrite hist_processQueuedCards.
  apply (fold_left_invariant (fun s => hist s = hist st)); [|reflexivity].
  intros a b Ha. exact Ha.
Qed.

Lemma keeps_processNextCard rc rh st : keeps st (processNextCard rc rh st).
Proof.
  unfold processNextCard. destruct (worker st) as [|card rest]; [apply keeps_refl|].
  break_match; [now apply keeps_eq|].
  eapply keeps_trans; [|apply keeps_processFirefishLoanCard]. now apply keeps_eq.
Qed.

Lemma hist_rearm tm st : hist (rearm tm st) = hist st.
Proof. unfold rearm. break_match; reflexivity. Qed.

Lemma hist_fire tm st : hist (fire tm st) = hist st.
Proof.
  unfold fire, runTask. destruct (task tm).
  - now rewrite hist_countdownTick, hist_rearm.
  - now rewrite hist_resolveRateLimit, hist_rearm.
  - now rewrite hist_processPendingCards, hist_rearm.
Qed.

Lemma hist_advance fuel nf t st : hist (advance fuel nf t st) = hist st.
Proof.
  revert st. induction fuel as [|fuel IH]; intros st; simpl; [reflexivity|].
  destruct (next nf (timers st)) as [tm|]; [|reflexivity].
  destruct (due tm <=? t); [|reflexivity].
  now rewrite IH, hist_fire.
Qed.

Lemma keeps_step op st : keeps st (step op st).
Proof.
  destruct op; simpl.
  - apply keeps_eq, hist_advance.
  - apply keeps_eq, hist_getCurrentPriceForAllCurrencies.
  - apply keeps_getHistoricalPrice.
  - apply keeps_processFirefishLoanCard.
  - now apply keeps_eq.
  - now apply keeps_eq.
  - apply keeps_processNextCard.
  - break_match; [apply keeps_eq, hist_resolveRateLimit | apply keeps_refl].
  - now apply keeps_eq.
Qed.

Lemma keeps_run ops st : keeps st (run ops st).
Proof.
  revert st. induction ops as [|op ops IH]; intros st; simpl; [apply keeps_refl|].
  eapply keeps_trans; [apply keeps_step | apply IH].
Qed.

(** A lookup that finds the key answers from the cache and changes
    nothing: no request is issued. *)
Lemma getHistoricalPrice_hit d c cg entry card resp st :
  convertFirefishDateToCoinGecko d = Some cg ->
  hist st !! cacheKey cg c = Some entry ->
  getHistoricalPrice d c card resp st = (price entry, st).
Proof.
  intros Hd Hk. unfold getHistoricalPrice. rewrite Hd.
  unfold hist in Hk. now rewrite Hk.
Qed.

End HistoricalRuns.

(** An entry of the historical cache survives every run, and lookups of
    its key are answered from it. *)
Lemma cached_entry_survives_runs `{Intl}
    (st : State) (key : string) (entry : HistoricalEntry) (ops : list Op) :
  hist st !! key = Some entry ->
  hist (run ops st) !! key = Some entry /\
  forall firefishDate cur coinGeckoDate loanCard resp,
    ApiClient.convertFirefishDateToCoinGecko firefishDate = Some coinGeckoDate ->
    ApiClient.cacheKey coinGeckoDate cur = key ->
    ApiClient.getHistoricalPrice firefishDate cur loanCard resp (run ops st)
      = (price entry, run ops st).
Proof.
  intros Hk. pose proof (keeps_run ops st key entry Hk) as Hrun.
  split; [exact Hrun|].
  intros d c cg card resp Hd <-. now apply getHistoricalPrice_hit with (cg := cg).
Qed.

(** C9.  Once a value is stored under a key of the historical cache, every
    later lookup of that key returns the same value, whatever operations of
    the page and however much time lie in between: the entry stays in the
    cache unchanged, and a lookup answers from it without a request.  (The
    console command [clearBTCCache], which empties both caches by hand, is
    not an operation of the page.) *)
Theorem historical_cache_never_expires `{Intl}
    (st : State) (key : string) (entry : HistoricalEntry) (ops : list Op) :
  hist st !! key = Some entry ->
  hist (run ops st) !! key = Some entry /\
  forall firefishDate cur coinGeckoDate loanCard resp,
    ApiClient.convertFirefishDateToCoinGecko firefishDate = Some coinGeckoDate ->
    ApiClient.cacheKey coinGeckoDate cur = key ->
    ApiClient.getHistoricalPrice firefishDate cur loanCard resp (run ops st)
      = (price entry, run ops st).
Proof. apply cached_entry_survives_runs. Qed.

Lemma historical_cache_never_expires_witness :
  hist afterOneLookup !! "24-11-2024_eur"%string
    = Some {| price := JS.VNum 60000; timestamp := 1000 |} /\
  now (@run IntlEnDE.instance aYearOfOperations afterOneLookup) = 63072000000 /\
  ApiClient.getHistoricalPrice "24 Nov 2024" "EUR" None
    (Http 200 (Json (eurPrices 2)))
    (@run IntlEnDE.instance aYearOfOperations afterOneLookup)
  = (JS.VNum 60000, @run IntlEnDE.instance aYearOfOperations afterOneLookup).
Proof.
  assert (hist afterOneLookup !! "24-11-2024_eur"%string
          = Some {| price := JS.VNum 60000; timestamp := 1000 |}) as Hk
    by (vm_compute; reflexivity).
  split; [exact Hk|]. split; [vm_compute; reflexivity|].
  exact (proj2 (@historical_cache_never_expires IntlEnDE.instance
                  afterOneLookup _ _ aYearOfOperations Hk)
               "24 Nov 2024"%string "EUR"%string "24-11-2024"%string None _
               eq_refl eq_refl).
Defined.

(** C10.  When the service answers a historical request successfully but
    its price map lacks the requested currency, [undefined] is stored under
    the key, and every later call for the same date and currency returns
    [undefined] from the cache, leaving the state (and with it the list of
    requests issued) as it was. *)
Theorem missing_currency_cached_forever `{Intl}
    (st : State) (firefishDate cur coinGeckoDate : string)
    (loanCard : option Card) (status : Z) (current_price : gmap string float) :
  ApiClient.convertFirefishDateToCoinGecko firefishDate = Some coinGeckoDate ->
  hist st !! ApiClient.cacheKey coinGeckoDate cur = None ->
  ApiClient.ok status = true ->
  current_price !! ApiClient.toLowerCase cur = None ->
  let r := ApiClient.getHistoricalPrice firefishDate cur loanCard
             (Http status (Json (Some current_price))) st in
  fst r = JS.VUndefined /\
  (exists t, hist (snd r) !! ApiClient.cacheKey coinGeckoDate cur
             = Some {| price := JS.VUndefined; timestamp := t |}) /\
  forall ops loanCard' resp',
    ApiClient.getHistoricalPrice firefishDate cur loanCard' resp' (run ops (snd r))
      = (JS.VUndefined, run ops (snd r)).
Proof.
  intros Hd Hmiss Hok Hcur r.
  assert (fst r = JS.VUndefined /\
          exists t, hist (snd r) !! ApiClient.cacheKey coinGeckoDate cur
                    = Some {| price := JS.VUndefined; timestamp := t |})
    as [Hv [t Ht]].
  { subst r. unfold ApiClient.getHistoricalPrice. rewrite Hd.
    unfold hist in Hmiss. rewrite Hmiss, Hok.
    unfold ApiClient.priceOf. rewrite Hcur. cbn [negb].
    split; [reflexivity|]. eexists.
    destruct loanCard; cbn [snd]; unfold hist; cbn; apply lookup_insert_eq. }
  split; [exact Hv|]. split; [now exists t|].
  intros ops card' resp'.
  exact (proj2 (cached_entry_survives_runs (snd r) _ _ ops Ht)
               firefishDate cur coinGeckoDate card' resp' Hd eq_refl).
Qed.

Lemma missing_currency_cached_forever_witness :
  let r := ApiClient.getHistoricalPrice "24 Nov 2024" "EUR" (Some 0%nat)
             (Http 200 (Json (Some usdOnly))) (initialState 1000 ∅) in
  fst r = JS.VUndefined /\
  ApiClient.getHistoricalPrice "24 Nov 2024" "EUR" None
    (Http 200 (Json (eurPrices 60000)))
    (@run IntlEnDE.instance aYearOfOperations (snd r))
  = (JS.VUndefined, @run IntlEnDE.instance aYearOfOperations (snd r)).
Proof.
  intros r.
  destruct (@missing_currency_cached_forever IntlEnDE.instance
              (initialState 1000 ∅) "24 Nov 2024" "EUR" "24-11-2024"
              (Some 0%nat) 200 usdOnly eq_refl eq_refl eq_refl eq_refl)
    as (Hv & _ & Hlater).
  split; [exact Hv|]. apply Hlater.
Defined.

(** ** A zero historical price *)

Section PipelineFacts.
Import Timers Display RateLimit ApiClient Analyzer.
Context `{Intl}.

Lemma currentPricesFailed_null e st : fst (currentPricesFailed e st) = None.
Proof.
  unfold currentPricesFailed.
  destruct (detectRateLimitFromError (errorMessage e) st) as [[|] st']; reflexivity.
Qed.

Lemma historicalPriceFailed_null e card st :
  fst (historicalPriceFailed e card st) = JS.VNull.
Proof.
  unfold historicalPriceFailed.
  destruct (detectRateLimitFromError (errorMessage e) st) as [[|] st']; reflexivity.
Qed.

(** Current prices are obtained from the cache or from a successful
    answer; neither touches the page. *)
Lemma getCurrentPrice_some_page resp st prices st1 :
  getCurrentPriceForAllCurrencies resp st = (Some prices, st1) ->
  page st1 = page st.
Proof.
  unfold getCurrentPriceForAllCurrencies.
  destruct (isCurrentPriceCacheValid st); [now intros [= _ <-]|].
  set (st0 := emit _ _).
  assert (page st0 = page st) as Hp0.
  { subst st0. cbn. unfold addRequestDelay, checkRateLimit.
    repeat break_match; reflexivity. }
  assert (forall e s, currentPricesFailed e s <> (Some prices, st1)) as Hfail.
  { intros e s E. pose proof (currentPricesFailed_null e s) as N.
    rewrite E in N. discriminate. }
  destruct resp as [e|status body]; [intros E; now apply Hfail in E|].
  destruct (negb (ok status)).
  - destruct (status =? 429) eqn:E429; [discriminate|].
    unfold handleRateLimit. rewrite E429. intros E. now apply Hfail in E.
  - destruct body as [bitcoin|e]; [|intros E; now apply Hfail in E].
    intros [= _ <-]. exact Hp0.
Qed.

(** A number comes out of the cache or out of a successful answer;
    neither touches the page. *)
Lemma getHistoricalPrice_number_page d c card resp st f st2 :
  getHistoricalPrice d c card resp st = (JS.VNum f, st2) ->
  page st2 = page st.
Proof.
  unfold getHistoricalPrice.
  destruct (convertFirefishDateToCoinGecko d) as [cg|]; [|discriminate].
  destruct (historical (priceCache st) !! cacheKey cg c) as [entry|];
    [now intros [= _ <-]|].
  set (st0 := emit _ _).
  assert (page st0 = page st) as Hp0.
  { subst st0. cbn. unfold addRequestDelay, checkRateLimit.
    repeat break_match; reflexivity. }
  assert (forall e s, historicalPriceFailed e card s <> (JS.VNum f, st2)) as Hfail.
  { intros e s E. pose proof (historicalPriceFailed_null e card s) as N.
    rewrite E in N. discriminate. }
  destruct resp as [e|status body]; [intros E; now apply Hfail in E|].
  destruct (negb (ok status)).
  - destruct (status =? 429) eqn:E429; [discriminate|].
    unfold handleRateLimit. rewrite E429. intros E. now apply Hfail in E.
  - destruct body as [[current_price|]|e]; try (intros E; now apply Hfail in E).
    intros [= _ <-]. destruct card; exact Hp0.
Qed.

Lemma removeDisplays_no_results loading errors ws v :
  ~ In (WResults v) (removeDisplays loading true errors ws).
Proof.
  unfold removeDisplays. rewrite List.in_flat_map.
  intros (w & _ & Hin). destruct w; simpl in Hin.
  - destruct loading; simpl in Hin; intuition discriminate.
  - intuition discriminate.
  - exact Hin.
  - destruct errors; simpl in Hin; intuition discriminate.
Qed.

Lemma hasDetails_showFirefishLoadingState c :
  hasDetails (showFirefishLoadingState c) = hasDetails c.
Proof. unfold showFirefishLoadingState. break_match; reflexivity. Qed.

Lemma processed_showFirefishLoadingState c :
  processed (showFirefishLoadingState c) = processed c.
Proof. unfold showFirefishLoadingState. break_match; reflexivity. Qed.

End PipelineFacts.

(** C5.  A card with valid loan data whose historical price comes back as
    the number zero, while the coordinator is not rate limited, ends with
    the error display and without a result display: the zero is falsy, so
    the calculator is never called and no quotient by zero is formed. *)
Theorem zero_historical_price_is_failed `{Intl}
    (st : State) (card : Card) (c : CardDom) (loanData : LoanData)
    (respCurrent respHistorical : Response Prices)
    (prices : gmap string float) (st1 st2 : State) (zero : float) :
  page st !! card = Some c ->
  processed c = false -> hasDetails c = true ->
  extracted c = Some loanData -> isValid loanData = true ->
  ApiClient.getCurrentPriceForAllCurrencies respCurrent (markAndShowLoading card st)
    = (Some prices, st1) ->
  ApiClient.getHistoricalPrice (provisionDate loanData) (currency loanData)
    (Some card) respHistorical st1 = (JS.VNum zero, st2) ->
  PrimFloat.eqb zero 0 = true ->
  isRateLimited (rateLimitState st2) = false ->
  exists c' ws,
    page (Analyzer.processFirefishLoanCard card respCurrent respHistorical st) !! card
      = Some c' /\
    processed c' = true /\
    widgets c' = WError ("Failed to fetch BTC price for " ++ provisionDate loanData) :: ws /\
    forall view, ~ In (WResults view) (widgets c').
Proof.
  intros Hc Hproc Hdet Hext Hvalid Hcur Hhist Hzero Hlim.
  unfold Analyzer.processFirefishLoanCard.
  rewrite Hc, Hproc, Hext, Hvalid. cbn [negb].
  fold (markAndShowLoading card st). rewrite Hcur, Hhist.
  assert (JS.truthy (JS.VNum zero) = false) as ->
    by (unfold JS.truthy, JS.truthyNum; now rewrite Hzero).
  cbn [negb]. rewrite Hlim.
  pose proof (getCurrentPrice_some_page _ _ _ _ Hcur) as Hp1.
  pose proof (getHistoricalPrice_number_page _ _ _ _ _ _ _ Hhist) as Hp2.
  unfold Analyzer.onCardSt at 1. cbn [page set_page]. rewrite Hp2, Hp1.
  unfold markAndShowLoading, Analyzer.onCardSt, Display.onCard. cbn [page set_page].
  set (c0 := Display.showFirefishLoadingState (Display.set_processed true c)).
  assert (hasDetails c0 = true) as Hd0
    by (subst c0; now rewrite hasDetails_showFirefishLoadingState).
  assert (processed c0 = true) as Hpr0
    by (subst c0; now rewrite processed_showFirefishLoadingState).
  exists (Display.showFirefishError
            ("Failed to fetch BTC price for " ++ provisionDate loanData) c0),
         (Display.removeDisplays true true false (widgets c0)).
  split; [rewrite !lookup_alter_eq, Hc; reflexivity|].
  unfold Display.showFirefishError, Display.insertAfterDetails.
  rewrite Hd0. cbn [widgets processed Display.set_widgets].
  split; [exact Hpr0|]. split; [reflexivity|].
  intros view [E|Hin]; [discriminate|].
  now apply removeDisplays_no_results in Hin.
Qed.

Lemma zero_historical_price_is_failed_witness :
  exists c' ws,
    page (@Analyzer.processFirefishLoanCard IntlEnDE.instance 0%nat
            (Http 200 (Json (eurPrices 90000))) (Http 200 (Json (eurPrices 0)))
            (initialState 1000 onePage)) !! 0%nat = Some c' /\
    processed c' = true /\
    widgets c' = WError "Failed to fetch BTC price for 24 Nov 2024" :: ws /\
    forall view, ~ In (WResults view) (widgets c').
Proof.
  eapply (@zero_historical_price_is_failed IntlEnDE.instance
            (initialState 1000 onePage) 0%nat exampleCard exampleLoan
            (Http 200 (Json (eurPrices 90000))) (Http 200 (Json (eurPrices 0)))).
  - reflexivity.
  - reflexivity.
  - reflexivity.
  - reflexivity.
  - reflexivity.
  - vm_compute. reflexivity.
  - vm_compute. reflexivity.
  - reflexivity.
  - reflexivity.
Defined.

(** ** Pending cards and the rate-limit flag *)

Section CoordinatorFacts.
Import Timers Display RateLimit ApiClient Analyzer EventLoop.

Lemma sameCoordinator_refl st : sameCoordinator st st.
Proof. now split. Qed.

Lemma sameCoordinator_trans st1 st2 st3 :
  sameCoordinator st1 st2 -> sameCoordinator st2 st3 -> sameCoordinator st1 st3.
Proof. intros [A B] [C D]. split; congruence. Qed.

Lemma wellFormed_same st st' :
  sameCoordinator st st' -> wellFormed st -> wellFormed st'.
Proof.
  intros [Hr Ht]. unfold wellFormed, callbackRegistered. now rewrite Hr, Ht.
Qed.

Lemma invariant_same st st' :
  sameCoordinator st st' -> coordinatorInvariant st -> coordinatorInvariant st'.
Proof.
  intros Hs [Hwf Hcov]. split; [now apply (wellFormed_same st)|].
  destruct Hs as [Hr Ht]. unfold pendingCovered, drainScheduled.
  now rewrite Hr, Ht.
Qed.

Lemma setAdd_NoDup x s : List.NoDup s -> List.NoDup (setAdd x s).
Proof.
  intros Hnd. unfold setAdd. destruct (List.existsb (Nat.eqb x) s) eqn:E; [exact Hnd|].
  apply List.NoDup_app; [exact Hnd | repeat constructor; intros [] | ].
  intros y Hy [Exy|[]]. subst y.
  assert (List.existsb (Nat.eqb x) s = true) as Ht; [|congruence].
  apply List.existsb_exists. exists x. split; [exact Hy | apply Nat.eqb_refl].
Qed.

Lemma setAdd_In x s : In x (setAdd x s).
Proof.
  unfold setAdd. destruct (List.existsb (Nat.eqb x) s) eqn:E.
  - apply List.existsb_exists in E as (y & Hy & Exy).
    apply Nat.eqb_eq in Exy. now subst.
  - apply List.in_or_app. right. now left.
Qed.

Lemma setAdd_incl x y s : In y s -> In y (setAdd x s).
Proof.
  unfold setAdd. destruct (List.existsb (Nat.eqb x) s); [auto|].
  intros Hy. apply List.in_or_app. now left.
Qed.

Lemma setDelete_NoDup x s : List.NoDup s -> List.NoDup (setDelete x s).
Proof. apply List.NoDup_filter. Qed.

Lemma forallb_filter_keep {A} (q r : A -> bool) l :
  List.forallb q l = true -> List.forallb q (List.filter r l) = true.
Proof.
  induction l as [|x l IH]; simpl; [reflexivity|].
  intros Hq. apply andb_true_iff in Hq as [Hx Hl].
  destruct (r x); simpl; [rewrite Hx|]; auto.
Qed.

Lemma ticks_clearTimer id st :
  List.forallb tickIsInterval (timers st) = true ->
  List.forallb tickIsInterval (timers (clearTimer id st)) = true.
Proof. apply forallb_filter_keep. Qed.

(** Starting the countdown sets the flag and keeps callback and cards. *)
Lemma startRateLimitCountdown_coordinator st :
  isRateLimited (rateLimitState (startRateLimitCountdown st)) = true /\
  onRateLimitResolved (rateLimitState (startRateLimitCountdown st))
    = onRateLimitResolved (rateLimitState st) /\
  pendingCards (rateLimitState (startRateLimitCountdown st))
    = pendingCards (rateLimitState st).
Proof.
  unfold startRateLimitCountdown.
  destruct (countdownInterval (rateLimitState st)); repeat split; reflexivity.
Qed.

Lemma startRateLimitCountdown_ticks st :
  List.forallb tickIsInterval (timers st) = true ->
  List.forallb tickIsInterval (timers (startRateLimitCountdown st)) = true.
Proof.
  intros Hts. unfold startRateLimitCountdown.
  destruct (countdownInterval (rateLimitState st)) as [i|]; cbn;
    rewrite !List.forallb_app; cbn; rewrite ?andb_true_r;
    [now apply forallb_filter_keep | exact Hts].
Qed.

Lemma invariant_startRateLimitCountdown st :
  wellFormed st -> coordinatorInvariant (startRateLimitCountdown st).
Proof.
  intros (Hcb & Hnd & Hts).
  destruct (startRateLimitCountdown_coordinator st) as (Hl & Hc & Hp).
  unfold coordinatorInvariant, wellFormed, callbackRegistered, pendingCovered.
  rewrite Hl, Hc, Hp. repeat split; auto.
  now apply startRateLimitCountdown_ticks.
Qed.

(** Resolution clears the flag, keeps the pending cards, invokes the
    callback, and the callback hands the resubmission to a timer. *)
Lemma resolveRateLimit_coordinator st :
  callbackRegistered st ->
  isRateLimited (rateLimitState (resolveRateLimit st)) = false /\
  onRateLimitResolved (rateLimitState (resolveRateLimit st))
    = Some RestartProcessing /\
  pendingCards (rateLimitState (resolveRateLimit st))
    = pendingCards (rateLimitState st) /\
  drainScheduled (resolveRateLimit st) = true /\
  events (resolveRateLimit st) = RateLimitResolved (now st) :: events st.
Proof.
  unfold callbackRegistered, resolveRateLimit. intros Hcb.
  set (s1 := match countdownInterval (rateLimitState st) with
             | Some id => _ | None => st end).
  assert (onRateLimitResolved (rateLimitState s1) = Some RestartProcessing /\
          pendingCards (rateLimitState s1) = pendingCards (rateLimitState st) /\
          now s1 = now st /\ events s1 = events st)
    as (Hc1 & Hp1 & Hn1 & He1)
    by (subst s1; destruct (countdownInterval (rateLimitState st)); now repeat split).
  set (s2 := match retryTimeout (rateLimitState s1) with
             | Some id => _ | None => s1 end).
  assert (onRateLimitResolved (rateLimitState s2) = Some RestartProcessing /\
          pendingCards (rateLimitState s2) = pendingCards (rateLimitState st) /\
          now s2 = now st /\ events s2 = events st)
    as (Hc2 & Hp2 & Hn2 & He2)
    by (subst s2; destruct (retryTimeout (rateLimitState s1)); now repeat split).
  cbn [onRateLimitResolved rateLimitState set_page update set_rateLimitState
       set_limited].
  rewrite Hc2. unfold runCallback, setTimeout, setTimer. cbn [snd].
  repeat split; try assumption.
  - unfold drainScheduled. cbn. rewrite List.existsb_app. cbn. apply orb_true_r.
  - cbn. now rewrite Hn2, He2.
Qed.

Lemma resolveRateLimit_ticks st :
  List.forallb tickIsInterval (timers st) = true ->
  List.forallb tickIsInterval (timers (resolveRateLimit st)) = true.
Proof.
  intros Hts. unfold resolveRateLimit.
  set (s1 := match countdownInterval (rateLimitState st) with
             | Some id => _ | None => st end).
  assert (List.forallb tickIsInterval (timers s1) = true) as H1
    by (subst s1; destruct (countdownInterval (rateLimitState st));
        [now apply forallb_filter_keep | exact Hts]).
  set (s2 := match retryTimeout (rateLimitState s1) with
             | Some id => _ | None => s1 end).
  assert (List.forallb tickIsInterval (timers s2) = true) as H2
    by (subst s2; destruct (retryTimeout (rateLimitState s1));
        [now apply forallb_filter_keep | exact H1]).
  break_match; [|exact H2].
  destruct c. cbn. rewrite List.forallb_app. cbn.
  change (timers s2) with (timers s2). now rewrite H2.
Qed.

Lemma invariant_resolveRateLimit st :
  wellFormed st -> coordinatorInvariant (resolveRateLimit st).
Proof.
  intros (Hcb & Hnd & Hts).
  destruct (resolveRateLimit_coordinator st Hcb) as (Hl & Hc & Hp & Hd & _).
  unfold coordinatorInvariant, wellFormed, callbackRegistered, pendingCovered.
  rewrite Hc, Hp, Hd. repeat split; auto.
  now apply resolveRateLimit_ticks.
Qed.

Lemma sameCoordinator_updateRateLimitDisplay r st :
  sameCoordinator st (updateRateLimitDisplay r st).
Proof. now split. Qed.

Lemma invariant_countdownTick st :
  coordinatorInvariant st -> coordinatorInvariant (countdownTick st).
Proof.
  intros Hinv. unfold countdownTick. break_match.
  - apply invariant_resolveRateLimit, Hinv.
  - eapply invariant_same; [apply sameCoordinator_updateRateLimitDisplay|exact Hinv].
Qed.

End CoordinatorFacts.

Section CoordinatorRuns.
Import Timers Display RateLimit ApiClient Analyzer EventLoop.
Context `{Intl}.

Lemma sameCoordinator_requested url st :
  sameCoordinator st
    (emit (Requested url (now (recordRequest (addRequestDelay (checkRateLimit st)))))
          (recordRequest (addRequestDelay (checkRateLimit st)))).
Proof.
  unfold addRequestDelay, checkRateLimit. repeat break_match; now split.
Qed.

Lemma sameCoordinator_detect msg st :
  sameCoordinator st (snd (detectRateLimitFromError msg st)).
Proof. now split. Qed.

Lemma sameCoordinator_handleRateLimit status st :
  sameCoordinator st (fst (handleRateLimit status st)).
Proof. unfold handleRateLimit. break_match; now split. Qed.

Lemma invariant_currentPricesFailed e st :
  coordinatorInvariant st -> coordinatorInvariant (snd (currentPricesFailed e st)).
Proof.
  intros Hinv. unfold currentPricesFailed.
  destruct (detectRateLimitFromError (errorMessage e) st) as [limited st'] eqn:E.
  assert (coordinatorInvariant st') as Hinv'.
  { eapply invariant_same; [|exact Hinv]. change st' with (snd (limited, st')).
    rewrite <- E. apply sameCoordinator_detect. }
  destruct limited; [|exact Hinv']. cbn [snd].
  break_match; [exact Hinv'|]. apply invariant_startRateLimitCountdown, Hinv'.
Qed.

Lemma invariant_getCurrentPriceForAllCurrencies resp st :
  coordinatorInvariant st ->
  coordinatorInvariant (snd (getCurrentPriceForAllCurrencies resp st)).
Proof.
  intros Hinv. unfold getCurrentPriceForAllCurrencies.
  destruct (isCurrentPriceCacheValid st); [exact Hinv|].
  set (st1 := emit _ _).
  assert (coordinatorInvariant st1) as H1
    by (eapply invariant_same; [apply sameCoordinator_requested | exact Hinv]).
  destruct resp as [e|status body]; [now apply invariant_currentPricesFailed|].
  destruct (negb (ok status)).
  - destruct (status =? 429) eqn:E429.
    + apply invariant_startRateLimitCountdown, H1.
    + unfold handleRateLimit. rewrite E429. now apply invariant_currentPricesFailed.
  - destruct body as [bitcoin|e]; [|now apply invariant_currentPricesFailed].
    eapply invariant_same; [|exact H1]. now split.
Qed.

(** A card added to the waiting set, followed by the start of the
    countdown unless it is running. *)
Lemma invariant_add_then_start card st :
  wellFormed st ->
  coordinatorInvariant
    (if isRateLimited (rateLimitState (addPendingCard card st))
     then addPendingCard card st
     else startRateLimitCountdown (addPendingCard card st)).
Proof.
  intros (Hcb & Hnd & Hts).
  assert (wellFormed (addPendingCard card st)) as Hwf.
  { unfold addPendingCard. break_match; (split; [exact Hcb|]);
      (split; [apply setAdd_NoDup, Hnd | exact Hts]). }
  destruct (isRateLimited (rateLimitState (addPendingCard card st))) eqn:E.
  - split; [exact Hwf|]. right. now left.
  - now apply invariant_startRateLimitCountdown.
Qed.

Lemma wellFormed_addPendingCard card st :
  wellFormed st -> wellFormed (addPendingCard card st).
Proof.
  intros (Hcb & Hnd & Hts). unfold addPendingCard.
  break_match; (split; [exact Hcb|]);
    (split; [apply setAdd_NoDup, Hnd | exact Hts]).
Qed.

Lemma invariant_historicalPriceFailed e card st :
  coordinatorInvariant st ->
  coordinatorInvariant (snd (historicalPriceFailed e card st)).
Proof.
  intros Hinv. unfold historicalPriceFailed.
  destruct (detectRateLimitFromError (errorMessage e) st) as [limited st'] eqn:E.
  assert (coordinatorInvariant st') as Hinv'.
  { eapply invariant_same; [|exact Hinv]. change st' with (snd (limited, st')).
    rewrite <- E. apply sameCoordinator_detect. }
  destruct limited; [|exact Hinv']. cbn [snd].
  destruct card as [card|].
  - apply invariant_add_then_start, Hinv'.
  - break_match; [exact Hinv'|]. apply invariant_startRateLimitCountdown, Hinv'.
Qed.

Lemma setDelete_nil x s : s = [] -> setDelete x s = [].
Proof. now intros ->. Qed.

Lemma invariant_removePendingCard card st :
  coordinatorInvariant st -> coordinatorInvariant (removePendingCard card st).
Proof.
  intros ((Hcb & Hnd & Hts) & Hcov).
  split; [split; [exact Hcb | split; [apply setDelete_NoDup, Hnd | exact Hts]]|].
  destruct Hcov as [Hnil | [Hlim | Hdrain]].
  - left. cbn. now rewrite Hnil.
  - right. now left.
  - right. now right.
Qed.

Lemma invariant_getHistoricalPrice d c card resp st :
  coordinatorInvariant st ->
  coordinatorInvariant (snd (getHistoricalPrice d c card resp st)).
Proof.
  intros Hinv. unfold getHistoricalPrice.
  destruct (convertFirefishDateToCoinGecko d) as [cg|]; [|exact Hinv].
  destruct (historical (priceCache st) !! cacheKey cg c) as [entry|]; [exact Hinv|].
  set (st1 := emit _ _).
  assert (coordinatorInvariant st1) as H1
    by (eapply invariant_same; [apply sameCoordinator_requested | exact Hinv]).
  destruct resp as [e|status body]; [now apply invariant_historicalPriceFailed|].
  destruct (negb (ok status)).
  - destruct (status =? 429) eqn:E429.
    + cbn [snd]. apply invariant_startRateLimitCountdown.
      destruct card; [apply wellFormed_addPendingCard|]; apply H1.
    + unfold handleRateLimit. rewrite E429.
      now apply invariant_historicalPriceFailed.
  - destruct body as [[current_price|]|e];
      try now apply invariant_historicalPriceFailed.
    cbn [snd]. set (st2 := set_priceCache _ st1).
    assert (coordinatorInvariant st2) as H2
      by (eapply invariant_same; [|exact H1]; now split).
    destruct card; [now apply invariant_removePendingCard | exact H2].
Qed.

Lemma sameCoordinator_onCardSt f card st : sameCoordinator st (onCardSt f card st).
Proof. now split. Qed.

Lemma invariant_processFirefishLoanCard card rc rh st :
  coordinatorInvariant st ->
  coordinatorInvariant (processFirefishLoanCard card rc rh st).
Proof.
  intros Hinv. unfold processFirefishLoanCard.
  destruct (page st !! card) as [c|]; [|exact Hinv].
  destruct (processed c); [exact Hinv|].
  set (st0 := onCardSt showFirefishLoadingState card _).
  assert (coordinatorInvariant st0) as H0
    by (eapply invariant_same; [|exact Hinv]; now split).
  assert (forall f s, coordinatorInvariant s -> coordinatorInvariant (onCardSt f card s))
    as Hon by (intros f s Hs; eapply invariant_same; [|exact Hs]; now split).
  destruct (extracted c) as [loanData|]; [|now apply Hon].
  destruct (negb (isValid loanData)); [now apply Hon|].
  destruct (getCurrentPriceForAllCurrencies rc st0) as [currentPrices st1] eqn:E1.
  assert (coordinatorInvariant st1) as H1.
  { change st1 with (snd (currentPrices, st1)). rewrite <- E1.
    now apply invariant_getCurrentPriceForAllCurrencies. }
  destruct currentPrices as [prices|]; [|now apply Hon].
  destruct (getHistoricalPrice _ _ _ rh st1) as [historicalPrice st2] eqn:E2.
  assert (coordinatorInvariant st2) as H2.
  { change st2 with (snd (historicalPrice, st2)). rewrite <- E2.
    now apply invariant_getHistoricalPrice. }
  repeat break_match; try exact H2; now apply Hon.
Qed.

Lemma invariant_processNextCard rc rh st :
  coordinatorInvariant st -> coordinatorInvariant (processNextCard rc rh st).
Proof.
  intros Hinv. unfold processNextCard.
  destruct (worker st) as [|card rest]; [exact Hinv|].
  destruct (isRateLimited (rateLimitState (set_queues (processingQueue st) rest st)))
    eqn:E.
  - destruct Hinv as ((Hcb & Hnd & Hts) & _).
    split; [split; [exact Hcb | split; [apply setAdd_NoDup, Hnd | exact Hts]]|].
    right. left. exact E.
  - apply invariant_processFirefishLoanCard.
    eapply invariant_same; [|exact Hinv]. now split.
Qed.

(** The resubmission loop of [processPendingCards] leaves coordinator,
    timers and clock alone. *)
Lemma resubmit_frame pending st :
  let st' := List.fold_left resubmit pending st in
  sameCoordinator st st' /\ now st' = now st /\ worker st' = worker st.
Proof.
  cbv zeta.
  apply (fold_left_invariant
           (fun s => sameCoordinator st s /\ now s = now st /\ worker s = worker st)).
  - intros a b (Hs & Hn & Hw). repeat split; try apply Hs; assumption.
  - repeat split.
Qed.

Lemma sameCoordinator_processQueuedCards st :
  sameCoordinator st (processQueuedCards st).
Proof. now split. Qed.

Lemma processPendingCards_coordinator st :
  pendingCards (rateLimitState (processPendingCards st)) = [] /\
  onRateLimitResolved (rateLimitState (processPendingCards st))
    = onRateLimitResolved (rateLimitState st) /\
  isRateLimited (rateLimitState (processPendingCards st))
    = isRateLimited (rateLimitState st) /\
  timers (processPendingCards st) = timers st.
Proof.
  unfold processPendingCards.
  destruct (pendingCards (rateLimitState st)) as [|card rest] eqn:E;
    [now rewrite E|].
  set (st0 := update (set_pendingCards []) st).
  destruct (resubmit_frame (card :: rest) st0) as ([Hr Ht] & _ & _).
  match goal with
  | |- context [processQueuedCards ?s] =>
      destruct (sameCoordinator_processQueuedCards s) as [Hr2 Ht2]
  end.
  rewrite Hr2, Ht2, Hr, Ht. now repeat split.
Qed.

Lemma invariant_processPendingCards st :
  wellFormed st -> coordinatorInvariant (processPendingCards st).
Proof.
  intros (Hcb & Hnd & Hts).
  destruct (processPendingCards_coordinator st) as (Hp & Hc & Hl & Ht).
  unfold coordinatorInvariant, wellFormed, callbackRegistered, pendingCovered.
  rewrite Hp, Hc, Ht. repeat split; auto. constructor.
Qed.

Lemma next_In nf ts tm : next nf ts = Some tm -> In tm ts.
Proof.
  revert tm. induction ts as [|x ts IH]; intros tm; simpl; [discriminate|].
  destruct (next nf ts) as [best|].
  - destruct (before nf best x); intros [= <-]; auto.
  - intros [= <-]. now left.
Qed.

(** Re-arming an interval keeps every timer's task. *)
Lemma rearm_interval tm p st :
  period tm = Some p ->
  rateLimitState (rearm tm st) = rateLimitState st /\
  drainScheduled (rearm tm st) = drainScheduled st /\
  List.forallb tickIsInterval (timers (rearm tm st))
    = List.forallb tickIsInterval (timers st).
Proof.
  intros Hp. unfold rearm. rewrite Hp. split; [reflexivity|].
  unfold drainScheduled. cbn [timers set_timers].
  split.
  - induction (timers st) as [|x ts IH]; [reflexivity|]. cbn [List.map List.existsb].
    rewrite IH. f_equal. destruct (Nat.eqb (timerId x) (timerId tm)); reflexivity.
  - induction (timers st) as [|x ts IH]; [reflexivity|]. cbn [List.map List.forallb].
    rewrite IH. f_equal. destruct (Nat.eqb (timerId x) (timerId tm)); reflexivity.
Qed.

Lemma wellFormed_rearm tm st : wellFormed st -> wellFormed (rearm tm st).
Proof.
  intros (Hcb & Hnd & Hts). destruct (period tm) as [p|] eqn:Hp.
  - destruct (rearm_interval tm p st Hp) as (Hr & _ & Ht).
    unfold wellFormed, callbackRegistered. now rewrite Hr, Ht.
  - unfold rearm. rewrite Hp. repeat split; try assumption.
    now apply ticks_clearTimer.
Qed.

Lemma wellFormed_set_now v st : wellFormed st -> wellFormed (set_now v st).
Proof. now intros Hwf. Qed.

Lemma invariant_fire tm st :
  In tm (timers st) -> coordinatorInvariant st -> coordinatorInvariant (fire tm st).
Proof.
  intros Hin [Hwf Hcov]. unfold fire, runTask.
  set (st0 := set_now (Z.max (now st) (due tm)) st).
  assert (wellFormed (rearm tm st0)) as Hwf'
    by (apply wellFormed_rearm, wellFormed_set_now, Hwf).
  destruct (task tm) eqn:Etask.
  - apply invariant_countdownTick. split; [exact Hwf'|].
    destruct Hwf as (_ & _ & Hts).
    assert (tickIsInterval tm = true) as Htm
      by (rewrite List.forallb_forall in Hts; now apply Hts).
    unfold tickIsInterval in Htm. rewrite Etask in Htm.
    destruct (period tm) as [p|] eqn:Hp; [|discriminate].
    destruct (rearm_interval tm p st0 Hp) as (Hr & Hd & _).
    unfold pendingCovered. rewrite Hr, Hd. exact Hcov.
  - now apply invariant_resolveRateLimit.
  - now apply invariant_processPendingCards.
Qed.

Lemma invariant_advance fuel nf t st :
  coordinatorInvariant st -> coordinatorInvariant (advance fuel nf t st).
Proof.
  revert st. induction fuel as [|fuel IH]; intros st Hinv; simpl; [exact Hinv|].
  destruct (next nf (timers st)) as [tm|] eqn:En;
    [|eapply invariant_same; [|exact Hinv]; now split].
  destruct (due tm <=? t); [|eapply invariant_same; [|exact Hinv]; now split].
  apply IH, invariant_fire; [now apply next_In in En | exact Hinv].
Qed.

Lemma invariant_step op st :
  coordinatorInvariant st -> coordinatorInvariant (step op st).
Proof.
  intros Hinv. destruct op; simpl.
  - now apply invariant_advance.
  - now apply invariant_getCurrentPriceForAllCurrencies.
  - now apply invariant_getHistoricalPrice.
  - now apply invariant_processFirefishLoanCard.
  - eapply invariant_same; [|exact Hinv]; now split.
  - eapply invariant_same; [|exact Hinv]; now split.
  - now apply invariant_processNextCard.
  - break_match; [apply invariant_resolveRateLimit, Hinv | exact Hinv].
  - destruct Hinv as ((Hcb & Hnd & Hts) & Hcov). now repeat split.
Qed.

Lemma invariant_run ops st :
  coordinatorInvariant st -> coordinatorInvariant (run ops st).
Proof.
  revert st. induction ops as [|op ops IH]; intros st Hinv; simpl; [exact Hinv|].
  apply IH, invariant_step, Hinv.
Qed.

Lemma invariant_booted t0 p : coordinatorInvariant (booted t0 p).
Proof. repeat split; [constructor | now left]. Qed.

(** The resubmission loop announces every waiting card once, in order, and
    puts it into the processing queue. *)
Lemma resubmit_events pending st :
  let st' := List.fold_left resubmit pending st in
  events st' = List.rev (List.map (fun card => Resubmitted card (now st)) pending)
               ++ events st /\
  (forall card, In card pending \/ In card (processingQueue st) ->
                In card (processingQueue st')).
Proof.
  cbv zeta. revert st. induction pending as [|card rest IH]; intros st.
  - split; [reflexivity|]. now intros card [[]|Hq].
  - cbn [List.fold_left]. set (st1 := resubmit st card).
    destruct (IH st1) as [He Hq]. split.
    + rewrite He. cbn [List.map List.rev]. rewrite <- List.app_assoc. reflexivity.
    + intros x Hx. apply Hq. subst st1. cbn.
      destruct Hx as [[<-|Hr]|Hx].
      * right. apply setAdd_In.
      * left. exact Hr.
      * right. now apply setAdd_incl.
Qed.

End CoordinatorRuns.

(** C8, as stated, fails: right after the cooldown has expired the flag is
    cleared while the throttled card is still in [pendingCards]. *)
Lemma pending_outlives_rate_limit_flag :
  pendingCards (rateLimitState resolvedButPending) = [0%nat] /\
  isRateLimited (rateLimitState resolvedButPending) = false /\
  now resolvedButPending = 61000.
Proof. vm_compute. repeat split. Qed.

Section PendingFacts.
Import Analyzer.

Lemma processPendingCards_resubmits st :
  events (processPendingCards st)
    = List.rev (List.map (fun card => Resubmitted card (now st))
                         (pendingCards (rateLimitState st)))
      ++ events st /\
  List.incl (pendingCards (rateLimitState st)) (worker (processPendingCards st)).
Proof.
  unfold processPendingCards.
  destruct (pendingCards (rateLimitState st)) as [|card rest] eqn:E.
  - split; [reflexivity | intros x []].
  - set (st0 := RateLimit.update (RateLimit.set_pendingCards []) st).
    destruct (resubmit_events (card :: rest) st0) as [He Hq].
    split.
    + unfold processQueuedCards. cbn [events set_page set_queues].
      exact He.
    + intros x Hx. unfold processQueuedCards. cbn [worker set_page set_queues].
      apply List.in_or_app. right. apply Hq. now left.
Qed.

End PendingFacts.

(** C8, amended.  In every state the page reaches once the callback is
    registered, cards wait in [pendingCards] only while the flag is set or
    while a run of [processPendingCards] is scheduled, and they form a set.
    [resolveRateLimit] clears the flag, keeps the waiting cards, invokes the
    callback once, and the callback schedules that run; the run empties
    [pendingCards], announces every waiting card once and hands all of them
    to the processing loop. *)
Theorem pending_cards_covered `{Intl}
    (t0 : Z) (p : gmap nat CardDom) (ops : list Op) :
  let st := run ops (booted t0 p) in
  pendingCovered st /\
  List.NoDup (pendingCards (rateLimitState st)) /\
  (let st' := RateLimit.resolveRateLimit st in
   isRateLimited (rateLimitState st') = false /\
   pendingCards (rateLimitState st') = pendingCards (rateLimitState st) /\
   drainScheduled st' = true /\
   events st' = RateLimitResolved (now st) :: events st) /\
  (let st' := Analyzer.processPendingCards st in
   pendingCards (rateLimitState st') = [] /\
   events st' = List.rev (List.map (fun card => Resubmitted card (now st))
                                   (pendingCards (rateLimitState st)))
                ++ events st /\
   List.incl (pendingCards (rateLimitState st)) (worker st')).
Proof.
  intros st.
  destruct (invariant_run ops (booted t0 p) (invariant_booted t0 p))
    as ((Hcb & Hnd & Hts) & Hcov).
  fold st in Hcb, Hnd, Hts, Hcov.
  split; [exact Hcov|]. split; [exact Hnd|]. split.
  - destruct (resolveRateLimit_coordinator st Hcb) as (Hl & _ & Hp & Hd & He).
    now repeat split.
  - destruct (processPendingCards_coordinator st) as (Hp & _).
    destruct (processPendingCards_resubmits st) as (He & Hw).
    now repeat split.
Qed.

(** ** A second throttle during the cooldown *)

Section TimerRuns.
Import Timers Display RateLimit ApiClient Analyzer EventLoop.

Lemma resolvedAt_resolutions st : resolvedAt st = List.rev (resolutions (events st)).
Proof. reflexivity. Qed.

Lemma advance_S fuel nf t st :
  advance (S fuel) nf t st =
    match next nf (timers st) with
    | Some tm => if due tm <=? t then advance fuel nf t (fire tm st)
                 else set_now (Z.max (now st) t) st
    | None => set_now (Z.max (now st) t) st
    end.
Proof. reflexivity. Qed.

(** A countdown tick before the cooldown is over only moves the clock,
    re-arms the interval and updates the displays. *)
Lemma fire_tick tm st limitedAt :
  task tm = CountdownTick -> period tm = Some 1000 ->
  rateLimitedAt (rateLimitState st) = Some limitedAt ->
  Z.max (now st) (due tm) - limitedAt < BTC_CACHE_CONFIG.RATE_LIMIT_COOLDOWN ->
  timers (fire tm st) = bumped (timerId tm) 1000 (timers st) /\
  rateLimitState (fire tm st) = rateLimitState st /\
  now (fire tm st) = Z.max (now st) (due tm) /\
  events (fire tm st) = events st /\
  nextTimerId (fire tm st) = nextTimerId st /\
  priceCache (fire tm st) = priceCache st /\
  lastRequest (fire tm st) = lastRequest st.
Proof.
  intros Htask Hper Hat Hlt. unfold fire, runTask. rewrite Htask.
  unfold rearm. rewrite Hper. unfold countdownTick.
  cbn [now rateLimitState set_timers set_now]. rewrite Hat. cbn [default from_option id].
  assert ((Z.max 0 (BTC_CACHE_CONFIG.RATE_LIMIT_COOLDOWN
                     - (Z.max (now st) (due tm) - limitedAt)) <=? 0) = false) as ->
    by (apply Z.leb_gt; lia).
  repeat split.
Qed.

(** The cooldown timeout resolves the rate limit: the timers of the
    coordinator are cleared, the callback runs and schedules the
    resubmission. *)
Lemma fire_resolve tm st interval timeout :
  task tm = RetryResolve -> period tm = None ->
  countdownInterval (rateLimitState st) = Some interval ->
  retryTimeout (rateLimitState st) = Some timeout ->
  onRateLimitResolved (rateLimitState st) = Some RestartProcessing ->
  let at_ := Z.max (now st) (due tm) in
  timers (fire tm st)
    = without timeout (without interval (without (timerId tm) (timers st)))
      ++ [{| timerId := nextTimerId st; due := at_ + 1000; period := None;
             task := ProcessPending |}] /\
  isRateLimited (rateLimitState (fire tm st)) = false /\
  now (fire tm st) = at_ /\
  events (fire tm st) = RateLimitResolved at_ :: events st.
Proof.
  intros Htask Hper Hint Hto Hcb at_. unfold fire, runTask. rewrite Htask.
  unfold rearm. rewrite Hper. unfold resolveRateLimit, clearTimer.
  cbn [now rateLimitState set_timers set_now timers nextTimerId].
  rewrite Hint.
  cbn [now rateLimitState set_timers set_now timers nextTimerId update
       set_rateLimitState set_countdownInterval retryTimeout].
  rewrite Hto.
  cbn [now rateLimitState set_timers set_now timers nextTimerId update
       set_rateLimitState set_countdownInterval retryTimeout set_retryTimeout
       set_limited set_page onRateLimitResolved].
  rewrite Hcb. repeat split.
Qed.

(** The scheduled resubmission records no resolution, sets no timer and
    leaves the flag alone. *)
Lemma fire_drain tm st :
  task tm = ProcessPending -> period tm = None ->
  timers (fire tm st) = without (timerId tm) (timers st) /\
  isRateLimited (rateLimitState (fire tm st)) = isRateLimited (rateLimitState st) /\
  resolutions (events (fire tm st)) = resolutions (events st).
Proof.
  intros Htask Hper. unfold fire, runTask. rewrite Htask.
  unfold rearm. rewrite Hper.
  set (st0 := clearTimer _ _).
  destruct (processPendingCards_coordinator st0) as (_ & _ & Hl & Ht).
  destruct (processPendingCards_resubmits st0) as (He & _).
  split; [rewrite Ht; reflexivity|]. split; [rewrite Hl; reflexivity|].
  rewrite He. unfold resolutions. rewrite List.flat_map_app.
  assert (forall l, List.flat_map
            (fun e => match e with RateLimitResolved t => [t] | _ => [] end)
            (List.rev (List.map (fun card => Resubmitted card (now st0)) l)) = []) as ->.
  { induction l as [|c l IH]; [reflexivity|]. cbn [List.map List.rev].
    rewrite List.flat_map_app, IH. reflexivity. }
  reflexivity.
Qed.

Ltac order_cases :=
  repeat (match goal with
          | |- context [Z.ltb ?a ?b] => destruct (Z.ltb_spec a b)
          | |- context [Z.eqb ?a ?b] => destruct (Z.eqb_spec a b)
          end; cbn);
  try reflexivity; try (exfalso; lia).

Lemma next_rearmed nf D1 d D2 :
  D1 < D2 ->
  next nf [resolveTimer 2 D1; tickTimer 3 d; resolveTimer 4 D2]
  = Some (if (d <? D1) || ((d =? D1) && nf) then tickTimer 3 d
          else resolveTimer 2 D1).
Proof.
  intros Hlt. cbn [next]. unfold before. cbn.
  destruct nf; order_cases.
Qed.

Lemma next_counting nf d D1 :
  next nf [tickTimer 1 d; resolveTimer 2 D1]
  = Some (if (d <? D1) || ((d =? D1) && negb nf) then tickTimer 1 d
          else resolveTimer 2 D1).
Proof.
  cbn [next]. unfold before. cbn.
  destruct nf; order_cases.
Qed.

(** From the second throttle on: ticks until the first timeout is due,
    then the resolution, at the first deadline. *)
Lemma rearmed_resolves nf first second t k :
  first < second -> first + 60000 <= t ->
  forall fuel d st,
    rearmed first second d st ->
    first + 60000 - d < 1000 * Z.of_nat k ->
    (k + 3 <= fuel)%nat ->
    resolutions (events (advance fuel nf t st))
      = first + 60000 :: resolutions (events st) /\
    isRateLimited (rateLimitState (advance fuel nf t st)) = false.
Proof.
  intros Hfs Ht.
  assert (forall fuel d st,
             rearmed first second d st ->
             (d <? first + 60000) || ((d =? first + 60000) && nf) = false ->
             (3 <= fuel)%nat ->
             resolutions (events (advance fuel nf t st))
               = first + 60000 :: resolutions (events st) /\
             isRateLimited (rateLimitState (advance fuel nf t st)) = false)
    as Hresolve.
  { intros fuel d st (Hts & Hnext & Hat & Hint & Hto & Hcb & Hnd & Hn1) Hsel Hfuel.
    destruct fuel as [|fuel]; [lia|]. rewrite advance_S, Hts.
    rewrite next_rearmed by lia. rewrite Hsel.
    cbn [due resolveTimer].
    assert ((first + 60000 <=? t) = true) as -> by (apply Z.leb_le; lia).
    destruct (fire_resolve (resolveTimer 2 (first + 60000)) st 3 4
                eq_refl eq_refl Hint Hto Hcb) as (Hts1 & Hl1 & Hn1' & He1).
    set (st1 := fire _ st) in *. clearbody st1.
    cbn [due resolveTimer] in Hts1, Hn1', He1.
    rewrite Z.max_r in Hts1, Hn1', He1 by lia.
    rewrite Hts, Hnext in Hts1. cbn in Hts1.
    destruct fuel as [|fuel]; [lia|]. rewrite advance_S, Hts1. cbn [next due].
    destruct (first + 60000 + 1000 <=? t).
    - destruct (fire_drain {| timerId := 5; due := first + 60000 + 1000;
                              period := None; task := ProcessPending |} st1
                  eq_refl eq_refl) as (Hts2 & Hl2 & He2).
      set (st2 := fire _ st1) in *. clearbody st2.
      rewrite Hts1 in Hts2. cbn in Hts2.
      destruct fuel as [|fuel]; [lia|]. rewrite advance_S, Hts2.
      cbn [next events rateLimitState set_now].
      rewrite He2, He1. cbn. split; [reflexivity|]. congruence.
    - cbn [events rateLimitState set_now].
      rewrite He1. split; [reflexivity | exact Hl1]. }
  induction k as [|k IH]; intros fuel d st Hre Hk Hfuel.
  - apply (Hresolve fuel d st Hre); [|lia].
    apply orb_false_iff. split; [apply Z.ltb_ge; lia|].
    apply andb_false_iff. left. apply Z.eqb_neq. lia.
  - destruct ((d <? first + 60000) || ((d =? first + 60000) && nf)) eqn:Hsel;
      [|apply (Hresolve fuel d st Hre Hsel); lia].
    assert (d <= first + 60000) as Hd.
    { apply orb_true_iff in Hsel as [H|H]; [apply Z.ltb_lt in H; lia|].
      apply andb_true_iff in H as [H _]. apply Z.eqb_eq in H. lia. }
    destruct Hre as (Hts & Hnext & Hat & Hint & Hto & Hcb & Hnd & Hn1).
    destruct fuel as [|fuel]; [lia|]. rewrite advance_S, Hts.
    rewrite next_rearmed by lia. rewrite Hsel. cbn [due tickTimer].
    assert ((d <=? t) = true) as -> by (apply Z.leb_le; lia).
    destruct (fire_tick (tickTimer 3 d) st second eq_refl eq_refl Hat)
      as (Hts1 & Hr1 & Hn1' & He1 & Hid1 & _).
    { cbn [due tickTimer]. unfold BTC_CACHE_CONFIG.RATE_LIMIT_COOLDOWN. lia. }
    set (st1 := fire _ st) in *. clearbody st1.
    cbn [due tickTimer] in Hn1'. rewrite Z.max_r in Hn1' by lia.
    rewrite Hts in Hts1. cbn in Hts1.
    destruct (IH fuel (d + 1000) st1) as [Hres Hlim].
    + unfold rearmed. rewrite Hts1, Hr1, Hid1, Hn1'.
      repeat split; try assumption; lia.
    + lia.
    + lia.
    + rewrite Hres, He1. split; [reflexivity | exact Hlim].
Qed.

(** During the first cooldown the ticks change neither the coordinator
    nor the record of resolutions. *)
Lemma counting_advance nf first t k :
  t < first + 60000 ->
  forall fuel d st,
    counting first d st ->
    t - d < 1000 * Z.of_nat k ->
    (k + 1 <= fuel)%nat ->
    exists d',
      counting first d' (advance fuel nf t st) /\
      now (advance fuel nf t st) = Z.max (now st) t /\
      events (advance fuel nf t st) = events st /\
      priceCache (advance fuel nf t st) = priceCache st /\
      lastRequest (advance fuel nf t st) = lastRequest st.
Proof.
  intros Ht.
  assert (forall fuel d st,
             counting first d st -> t < d -> (1 <= fuel)%nat ->
             exists d',
               counting first d' (advance fuel nf t st) /\
               now (advance fuel nf t st) = Z.max (now st) t /\
               events (advance fuel nf t st) = events st /\
               priceCache (advance fuel nf t st) = priceCache st /\
               lastRequest (advance fuel nf t st) = lastRequest st) as Hstop.
  { intros fuel d st Hc Hd Hfuel. pose proof Hc as (Hts & Hnext & Hat & Hint & Hto & Hcb & Hnd).
    destruct fuel as [|fuel]; [lia|]. rewrite advance_S, Hts, next_counting.
    cbv beta iota.
    assert ((due (if (d <? first + 60000) || ((d =? first + 60000) && negb nf)
                  then tickTimer 1 d else resolveTimer 2 (first + 60000)) <=? t) = false)
      as ->.
    { apply Z.leb_gt. destruct ((d <? first + 60000) || _); cbn; lia. }
    exists d. unfold counting. cbn [now set_now timers nextTimerId rateLimitState
                                     events priceCache lastRequest].
    repeat split; try assumption; lia. }
  induction k as [|k IH]; intros fuel d st Hc Hk Hfuel.
  - apply (Hstop fuel d st Hc); lia.
  - destruct (Z.leb_spec d t) as [Hd|Hd]; [|apply (Hstop fuel d st Hc); lia].
    pose proof Hc as (Hts & Hnext & Hat & Hint & Hto & Hcb & Hnd).
    destruct fuel as [|fuel]; [lia|]. rewrite advance_S, Hts, next_counting.
    assert ((d <? first + 60000) = true) as -> by (apply Z.ltb_lt; lia).
    cbn [orb due tickTimer].
    assert ((d <=? t) = true) as -> by (apply Z.leb_le; lia).
    destruct (fire_tick (tickTimer 1 d) st first eq_refl eq_refl Hat)
      as (Hts1 & Hr1 & Hn1 & He1 & Hid1 & Hp1 & Hl1).
    { cbn [due tickTimer]. unfold BTC_CACHE_CONFIG.RATE_LIMIT_COOLDOWN. lia. }
    set (st1 := fire _ st) in *. clearbody st1.
    cbn [due tickTimer] in Hn1. rewrite Z.max_r in Hn1 by lia.
    rewrite Hts in Hts1. cbn in Hts1.
    destruct (IH fuel (d + 1000) st1) as (d' & Hc' & Hn' & He' & Hp' & Hl').
    + unfold counting. rewrite Hts1, Hr1, Hid1, Hn1.
      repeat split; try assumption; lia.
    + lia.
    + lia.
    + exists d'. rewrite Hn', He', Hp', Hl', Hn1, He1, Hp1, Hl1.
      split; [exact Hc'|]. repeat split. lia.
Qed.

Lemma addRequestDelay_frame st :
  timers (addRequestDelay st) = timers st /\
  nextTimerId (addRequestDelay st) = nextTimerId st /\
  rateLimitState (addRequestDelay st) = rateLimitState st /\
  events (addRequestDelay st) = events st /\
  priceCache (addRequestDelay st) = priceCache st.
Proof.
  unfold addRequestDelay.
  destruct (lastRequest st =? 0); [now repeat split|].
  cbv zeta. destruct (now st - lastRequest st <? 50); now repeat split.
Qed.

Lemma addRequestDelay_now st :
  lastRequest st <= now st ->
  now (addRequestDelay st)
  = if lastRequest st =? 0 then now st else Z.max (now st) (lastRequest st + 50).
Proof.
  intros Hle. unfold addRequestDelay.
  destruct (lastRequest st =? 0); [reflexivity|].
  cbv zeta. destruct (Z.ltb_spec (now st - lastRequest st) 50); cbn [now set_now]; lia.
Qed.

Lemma addPendingCard_frame card st :
  timers (addPendingCard card st) = timers st /\
  nextTimerId (addPendingCard card st) = nextTimerId st /\
  countdownInterval (rateLimitState (addPendingCard card st))
    = countdownInterval (rateLimitState st) /\
  onRateLimitResolved (rateLimitState (addPendingCard card st))
    = onRateLimitResolved (rateLimitState st) /\
  events (addPendingCard card st) = events st /\
  priceCache (addPendingCard card st) = priceCache st /\
  now (addPendingCard card st) = now st /\
  lastRequest (addPendingCard card st) = lastRequest st.
Proof.
  unfold addPendingCard. cbv zeta.
  destruct (isRateLimited _); now repeat split.
Qed.

(** [startRateLimitCountdown()] removes the interval it knows of and adds
    a new interval and a new timeout; a timeout that is already pending
    stays in the table. *)
Lemma startRateLimitCountdown_timers st :
  let st' := startRateLimitCountdown st in
  timers st'
    = match countdownInterval (rateLimitState st) with
      | Some id => without id (timers st)
      | None => timers st
      end ++ [tickTimer (nextTimerId st) (now st + 1000);
              resolveTimer (S (nextTimerId st)) (now st + 60000)] /\
  nextTimerId st' = S (S (nextTimerId st)) /\
  isRateLimited (rateLimitState st') = true /\
  rateLimitedAt (rateLimitState st') = Some (now st) /\
  countdownInterval (rateLimitState st') = Some (nextTimerId st) /\
  retryTimeout (rateLimitState st') = Some (S (nextTimerId st)) /\
  onRateLimitResolved (rateLimitState st') = onRateLimitResolved (rateLimitState st) /\
  now st' = now st /\
  events st' = events st /\
  priceCache st' = priceCache st /\
  lastRequest st' = lastRequest st.
Proof.
  unfold startRateLimitCountdown.
  destruct (countdownInterval (rateLimitState st)) as [id|];
    cbn; rewrite <- ?app_assoc; now repeat split.
Qed.

(** A lookup answered with status 429: what [startRateLimitCountdown]
    leaves in the timer table and in the coordinator. *)
Lemma getHistoricalPrice_429 d c cg card st :
  convertFirefishDateToCoinGecko d = Some cg ->
  historical (priceCache st) !! cacheKey cg c = None ->
  apiBlocked (priceCache st) = false ->
  let at_ := now (addRequestDelay st) in
  let st' := snd (getHistoricalPrice d c (Some card) tooManyRequests st) in
  timers st'
    = match countdownInterval (rateLimitState st) with
      | Some id => without id (timers st)
      | None => timers st
      end ++ [tickTimer (nextTimerId st) (at_ + 1000);
              resolveTimer (S (nextTimerId st)) (at_ + 60000)] /\
  nextTimerId st' = S (S (nextTimerId st)) /\
  isRateLimited (rateLimitState st') = true /\
  rateLimitedAt (rateLimitState st') = Some at_ /\
  countdownInterval (rateLimitState st') = Some (nextTimerId st) /\
  retryTimeout (rateLimitState st') = Some (S (nextTimerId st)) /\
  onRateLimitResolved (rateLimitState st') = onRateLimitResolved (rateLimitState st) /\
  now st' = at_ /\
  resolutions (events st') = resolutions (events st) /\
  priceCache st' = priceCache st /\
  lastRequest st' = at_.
Proof.
  intros Hcg Hhist Hblocked at_ st'. subst st' at_.
  unfold getHistoricalPrice. rewrite Hcg. cbv zeta. rewrite Hhist.
  unfold checkRateLimit. rewrite Hblocked. cbn [andb].
  destruct (addRequestDelay_frame st) as (Hts & Hid & Hrl & Hev & Hpc).
  set (s1 := addRequestDelay st) in *. clearbody s1.
  unfold tooManyRequests.
  cbn [ok negb andb Z.leb Z.eqb Z.compare Pos.compare Pos.compare_cont snd].
  change ((429 =? 429)%positive) with true. cbn [snd].
  set (s2 := emit _ (recordRequest s1)).
  destruct (addPendingCard_frame card s2) as (Ht3 & Hi3 & Hc3 & Hcb3 & He3 & Hp3 & Hn3 & Hl3).
  set (s3 := addPendingCard card s2) in *. clearbody s3.
  destruct (startRateLimitCountdown_timers s3)
    as (Ht4 & Hi4 & Hlim4 & Hat4 & Hc4 & Hto4 & Hcb4 & Hn4 & He4 & Hp4 & Hl4).
  set (s4 := startRateLimitCountdown s3) in *. clearbody s4.
  subst s2. cbn [emit recordRequest set_requests timers nextTimerId rateLimitState
                 events priceCache now lastRequest] in *.
  rewrite Ht4, Hi4, Hlim4, Hat4, Hc4, Hto4, Hcb4, Hn4, He4, Hp4, Hl4.
  rewrite Ht3, Hi3, Hc3, Hcb3, He3, Hp3, Hn3, Hl3.
  rewrite Hts, Hid, Hrl, Hpc, Hev.
  now repeat split.
Qed.

(** Before the first deadline the ticks of the second countdown change
    neither the coordinator nor the record of resolutions. *)
Lemma rearmed_advance nf first second t k :
  first < second -> t < first + 60000 ->
  forall fuel d st,
    rearmed first second d st ->
    t - d < 1000 * Z.of_nat k ->
    (k + 1 <= fuel)%nat ->
    exists d',
      rearmed first second d' (advance fuel nf t st) /\
      (t < d -> d' = d) /\
      rateLimitState (advance fuel nf t st) = rateLimitState st /\
      events (advance fuel nf t st) = events st.
Proof.
  intros Hfs Ht.
  assert (forall fuel d st,
             rearmed first second d st -> t < d -> (1 <= fuel)%nat ->
             exists d',
               rearmed first second d' (advance fuel nf t st) /\
               (t < d -> d' = d) /\
               rateLimitState (advance fuel nf t st) = rateLimitState st /\
               events (advance fuel nf t st) = events st) as Hstop.
  { intros fuel d st Hc Hd Hfuel.
    pose proof Hc as (Hts & Hnext & Hat & Hint & Hto & Hcb & Hnd & Hn1).
    destruct fuel as [|fuel]; [lia|].
    rewrite advance_S, Hts, next_rearmed by lia. cbv beta iota.
    assert ((due (if (d <? first + 60000) || ((d =? first + 60000) && nf)
                  then tickTimer 3 d else resolveTimer 2 (first + 60000)) <=? t) = false)
      as ->.
    { apply Z.leb_gt. destruct ((d <? first + 60000) || _); cbn; lia. }
    exists d. unfold rearmed.
    cbn [now set_now timers nextTimerId rateLimitState events].
    repeat split; try assumption; lia. }
  induction k as [|k IH]; intros fuel d st Hc Hk Hfuel.
  - apply (Hstop fuel d st Hc); lia.
  - destruct (Z.leb_spec d t) as [Hd|Hd]; [|apply (Hstop fuel d st Hc); lia].
    pose proof Hc as (Hts & Hnext & Hat & Hint & Hto & Hcb & Hnd & Hn1).
    destruct fuel as [|fuel]; [lia|].
    rewrite advance_S, Hts, next_rearmed by lia.
    assert ((d <? first + 60000) = true) as -> by (apply Z.ltb_lt; lia).
    cbn [orb due tickTimer].
    assert ((d <=? t) = true) as -> by (apply Z.leb_le; lia).
    destruct (fire_tick (tickTimer 3 d) st second eq_refl eq_refl Hat)
      as (Hts1 & Hr1 & Hn1' & He1 & Hid1 & _).
    { cbn [due tickTimer]. unfold BTC_CACHE_CONFIG.RATE_LIMIT_COOLDOWN. lia. }
    set (st1 := fire _ st) in *. clearbody st1.
    cbn [due tickTimer] in Hn1'. rewrite Z.max_r in Hn1' by lia.
    rewrite Hts in Hts1. cbn in Hts1.
    destruct (IH fuel (d + 1000) st1) as (d' & Hc' & _ & Hr' & He').
    + unfold rearmed. rewrite Hts1, Hr1, Hid1, Hn1'.
      repeat split; try assumption; lia.
    + lia.
    + lia.
    + exists d'. rewrite Hr', He', Hr1, He1.
      split; [exact Hc'|]. repeat split. lia.
Qed.

End TimerRuns.

(** C2.  The claim is that a second throttle during the cooldown restarts
    both timers, so that the callback runs once, 60 seconds after the
    second throttle.  With a first throttle at [first] and a second one at
    [second], inside the first cooldown: [startRateLimitCountdown]
    replaces the interval but leaves the first timeout in the table, next
    to the new one.  The callback runs once, at [first + 60000], which is
    before [second + 60000]; until then the flag is set and no callback
    has run, from then on the flag is cleared.  This holds whichever of
    two timers due at the same time runs first. *)
Theorem second_throttle_keeps_first_deadline
    (newestFirst : bool) (first second finish : Z) :
  0 < first -> first <= second < first + 60000 -> second <= finish ->
  let st := afterDoubleThrottle newestFirst first second finish in
  let stacked := afterDoubleThrottle newestFirst first second second in
  let restarted := Z.max second (first + 50) in
  pendingTimers stacked
    = [(RetryResolve, first + 60000); (CountdownTick, restarted + 1000);
       (RetryResolve, restarted + 60000)] /\
  resolvedAt st = (if finish <? first + 60000 then [] else [first + 60000]) /\
  isRateLimited (rateLimitState st) = (finish <? first + 60000).
Proof.
  set (nf := newestFirst).
  intros Hpos Hsecond Hfinish.
  assert (forall finish, exists s3,
             afterDoubleThrottle nf first second finish = EventLoop.advance 500 nf finish s3 /\
             rearmed first (Z.max second (first + 50))
                     (Z.max second (first + 50) + 1000) s3 /\
             isRateLimited (rateLimitState s3) = true /\
             resolutions (events s3) = []) as Hprefix.
  { clear finish Hfinish. intros finish.
  unfold afterDoubleThrottle, doubleThrottle, run. cbn [List.fold_left step].
  set (s0 := booted first twoCards).
  destruct (getHistoricalPrice_429 "24 Nov 2024" "EUR" "24-11-2024" 0%nat s0
              eq_refl eq_refl eq_refl)
    as (Ht1 & Hi1 & _ & Hat1 & Hc1 & Hto1 & Hcb1 & Hn1 & He1 & Hp1 & Hl1).
  rewrite (addRequestDelay_now s0) in * by (cbn; lia).
  change (lastRequest s0) with 0 in *. change (now s0) with first in *.
  cbn [Z.eqb] in *.
  set (s1 := snd (ApiClient.getHistoricalPrice _ _ _ _ s0)) in *. clearbody s1.
  assert (counting first (first + 1000) s1) as Hcount.
  { unfold counting. rewrite Ht1, Hi1, Hat1, Hc1, Hto1, Hcb1, Hn1.
    repeat split. lia. }
  destruct (counting_advance nf first second 60 (proj2 Hsecond) 500 (first + 1000) s1
              Hcount ltac:(lia) ltac:(lia))
    as (d' & Hcount2 & Hn2 & He2 & Hp2 & Hl2).
  set (s2 := EventLoop.advance 500 nf second s1) in *. clearbody s2.
  rewrite Hn1 in Hn2. rewrite Z.max_r in Hn2 by lia.
  destruct Hcount2 as (Ht2 & Hi2 & Hat2 & Hc2 & Hto2 & Hcb2 & Hd2).
  destruct (getHistoricalPrice_429 "25 Nov 2024" "EUR" "25-11-2024" 1%nat s2 eq_refl)
    as (Ht3 & Hi3 & Hlim3 & Hat3 & Hc3 & Hto3 & Hcb3 & Hn3 & He3 & Hp3 & Hl3).
  { rewrite Hp2, Hp1. reflexivity. }
  { rewrite Hp2, Hp1. reflexivity. }
  rewrite (addRequestDelay_now s2) in * by lia.
  rewrite Hl2, Hl1, Hn2 in *.
  assert ((first =? 0) = false) as Hne by (apply Z.eqb_neq; lia).
  rewrite Hne in *.
  set (at_ := Z.max second (first + 50)) in *.
  set (s3 := snd (ApiClient.getHistoricalPrice _ _ _ _ s2)) in *. clearbody s3.
  assert (rearmed first at_ (at_ + 1000) s3) as Hre.
  { unfold rearmed. rewrite Ht3, Hi3, Hat3, Hc3, Hto3, Hcb3, Hn3, Hc2, Ht2, Hi2, Hcb2.
    cbn. repeat split; lia. }
  exists s3. split; [reflexivity|]. split; [exact Hre|]. split; [exact Hlim3|].
    rewrite He3, He2, He1. reflexivity. }
  cbv zeta. set (at_ := Z.max second (first + 50)) in *.
  assert (first < at_) as Hlt by (subst at_; lia).
  split; [|].
  - destruct (Hprefix second) as (s3 & -> & Hre & _ & _).
    destruct (rearmed_advance nf first at_ second 0 Hlt (proj2 Hsecond) 500 (at_ + 1000) s3
                Hre ltac:(subst at_; lia) ltac:(lia)) as (d' & Hre' & Hd' & _ & _).
    rewrite Hd' in Hre' by (subst at_; lia).
    destruct Hre' as (Hts & _). unfold pendingTimers. rewrite Hts. reflexivity.
  - destruct (Hprefix finish) as (s3 & -> & Hre & Hlim & Hres).
    destruct (Z.ltb_spec finish (first + 60000)) as [Hbefore|Hafter].
    + destruct (rearmed_advance nf first at_ finish 60 Hlt Hbefore 500 (at_ + 1000) s3
                  Hre ltac:(subst at_; lia) ltac:(lia)) as (d' & _ & _ & Hr' & He').
      rewrite resolvedAt_resolutions, He', Hr', Hres. split; [reflexivity | exact Hlim].
    + destruct (rearmed_resolves nf first at_ finish 61 Hlt Hafter 500 (at_ + 1000) s3
                  Hre ltac:(subst at_; lia) ltac:(lia)) as (Hres' & Hlim').
      rewrite resolvedAt_resolutions, Hres', Hres. split; [reflexivity | exact Hlim'].
Qed.


Lemma second_throttle_keeps_first_deadline_witness :
  pendingTimers (afterDoubleThrottle false 1000 31000 31000)
    = [(RetryResolve, 61000); (CountdownTick, 32000); (RetryResolve, 91000)] /\
  resolvedAt (afterDoubleThrottle false 1000 31000 200000) = [61000] /\
  isRateLimited (rateLimitState (afterDoubleThrottle false 1000 31000 200000))
    = false.
Proof.
  apply (second_throttle_keeps_first_deadline false 1000 31000 200000); lia.
Defined.

(** The same run evaluated, for both orders of timers due at the same
    time. *)
Example double_throttle_timeline (newestFirst : bool) :
  pendingTimers (afterDoubleThrottle newestFirst 1000 31000 31000)
    = [(RetryResolve, 61000); (CountdownTick, 32000); (RetryResolve, 91000)] /\
  resolvedAt (afterDoubleThrottle newestFirst 1000 31000 60999) = [] /\
  resolvedAt (afterDoubleThrottle newestFirst 1000 31000 61000) = [61000] /\
  resolvedAt (afterDoubleThrottle newestFirst 1000 31000 200000) = [61000] /\
  timers (afterDoubleThrottle newestFirst 1000 31000 200000) = [].
Proof.
  destruct newestFirst; vm_compute; repeat split.
Qed.

(** The heuristic path does not restart a running countdown: a failed
    fetch during the cooldown leaves both timers as they are. *)
Example heuristic_throttle_leaves_countdown :
  let ops finish :=
    [ GetHistorical "24 Nov 2024" "EUR" (Some 0%nat) tooManyRequests;
      Advance 500 false 31000;
      GetHistorical "25 Nov 2024" "EUR" (Some 1%nat) failedToFetch;
      Advance 500 false finish ] in
  pendingTimers (@run IntlEnDE.instance (ops 31000) (booted 1000 twoCards))
    = [(CountdownTick, 32000); (RetryResolve, 61000)] /\
  resolvedAt (@run IntlEnDE.instance (ops 200000) (booted 1000 twoCards)) = [61000].
Proof. vm_compute. split; reflexivity. Qed.

(** ** Amount texts without a digit *)

Section NoDigitFacts.
Import JS Utils AmountSpec.

Lemma noDigit_app s t : noDigit (s ++ t) = noDigit s && noDigit t.
Proof. apply List.forallb_app. Qed.

Lemma noDigit_filter q s : noDigit s = true -> noDigit (List.filter q s) = true.
Proof.
  induction s as [|c s IH]; simpl; [reflexivity|].
  intros H. apply andb_true_iff in H as [Hc Hs].
  destruct (q c); simpl; [rewrite Hc|]; auto.
Qed.

Lemma noDigit_trimStart s : noDigit s = true -> noDigit (trimStart s) = true.
Proof.
  induction s as [|c s IH]; simpl; [reflexivity|].
  intros H. destruct (isSpace c); [|exact H].
  apply andb_true_iff in H as [_ Hs]. auto.
Qed.

Lemma noDigit_rev s : noDigit (List.rev s) = noDigit s.
Proof.
  induction s as [|c s IH]; simpl; [reflexivity|].
  rewrite noDigit_app, IH. simpl. rewrite andb_true_r. apply andb_comm.
Qed.

Lemma noDigit_replaceAll s : noDigit s = true -> noDigit (replaceAll comma dot s) = true.
Proof.
  induction s as [|c s IH]; simpl; [reflexivity|].
  intros H. apply andb_true_iff in H as [Hc Hs]. rewrite (IH Hs), andb_true_r.
  destruct (Ascii.eqb c comma); [reflexivity | exact Hc].
Qed.

Lemma noDigit_dropInnerMinus s : noDigit s = true -> noDigit (dropInnerMinus s) = true.
Proof.
  destruct s as [|c s]; simpl; [reflexivity|].
  intros H. apply andb_true_iff in H as [Hc Hs].
  rewrite Hc. simpl. now apply noDigit_filter.
Qed.

(** The parts of a split, and what [pop] returns, are made of characters
    of the text. *)
Lemma noDigit_split sep s :
  noDigit s = true -> List.forallb noDigit (split sep s) = true.
Proof.
  induction s as [|c s IH]; simpl; [reflexivity|].
  intros H. apply andb_true_iff in H as [Hc Hs]. specialize (IH Hs).
  destruct (Ascii.eqb c sep); simpl; [exact IH|].
  destruct (split sep s) as [|p ps]; simpl in *; [now rewrite Hc|].
  apply andb_true_iff in IH as [Hp Hps]. now rewrite Hc, Hp, Hps.
Qed.

Lemma noDigit_join parts :
  List.forallb noDigit parts = true -> noDigit (join parts) = true.
Proof.
  induction parts as [|p ps IH]; simpl; [reflexivity|].
  intros H. apply andb_true_iff in H as [Hp Hps].
  unfold join in *. simpl. rewrite noDigit_app, Hp. simpl. auto.
Qed.

Lemma noDigit_pop parts :
  List.forallb noDigit parts = true ->
  noDigit (fst (pop parts)) = true /\
  List.forallb noDigit (snd (pop parts)) = true.
Proof.
  unfold pop. cbn [fst snd]. induction parts as [|p ps IH]; [now split|].
  intros H. cbn [List.forallb] in H. apply andb_true_iff in H as [Hp Hps].
  destruct ps as [|q qs]; [now split|].
  destruct (IH Hps) as [Hl Hr]. split; [exact Hl|].
  change (List.removelast (p :: q :: qs)) with (p :: List.removelast (q :: qs)).
  cbn [List.forallb]. now rewrite Hp, Hr.
Qed.

Lemma readDigits_noDigit s acc n :
  match s with c :: _ => isDigit c = false | [] => True end ->
  readDigits s acc n = (acc, n, s).
Proof. destruct s as [|c s]; simpl; [reflexivity|]. now intros ->. Qed.

Lemma noDigit_head s :
  noDigit s = true -> match s with c :: _ => isDigit c = false | [] => True end.
Proof.
  destruct s as [|c s]; simpl; [trivial|].
  intros H. apply andb_true_iff in H as [Hc _]. now apply negb_true_iff in Hc.
Qed.

Lemma noDigit_tail c s : noDigit (c :: s) = true -> noDigit s = true.
Proof. simpl. intros H. now apply andb_true_iff in H as [_ Hs]. Qed.

Lemma parseFloat_noDigit s : noDigit s = true -> parseFloat s = nan.
Proof.
  intros H. unfold parseFloat.
  pose proof (noDigit_trimStart s H) as H0.
  set (s0 := trimStart s) in *. clearbody s0.
  assert (forall s1, noDigit s1 = true ->
            (let '(ip, ni, s2) := readDigits s1 0 0 in
             let '(m, nf) :=
               match s2 with
               | "."%char :: r => let '(v, k, _) := readDigits r ip 0 in (v, k)
               | _ => (ip, 0)
               end in
             if ni + nf =? 0 then nan else decimalToFloat false m nf) = nan /\
            (let '(ip, ni, s2) := readDigits s1 0 0 in
             let '(m, nf) :=
               match s2 with
               | "."%char :: r => let '(v, k, _) := readDigits r ip 0 in (v, k)
               | _ => (ip, 0)
               end in
             if ni + nf =? 0 then nan else decimalToFloat true m nf) = nan) as Hbody.
  { intros s1 H1. rewrite (readDigits_noDigit s1 0 0 (noDigit_head s1 H1)).
    destruct s1 as [|c r]; [now split|].
    pose proof (noDigit_tail c r H1) as Hr.
    destruct (Ascii.eqb_spec c "."%char) as [->|Hne].
    - rewrite (readDigits_noDigit r 0 0 (noDigit_head r Hr)). now split.
    - destruct c as [[] [] [] [] [] [] [] []]; try (now split); now elim Hne. }
  destruct s0 as [|c r]; [reflexivity|].
  pose proof (noDigit_tail c r H0) as Hr.
  destruct (Ascii.eqb_spec c "-"%char) as [->|Hm].
  - apply (Hbody r Hr).
  - destruct (Ascii.eqb_spec c "+"%char) as [->|Hp].
    + apply (Hbody r Hr).
    + destruct (Hbody (c :: r) H0) as [Hb _].
      destruct c as [[] [] [] [] [] [] [] []]; try exact Hb; congruence.
Qed.

Lemma finish_noDigit s : noDigit s = true -> finish s = nan.
Proof.
  intros H. unfold finish.
  rewrite (parseFloat_noDigit _ (noDigit_dropInnerMinus s H)). reflexivity.
Qed.

(** X1.  A text without a digit is no number, whatever separators, minus signs
    and other characters it holds: the parser returns [NaN]. *)
Theorem parseNumberFromText_noDigit text :
  noDigit (chars text) = true -> parseNumberFromText text = nan.
Proof.
  intros H. unfold parseNumberFromText.
  destruct (chars text) as [|c t] eqn:Et; [reflexivity|].
  assert (noDigit (keepNumberChars (trim (c :: t))) = true) as Hs.
  { apply noDigit_filter. unfold trim. rewrite noDigit_rev.
    apply noDigit_trimStart. rewrite noDigit_rev. now apply noDigit_trimStart. }
  set (s := keepNumberChars (trim (c :: t))) in *. clearbody s.
  destruct s as [|d s]; [reflexivity|].
  set (s' := d :: s) in *.
  destruct ((0 <? count s' comma) && (0 <? count s' dot)).
  - unfold parseBoth.
    set (sep := if lastIndexOf dot s' <? lastIndexOf comma s' then comma else dot).
    set (s1 := stripThousands s' _).
    assert (noDigit s1 = true) as H1
      by (subst s1; unfold stripThousands; apply noDigit_join, noDigit_split, Hs).
    destruct (noDigit_pop _ (noDigit_split sep s1 H1)) as [Hl Hr].
    destruct (pop (split sep s1)) as [dec parts]. simpl in Hl, Hr.
    assert (noDigit (join parts ++ sep :: dec) = true) as H2.
    { rewrite noDigit_app, (noDigit_join _ Hr). simpl. rewrite Hl, andb_true_r.
      subst sep. now destruct (_ <? _). }
    apply finish_noDigit.
    destruct (Ascii.eqb sep comma); [now apply noDigit_replaceAll | exact H2].
  - destruct ((0 <? count s' comma) && (count s' dot =? 0)).
    + unfold parseCommas.
      destruct (_ =? 3).
      * apply finish_noDigit. unfold stripThousands.
        apply noDigit_join, noDigit_split, Hs.
      * destruct (noDigit_pop _ (noDigit_split comma s' Hs)) as [Hl Hr].
        destruct (pop (split comma s')) as [dec parts]. simpl in Hl, Hr.
        destruct (_ && _); apply finish_noDigit.
        -- rewrite noDigit_app, (noDigit_join _ Hr). simpl. now rewrite Hl.
        -- now apply noDigit_replaceAll.
    + destruct ((0 <? count s' dot) && (count s' comma =? 0)).
      * unfold parseDots. destruct (_ =? 3); apply finish_noDigit; [|exact Hs].
        unfold stripThousands. apply noDigit_join, noDigit_split, Hs.
      * now apply finish_noDigit.
Qed.

End NoDigitFacts.

(** ** Amount texts with a currency sign or other text around the number *)

Section DecoratedAmounts.
Import JS Utils AmountSpec.

Lemma filter_trimStart (q : ascii -> bool) s :
  (forall c, isSpace c = true -> q c = false) ->
  List.filter q (trimStart s) = List.filter q s.
Proof.
  intros Hq. induction s as [|c s IH]; simpl; [reflexivity|].
  destruct (isSpace c) eqn:E; [|reflexivity].
  now rewrite (Hq c E).
Qed.

Lemma filter_rev' (q : ascii -> bool) s :
  List.filter q (List.rev s) = List.rev (List.filter q s).
Proof.
  induction s as [|c s IH]; simpl; [reflexivity|].
  rewrite List.filter_app, IH. simpl. destruct (q c); simpl; [reflexivity|].
  apply List.app_nil_r.
Qed.

Lemma isSpace_not_number c : isSpace c = true -> isNumberChar c = false.
Proof.
  destruct c as [[] [] [] [] [] [] [] []]; vm_compute; congruence.
Qed.

(** [trim] removes nothing the first step of the parser would keep. *)
Lemma keepNumberChars_trim s : keepNumberChars (trim s) = keepNumberChars s.
Proof.
  unfold keepNumberChars, trim.
  rewrite filter_rev', (filter_trimStart _ _ isSpace_not_number).
  rewrite filter_rev', List.rev_involutive.
  apply (filter_trimStart _ _ isSpace_not_number).
Qed.

Lemma filter_none (q : ascii -> bool) s :
  List.forallb (fun c => negb (q c)) s = true -> List.filter q s = [].
Proof.
  induction s as [|c s IH]; simpl; [reflexivity|].
  intros H. apply andb_true_iff in H as [Hc Hs].
  apply negb_true_iff in Hc. rewrite Hc. auto.
Qed.

Lemma filter_all (q : ascii -> bool) s :
  List.forallb q s = true -> List.filter q s = s.
Proof.
  induction s as [|c s IH]; simpl; [reflexivity|].
  intros H. apply andb_true_iff in H as [Hc Hs]. rewrite Hc. f_equal. auto.
Qed.

Lemma isDigit_number c : isDigit c = true -> isNumberChar c = true.
Proof. unfold isNumberChar. now intros ->. Qed.

Lemma isDigit_not_separator c : isDigit c = true -> isSeparator c = false.
Proof.
  destruct c as [[] [] [] [] [] [] [] []]; vm_compute; congruence.
Qed.

Lemma isSeparator_number c : isSeparator c = true -> isNumberChar c = true.
Proof.
  unfold isSeparator, isNumberChar. intros H.
  apply orb_true_iff in H as [->| ->]; rewrite ?orb_true_r; reflexivity.
Qed.

Lemma filter_ext_forallb (q r p : ascii -> bool) s :
  (forall c, p c = true -> q c = r c) ->
  List.forallb p s = true -> List.filter q s = List.filter r s.
Proof.
  intros Hqr. induction s as [|c s IH]; simpl; [reflexivity|].
  intros H. apply andb_true_iff in H as [Hc Hs].
  rewrite (Hqr c Hc), (IH Hs). reflexivity.
Qed.

(** X2.  A number with a two-digit fraction is read whatever stands around it:
    in a text made of characters that are no digit, separator or minus
    sign, then digits grouped by one kind of separator, then the other
    kind of separator and two digits, then again characters that are none
    of those, the groups are joined and the two digits are the fraction
    ("EUR 1.234,56 net" is 1234.56). *)
Theorem parseNumberFromText_decorated text pre b sep a suf :
  isSeparator sep = true ->
  chars text = pre ++ b ++ sep :: a ++ suf ->
  List.forallb (fun c => negb (isNumberChar c)) pre = true ->
  List.forallb (fun c => negb (isNumberChar c)) suf = true ->
  List.forallb (fun c => isDigit c || (isSeparator c && negb (Ascii.eqb c sep))) b = true ->
  List.forallb isDigit a = true -> List.length a = 2%nat ->
  parseNumberFromText text = finish (List.filter isDigit b ++ dot :: a).
Proof.
  intros Hsep Htext Hpre Hsuf Hb Ha Hlen.
  assert (List.forallb isNumberChar b = true) as Hbn.
  { revert Hb. apply forallb_weaken. intros c Hc.
    apply orb_true_iff in Hc as [Hc|Hc]; [now apply isDigit_number|].
    apply andb_true_iff in Hc as [Hc _]. now apply isSeparator_number. }
  assert (List.forallb isNumberChar a = true) as Han
    by (revert Ha; apply forallb_weaken, isDigit_number).
  assert (keepNumberChars (trim (chars text)) = b ++ sep :: a) as Hs.
  { rewrite keepNumberChars_trim, Htext. unfold keepNumberChars.
    rewrite !List.filter_app. cbn [List.filter].
    rewrite (isSeparator_number sep Hsep), List.filter_app.
    rewrite (filter_none _ pre Hpre), (filter_none _ suf Hsuf).
    rewrite (filter_all _ b Hbn), (filter_all _ a Han).
    now rewrite List.app_nil_r. }
  assert (List.forallb (fun x => negb (isSeparator x)) a = true) as Hasep.
  { revert Ha. apply forallb_weaken. intros c Hc.
    now rewrite (isDigit_not_separator c Hc). }
  assert (List.forallb (fun c => negb (Ascii.eqb c sep)) b = true) as Hbsep.
  { revert Hb. apply forallb_weaken. intros c Hc.
    apply orb_true_iff in Hc as [Hc|Hc].
    - destruct (Ascii.eqb_spec c sep) as [->|]; [|reflexivity].
      now rewrite (isDigit_not_separator sep Hc) in Hsep.
    - now apply andb_true_iff in Hc as [_ Hc]. }
  assert (stripSeparators b = List.filter isDigit b) as Hstrip.
  { unfold stripSeparators. revert Hb. apply filter_ext_forallb. intros c Hc.
    apply orb_true_iff in Hc as [Hc|Hc].
    - now rewrite Hc, (isDigit_not_separator c Hc).
    - apply andb_true_iff in Hc as [Hc _]. rewrite Hc. cbn.
      destruct (isDigit c) eqn:E; [|reflexivity].
      now rewrite (isDigit_not_separator c E) in Hc. }
  rewrite (parseNumberFromText_cleaned text (b ++ sep :: a) (eq_sym Hs))
    by (now destruct b).
  rewrite <- Hstrip.
  pose proof (no_separator_no_char comma a eq_refl Hasep) as Hac.
  pose proof (no_separator_no_char dot a eq_refl Hasep) as Had.
  pose proof (count_nonneg comma b) as Hcb. pose proof (count_nonneg dot b) as Hdb.
  destruct (isSeparator_cases sep Hsep) as [-> | ->].
  - (* the fraction follows a comma *)
    assert (count (b ++ comma :: a) comma = 1) as Ec
      by (rewrite count_app_sep, (count_absent comma a Hac),
            (count_absent comma b Hbsep); reflexivity).
    assert (count (b ++ comma :: a) dot = count b dot) as Hd.
    { unfold count. rewrite List.filter_app. cbn [List.filter].
      change (Ascii.eqb dot comma) with false. cbv iota.
      fold (count a dot). rewrite List.length_app.
      pose proof (count_absent dot a Had) as H0. unfold count in H0. lia. }
    destruct (0 <? count b dot) eqn:Epos.
    + rewrite Ec, Hd, Epos. cbn [Z.ltb Z.compare andb].
      now apply parseBoth_decompose.
    + apply Z.ltb_ge in Epos. assert (count b dot = 0) as H0 by lia.
      rewrite parseCommas_decompose.
      * rewrite Ec, Hd, H0. cbv zeta. rewrite Hlen. reflexivity.
      * rewrite List.forallb_app. cbn [List.forallb].
        rewrite (count_zero_absent dot b H0), Had. reflexivity.
      * exact Hac.
  - (* the fraction follows a dot *)
    assert (count (b ++ dot :: a) dot = 1) as Ed
      by (rewrite count_app_sep, (count_absent dot a Had),
            (count_absent dot b Hbsep); reflexivity).
    assert (count (b ++ dot :: a) comma = count b comma) as Hc.
    { unfold count. rewrite List.filter_app. cbn [List.filter].
      change (Ascii.eqb comma dot) with false. cbv iota.
      fold (count a comma). rewrite List.length_app.
      pose proof (count_absent comma a Hac) as H0. unfold count in H0. lia. }
    destruct (0 <? count b comma) eqn:Epos.
    + rewrite Ed, Hc, Epos. cbn [Z.ltb Z.compare andb].
      now apply parseBoth_decompose.
    + apply Z.ltb_ge in Epos. assert (count b comma = 0) as H0 by lia.
      rewrite parseDots_decompose.
      * rewrite Ed, Hc, H0, Hlen. cbn.
        assert (stripSeparators b = b) as ->; [|reflexivity].
        unfold stripSeparators. apply filter_all.
        pose proof (count_zero_absent comma b H0) as Hnc.
        revert Hnc Hbsep. clear.
        induction b as [|c b IH]; simpl; [reflexivity|].
        intros H1 H2. apply andb_true_iff in H1 as [Hc1 Hb1].
        apply andb_true_iff in H2 as [Hc2 Hb2]. rewrite (IH Hb1 Hb2), andb_true_r.
        unfold isSeparator. apply negb_true_iff in Hc1, Hc2. now rewrite Hc1, Hc2.
      * rewrite List.forallb_app. cbn [List.forallb].
        rewrite (count_zero_absent comma b H0), Hac. reflexivity.
      * exact Had.
Qed.

End DecoratedAmounts.

(** ** What the price client keeps *)

Section ClientFrame.
Import Timers Display RateLimit ApiClient Analyzer EventLoop.

Lemma sameClient_refl st : sameClient st st.
Proof. now repeat split. Qed.

Lemma sameClient_trans st1 st2 st3 :
  sameClient st1 st2 -> sameClient st2 st3 -> sameClient st1 st3.
Proof. intros (A & B & C) (D & E & F). repeat split; congruence. Qed.

Lemma sameClient_startRateLimitCountdown st :
  sameClient st (startRateLimitCountdown st).
Proof.
  unfold startRateLimitCountdown.
  destruct (countdownInterval (rateLimitState st)); now repeat split.
Qed.

Lemma sameClient_resolveRateLimit st : sameClient st (resolveRateLimit st).
Proof.
  unfold resolveRateLimit. repeat break_match; try (now repeat split).
  all: destruct c; now repeat split.
Qed.

Lemma sameClient_addPendingCard card st : sameClient st (addPendingCard card st).
Proof. unfold addPendingCard. break_match; now repeat split. Qed.

Lemma sameClient_countdownTick st : sameClient st (countdownTick st).
Proof.
  unfold countdownTick. break_match;
    [apply sameClient_resolveRateLimit | now repeat split].
Qed.

Lemma sameClient_processPendingCards st : sameClient st (processPendingCards st).
Proof.
  unfold processPendingCards.
  destruct (pendingCards (rateLimitState st)) as [|card rest] eqn:E;
    [apply sameClient_refl|].
  unfold processQueuedCards. cbn [set_page set_queues priceCache requestHistory lastRequest].
  unfold sameClient. cbn [priceCache requestHistory lastRequest set_page set_queues].
  apply (fold_left_invariant (fun s => sameClient st s)).
  - intros a b Ha. exact Ha.
  - now repeat split.
Qed.

Lemma sameClient_fire tm st : sameClient st (fire tm st).
Proof.
  unfold fire, runTask.
  assert (sameClient st (rearm tm (set_now (Z.max (now st) (due tm)) st))) as H0
    by (unfold rearm; break_match; now repeat split).
  eapply sameClient_trans; [exact H0|].
  destruct (task tm);
    [apply sameClient_countdownTick | apply sameClient_resolveRateLimit
     | apply sameClient_processPendingCards].
Qed.

Lemma sameClient_advance fuel nf t st : sameClient st (advance fuel nf t st).
Proof.
  revert st. induction fuel as [|fuel IH]; intros st; simpl; [apply sameClient_refl|].
  destruct (next nf (timers st)) as [tm|]; [|now repeat split].
  destruct (due tm <=? t); [|now repeat split].
  eapply sameClient_trans; [apply sameClient_fire | apply IH].
Qed.

Lemma invariant_sameClient st st' :
  sameClient st st' -> clientInvariant st -> clientInvariant st'.
Proof. intros (A & B & _) [H1 H2]. unfold clientInvariant. now rewrite A, B. Qed.

Lemma recordRequest_length st :
  (List.length (requestHistory st) <= 10)%nat ->
  (List.length (requestHistory (recordRequest st)) <= 10)%nat.
Proof.
  intros H. unfold recordRequest. cbn [requestHistory set_requests].
  destruct (Nat.ltb_spec 10 (List.length (requestHistory st ++ [now st]))) as [Hl|Hl];
    [|exact Hl].
  rewrite List.length_app in Hl. cbn in Hl.
  destruct (requestHistory st) as [|x h]; cbn in *; [lia|].
  rewrite List.length_app. cbn. lia.
Qed.

(** The steps before the [fetch]. *)
Lemma clientInvariant_request url st :
  clientInvariant st ->
  clientInvariant (emit (Requested url (now (recordRequest (addRequestDelay (checkRateLimit st)))))
                   (recordRequest (addRequestDelay (checkRateLimit st)))).
Proof.
  intros [[Hb Hu] Hl]. unfold clientInvariant.
  cbn [emit priceCache requestHistory].
  split.
  - unfold recordRequest, addRequestDelay, checkRateLimit. rewrite Hb. cbn [andb].
    repeat break_match; now split.
  - apply recordRequest_length.
    unfold addRequestDelay, checkRateLimit. repeat break_match; exact Hl.
Qed.

Lemma clientInvariant_detect msg st :
  clientInvariant st -> clientInvariant (snd (detectRateLimitFromError msg st)).
Proof.
  intros [Hb Hl]. unfold detectRateLimitFromError, getRecentRequestCount, clientInvariant.
  cbn. split; [exact Hb|].
  etransitivity; [apply filter_length_le | exact Hl].
Qed.

Lemma clientInvariant_currentPricesFailed e st :
  clientInvariant st -> clientInvariant (snd (currentPricesFailed e st)).
Proof.
  intros Hinv. unfold currentPricesFailed.
  pose proof (clientInvariant_detect (errorMessage e) st Hinv) as Hd.
  destruct (detectRateLimitFromError (errorMessage e) st) as [limited st'].
  cbn [snd] in Hd. destruct limited; [|exact Hd]. cbn [snd].
  destruct (isRateLimited (rateLimitState st')); [exact Hd|].
  eapply invariant_sameClient; [apply sameClient_startRateLimitCountdown | exact Hd].
Qed.

Lemma clientInvariant_historicalPriceFailed e card st :
  clientInvariant st -> clientInvariant (snd (historicalPriceFailed e card st)).
Proof.
  intros Hinv. unfold historicalPriceFailed.
  pose proof (clientInvariant_detect (errorMessage e) st Hinv) as Hd.
  destruct (detectRateLimitFromError (errorMessage e) st) as [limited st'].
  cbn [snd] in Hd. destruct limited; [|exact Hd]. cbn [snd].
  assert (clientInvariant (match card with
                           | Some card => addPendingCard card st'
                           | None => st'
                           end)) as Hp.
  { destruct card; [|exact Hd].
    eapply invariant_sameClient; [apply sameClient_addPendingCard | exact Hd]. }
  break_match; [exact Hp|].
  eapply invariant_sameClient; [apply sameClient_startRateLimitCountdown | exact Hp].
Qed.

Lemma clientInvariant_getCurrentPriceForAllCurrencies resp st :
  clientInvariant st ->
  clientInvariant (snd (getCurrentPriceForAllCurrencies resp st)).
Proof.
  intros Hinv. unfold getCurrentPriceForAllCurrencies.
  destruct (isCurrentPriceCacheValid st); [exact Hinv|].
  pose proof (clientInvariant_request currentPricesUrl st Hinv) as H1.
  set (st1 := emit _ _) in *. clearbody st1.
  destruct resp as [e|status body].
  - now apply clientInvariant_currentPricesFailed.
  - destruct (negb (ok status)).
    + destruct (status =? 429) eqn:E.
      * cbn [snd]. eapply invariant_sameClient;
          [apply sameClient_startRateLimitCountdown | exact H1].
      * unfold handleRateLimit. rewrite E.
        now apply clientInvariant_currentPricesFailed.
    + destruct body as [bitcoin|e];
        [exact H1 | now apply clientInvariant_currentPricesFailed].
Qed.

Lemma clientInvariant_getHistoricalPrice d c card resp st :
  clientInvariant st ->
  clientInvariant (snd (getHistoricalPrice d c card resp st)).
Proof.
  intros Hinv. unfold getHistoricalPrice.
  destruct (convertFirefishDateToCoinGecko d) as [cg|]; [|exact Hinv].
  destruct (historical (priceCache st) !! cacheKey cg c) as [entry|]; [exact Hinv|].
  pose proof (clientInvariant_request (historyUrl cg) st Hinv) as H1.
  set (st1 := emit _ _) in *. clearbody st1.
  destruct resp as [e|status body].
  - now apply clientInvariant_historicalPriceFailed.
  - destruct (negb (ok status)).
    + destruct (status =? 429) eqn:E.
      * cbn [snd]. eapply invariant_sameClient;
          [apply sameClient_startRateLimitCountdown|].
        destruct card; [|exact H1].
        eapply invariant_sameClient; [apply sameClient_addPendingCard | exact H1].
      * unfold handleRateLimit. rewrite E.
        now apply clientInvariant_historicalPriceFailed.
    + destruct body as [[current_price|]|e];
        try (now apply clientInvariant_historicalPriceFailed).
      cbn [snd]. destruct card; exact H1.
Qed.

End ClientFrame.

Section ClientRuns.
Import Timers Display RateLimit ApiClient Analyzer EventLoop.
Context `{Intl}.

Lemma clientInvariant_onCardSt f card st :
  clientInvariant st -> clientInvariant (onCardSt f card st).
Proof. now intros. Qed.

Lemma clientInvariant_processFirefishLoanCard card rc rh st :
  clientInvariant st -> clientInvariant (processFirefishLoanCard card rc rh st).
Proof.
  intros Hinv. unfold processFirefishLoanCard.
  destruct (page st !! card) as [c|]; [|exact Hinv].
  destruct (processed c); [exact Hinv|].
  destruct (extracted c) as [loanData|]; [|exact Hinv].
  destruct (negb (isValid loanData)); [exact Hinv|].
  set (st0 := onCardSt showFirefishLoadingState card _).
  assert (clientInvariant st0) as H0 by exact Hinv.
  pose proof (clientInvariant_getCurrentPriceForAllCurrencies rc st0 H0) as H1.
  destruct (getCurrentPriceForAllCurrencies rc st0) as [currentPrices st1].
  cbn [snd] in H1. destruct currentPrices as [prices|]; [|exact H1].
  pose proof (clientInvariant_getHistoricalPrice (provisionDate loanData)
                (currency loanData) (Some card) rh st1 H1) as H2.
  destruct (getHistoricalPrice _ _ _ rh st1) as [historicalPrice st2].
  cbn [snd] in H2. repeat break_match; exact H2.
Qed.

Lemma clientInvariant_step op st : clientInvariant st -> clientInvariant (step op st).
Proof.
  intros Hinv. destruct op; simpl.
  - eapply invariant_sameClient; [apply sameClient_advance | exact Hinv].
  - now apply clientInvariant_getCurrentPriceForAllCurrencies.
  - now apply clientInvariant_getHistoricalPrice.
  - now apply clientInvariant_processFirefishLoanCard.
  - exact Hinv.
  - exact Hinv.
  - unfold processNextCard. destruct (worker st) as [|card rest]; [exact Hinv|].
    break_match; [exact Hinv|].
    now apply clientInvariant_processFirefishLoanCard.
  - break_match; [|exact Hinv].
    eapply invariant_sameClient; [apply sameClient_resolveRateLimit | exact Hinv].
  - exact Hinv.
Qed.

Lemma clientInvariant_run ops st : clientInvariant st -> clientInvariant (run ops st).
Proof.
  revert st. induction ops as [|op ops IH]; intros st Hinv; simpl; [exact Hinv|].
  apply IH. now apply clientInvariant_step.
Qed.

End ClientRuns.

(** X3.  The block that [handleRateLimit] would set is never set: its callers
    handle status 429 themselves and pass it nothing else that it accepts,
    so [checkRateLimit] never waits. *)
Theorem apiBlocked_never_set `{Intl} (t0 : Z) (p : gmap nat CardDom) (ops : list Op) :
  let st := run ops (booted t0 p) in
  apiBlocked (priceCache st) = false /\
  blockedUntil (priceCache st) = None /\
  ApiClient.checkRateLimit st = st.
Proof.
  intros st.
  destruct (clientInvariant_run ops (booted t0 p)) as [[Hb Hu] _];
    [repeat split; cbn; lia|].
  fold st in Hb, Hu. repeat split; [exact Hb | exact Hu|].
  unfold ApiClient.checkRateLimit. now rewrite Hb.
Qed.

(** X4.  The rolling window of request times never holds more than ten. *)
Theorem requestHistory_bounded `{Intl} (t0 : Z) (p : gmap nat CardDom) (ops : list Op) :
  (List.length (requestHistory (run ops (booted t0 p))) <= 10)%nat.
Proof.
  apply (clientInvariant_run ops (booted t0 p)). repeat split. cbn. lia.
Qed.

(** ** Error answers and the cache of current prices *)

Section ErrorStatus.
Import Timers Display RateLimit ApiClient Analyzer EventLoop.

Lemma detect_includesOfUndefined st :
  fst (detectRateLimitFromError (errorMessage includesOfUndefined) st)
  = (3 <? requestsInLastMinute st).
Proof.
  unfold detectRateLimitFromError, getRecentRequestCount. cbv zeta. cbn [fst].
  rewrite isRequestingTooFast_false, orb_false_r.
  change (List.existsb _ rateLimitIndicators) with false.
  reflexivity.
Qed.

Lemma detect_frame msg st :
  let st' := snd (detectRateLimitFromError msg st) in
  rateLimitState st' = rateLimitState st /\ timers st' = timers st /\
  hist st' = hist st /\ events st' = events st /\ page st' = page st /\
  now st' = now st.
Proof. now repeat split. Qed.

(** X5.  An HTTP error status other than 429: nothing is cached and the caller
    gets [null]; the lookup counts as throttled exactly when more than
    three requests, this one included, are less than a minute old. *)
Theorem getHistoricalPrice_error_status d c cg card status body st :
  convertFirefishDateToCoinGecko d = Some cg ->
  historical (priceCache st) !! cacheKey cg c = None ->
  ok status = false -> status <> 429 ->
  let st1 := recordRequest (addRequestDelay (checkRateLimit st)) in
  let r := getHistoricalPrice d c (Some card) (Http status body) st in
  fst r = JS.VNull /\
  hist (snd r) = hist st /\
  if 3 <? requestsInLastMinute st1
  then isRateLimited (rateLimitState (snd r)) = true /\
       In card (pendingCards (rateLimitState (snd r)))
  else rateLimitState (snd r) = rateLimitState st /\ timers (snd r) = timers st.
Proof.
  intros Hcg Hmiss Hok Hne st1 r. subst r.
  unfold getHistoricalPrice. rewrite Hcg, Hmiss, Hok. cbn [negb].
  apply Z.eqb_neq in Hne. rewrite Hne. unfold handleRateLimit. rewrite Hne.
  fold st1. set (st2 := emit _ st1).
  assert (rateLimitState st2 = rateLimitState st /\ timers st2 = timers st /\
          hist st2 = hist st) as (Hr2 & Ht2 & Hh2).
  { subst st2 st1. unfold recordRequest, addRequestDelay, checkRateLimit.
    repeat break_match; now repeat split. }
  unfold historicalPriceFailed.
  pose proof (detect_includesOfUndefined st2) as Hd.
  destruct (detect_frame (errorMessage includesOfUndefined) st2)
    as (Hr3 & Ht3 & Hh3 & _).
  change (requestsInLastMinute st2) with (requestsInLastMinute st1) in Hd.
  destruct (detectRateLimitFromError (errorMessage includesOfUndefined) st2)
    as [limited st3].
  cbn [fst snd] in Hd, Hr3, Ht3, Hh3. rewrite <- Hd.
  destruct limited; cbn [fst snd].
  - split; [reflexivity|].
    assert (In card (pendingCards (rateLimitState (addPendingCard card st3)))) as Hin.
    { unfold addPendingCard. break_match; apply setAdd_In. }
    break_match.
    + rewrite hist_addPendingCard, Hh3, Hh2. now repeat split.
    + destruct (startRateLimitCountdown_coordinator (addPendingCard card st3))
        as (Hl & _ & Hp).
      rewrite hist_startRateLimitCountdown, hist_addPendingCard, Hh3, Hh2.
      rewrite Hl, Hp. now repeat split.
  - rewrite Hr3, Ht3, Hh3, Hr2, Ht2, Hh2. now repeat split.
Qed.

End ErrorStatus.

Section CurrentCache.
Import Timers Display RateLimit ApiClient Analyzer EventLoop.

Lemma events_startRateLimitCountdown st :
  events (startRateLimitCountdown st) = events st.
Proof.
  unfold startRateLimitCountdown.
  destruct (countdownInterval (rateLimitState st)); reflexivity.
Qed.

Lemma events_currentPricesFailed e st :
  events (snd (currentPricesFailed e st)) = events st.
Proof.
  unfold currentPricesFailed.
  destruct (detect_frame (errorMessage e) st) as (_ & _ & _ & He & _).
  destruct (detectRateLimitFromError (errorMessage e) st) as [limited st0].
  cbn [snd] in He. rewrite <- He.
  destruct limited; [|reflexivity]. cbn [snd].
  break_match; [reflexivity | apply events_startRateLimitCountdown].
Qed.

(** A request for the current prices is issued, whatever comes back. *)
Lemma getCurrentPriceForAllCurrencies_requests resp st :
  isCurrentPriceCacheValid st = false ->
  let at_ := now (addRequestDelay (checkRateLimit st)) in
  events (snd (getCurrentPriceForAllCurrencies resp st))
  = Requested currentPricesUrl at_ :: events st.
Proof.
  intros Hinvalid at_. unfold getCurrentPriceForAllCurrencies. rewrite Hinvalid.
  set (st1 := emit _ _).
  assert (events st1 = Requested currentPricesUrl at_ :: events st) as H1.
  { subst st1 at_. unfold recordRequest, addRequestDelay, checkRateLimit.
    repeat break_match; reflexivity. }
  clearbody st1.
  destruct resp as [e|status body].
  - now rewrite events_currentPricesFailed.
  - destruct (negb (ok status)).
    + destruct (status =? 429) eqn:E.
      * cbn [snd]. now rewrite events_startRateLimitCountdown.
      * unfold handleRateLimit. rewrite E. now rewrite events_currentPricesFailed.
    + destruct body as [bitcoin|e]; [exact H1|].
      now rewrite events_currentPricesFailed.
Qed.

(** X6.  The current prices are served from the cache, without a request, for
    fifteen minutes after they were stored, whatever timers run in
    between; from then on a call issues a request. *)
Theorem current_prices_cache_window st prices stored fuel nf t resp :
  current (priceCache st)
    = {| data := Some prices; dataTimestamp := Some stored |} ->
  stored <> 0 ->
  let st1 := advance fuel nf t st in
  let r := getCurrentPriceForAllCurrencies resp st1 in
  (now st1 - stored < BTC_CACHE_CONFIG.CURRENT_PRICE_DURATION ->
   r = (Some prices, st1)) /\
  (BTC_CACHE_CONFIG.CURRENT_PRICE_DURATION <= now st1 - stored ->
   exists at_, now st1 <= at_ /\
               events (snd r) = Requested currentPricesUrl at_ :: events st1).
Proof.
  intros Hcur Hne st1 r.
  destruct (sameClient_advance fuel nf t st) as (Hp & _ & _). fold st1 in Hp.
  assert (isCurrentPriceCacheValid st1
          = (now st1 - stored <? BTC_CACHE_CONFIG.CURRENT_PRICE_DURATION)) as Hvalid.
  { unfold isCurrentPriceCacheValid. rewrite Hp, Hcur. cbn [data dataTimestamp].
    apply Z.eqb_neq in Hne. now rewrite Hne. }
  split; intros Ht.
  - subst r. unfold getCurrentPriceForAllCurrencies. rewrite Hvalid.
    apply Z.ltb_lt in Ht. rewrite Ht. now rewrite Hp, Hcur.
  - apply Z.ltb_ge in Ht. rewrite Ht in Hvalid.
    exists (now (addRequestDelay (checkRateLimit st1))). split.
    + unfold addRequestDelay, checkRateLimit.
      repeat break_match; cbn [now set_now lastRequest]; try lia.
      all: repeat match goal with
             | H : (_ <? _) = true |- _ => apply Z.ltb_lt in H
             | H : (_ && _) = true |- _ => apply andb_true_iff in H as [? ?]
             end; cbn [now set_now lastRequest] in *; try lia.
    + now apply getCurrentPriceForAllCurrencies_requests.
Qed.

End CurrentCache.

(** ** Dates and currency codes of a lookup *)

Section DateFacts.
Import JS ApiClient.

Lemma list_ascii_of_string_app s t :
  list_ascii_of_string (s ++ t) = (list_ascii_of_string s ++ list_ascii_of_string t)%list.
Proof. induction s as [|c s IH]; simpl; [reflexivity | now rewrite IH]. Qed.

Lemma months_noSpace m mm : months m = Some mm -> noSpace m = true.
Proof.
  unfold months. intros H.
  repeat match type of H with
         | (if String.eqb ?a ?b then _ else _) = _ =>
             destruct (String.eqb_spec a b) as [->|_]; [reflexivity|]
         end.
  discriminate.
Qed.

Lemma split_length sep s :
  Z.of_nat (List.length (split sep s)) = count s sep + 1.
Proof.
  unfold count. induction s as [|c s IH]; simpl; [reflexivity|].
  rewrite (Ascii.eqb_sym sep c). destruct (Ascii.eqb c sep); simpl.
  - rewrite Nat2Z.inj_succ in *. lia.
  - destruct (split sep s) as [|p ps]; simpl in *; lia.
Qed.

(** X7.  A day, a month name of the table and a year, separated by single
    spaces, become [dd-mm-yyyy], the day padded to two characters. *)
Theorem convertFirefishDateToCoinGecko_format d m mm y :
  months m = Some mm -> noSpace d = true -> noSpace y = true ->
  convertFirefishDateToCoinGecko (d ++ " " ++ m ++ " " ++ y)
  = Some (padStart2 d ++ "-" ++ mm ++ "-" ++ y)%string.
Proof.
  intros Hm Hd Hy. pose proof (months_noSpace m mm Hm) as Hms.
  unfold convertFirefishDateToCoinGecko.
  rewrite !list_ascii_of_string_app. cbn [list_ascii_of_string List.app].
  rewrite split_app_sep, (split_absent _ _ Hd).
  rewrite split_app_sep, (split_absent _ _ Hms), (split_absent _ _ Hy).
  cbn [List.app List.map]. rewrite !string_of_list_ascii_of_string.
  now rewrite Hm.
Qed.

(** X8.  A text that does not have exactly two spaces is not converted. *)
Theorem convertFirefishDateToCoinGecko_parts d :
  count (chars d) " "%char <> 2 -> convertFirefishDateToCoinGecko d = None.
Proof.
  intros Hc. unfold convertFirefishDateToCoinGecko.
  pose proof (split_length " "%char (list_ascii_of_string d)) as Hl.
  unfold chars in Hc.
  destruct (split " "%char (list_ascii_of_string d)) as [|a [|b [|c [|e l]]]];
    try reflexivity.
  cbn [List.length] in Hl. lia.
Qed.

End DateFacts.

Section CaseFacts.
Import JS ApiClient.
Context `{Intl}.

(** X9.  The currency code of a lookup is compared without regard to case: a
    price stored for one spelling answers every other spelling, from the
    cache. *)
Theorem historical_cache_ignores_case d cg c1 c2 card1 card2 status cp st ops resp :
  convertFirefishDateToCoinGecko d = Some cg ->
  historical (priceCache st) !! cacheKey cg c1 = None ->
  ok status = true ->
  toLowerCase c1 = toLowerCase c2 ->
  let st1 := snd (getHistoricalPrice d c1 card1 (Http status (Json (Some cp))) st) in
  getHistoricalPrice d c2 card2 resp (run ops st1) = (priceOf cp c1, run ops st1).
Proof.
  intros Hcg Hmiss Hok Hcase st1.
  assert (exists ts, hist st1 !! cacheKey cg c1
                     = Some {| price := priceOf cp c1; timestamp := ts |}) as [ts Hk].
  { subst st1. unfold getHistoricalPrice. rewrite Hcg, Hmiss, Hok. cbn [negb snd].
    eexists. destruct card1; cbn; unfold hist; cbn; apply lookup_insert_eq. }
  destruct (cached_entry_survives_runs st1 _ _ ops Hk) as [_ Hhit].
  apply (Hhit d c2 cg card2 resp Hcg).
  unfold cacheKey. now rewrite Hcase.
Qed.

End CaseFacts.

(** ** The displays of a card *)

Section Frames.
Import Timers Display RateLimit ApiClient Analyzer EventLoop.

Lemma sameFrame_refl c : sameFrame c c.
Proof. now repeat split. Qed.

Lemma sameFrame_trans c1 c2 c3 : sameFrame c1 c2 -> sameFrame c2 c3 -> sameFrame c1 c3.
Proof.
  intros (A1 & A2 & A3 & A4 & A5) (B1 & B2 & B3 & B4 & B5).
  repeat split; congruence.
Qed.

Lemma framesKept_refl p : framesKept p p.
Proof. intros card c Hc. exists c. split; [exact Hc | apply sameFrame_refl]. Qed.

Lemma framesKept_trans p1 p2 p3 :
  framesKept p1 p2 -> framesKept p2 p3 -> framesKept p1 p3.
Proof.
  intros H12 H23 card c Hc.
  destruct (H12 card c Hc) as (c2 & Hc2 & F2).
  destruct (H23 card c2 Hc2) as (c3 & Hc3 & F3).
  exists c3. split; [exact Hc3 | eapply sameFrame_trans; eassumption].
Qed.

Lemma framesKept_onCard f card p :
  (forall c, sameFrame c (f c)) -> framesKept p (onCard f card p).
Proof.
  intros Hf k c Hk. unfold onCard.
  destruct (decide (k = card)) as [->|Hne].
  - exists (f c). split; [|apply Hf]. now rewrite lookup_alter_eq, Hk.
  - exists c. split; [|apply sameFrame_refl]. now rewrite lookup_alter_ne.
Qed.

Lemma framesKept_onCards f cards p :
  (forall c, sameFrame c (f c)) -> framesKept p (onCards f cards p).
Proof.
  intros Hf. unfold onCards. revert p.
  induction cards as [|card cards IH]; intros p; simpl; [apply framesKept_refl|].
  eapply framesKept_trans; [apply framesKept_onCard, Hf | apply IH].
Qed.

Lemma sameFrame_set_widgets ws c : sameFrame c (set_widgets ws c).
Proof. now repeat split. Qed.

Lemma sameFrame_showRateLimitMessage m c : sameFrame c (showRateLimitMessage m c).
Proof. apply sameFrame_set_widgets. Qed.

Lemma sameFrame_showFirefishLoadingState c : sameFrame c (showFirefishLoadingState c).
Proof.
  unfold showFirefishLoadingState.
  break_match; [apply sameFrame_refl | apply sameFrame_set_widgets].
Qed.

Lemma framesKept_updateRateLimitDisplay r st :
  framesKept (page st) (page (updateRateLimitDisplay r st)).
Proof. apply framesKept_onCards, sameFrame_showRateLimitMessage. Qed.

Lemma framesKept_startRateLimitCountdown st :
  framesKept (page st) (page (startRateLimitCountdown st)).
Proof.
  unfold startRateLimitCountdown.
  destruct (countdownInterval (rateLimitState st));
    apply framesKept_onCards, sameFrame_showRateLimitMessage.
Qed.

Lemma framesKept_addPendingCard card st :
  framesKept (page st) (page (addPendingCard card st)).
Proof.
  unfold addPendingCard. break_match; [|apply framesKept_refl].
  apply framesKept_onCard, sameFrame_showRateLimitMessage.
Qed.

Lemma framesKept_currentPricesFailed e st :
  framesKept (page st) (page (snd (currentPricesFailed e st))).
Proof.
  unfold currentPricesFailed.
  destruct (detect_frame (errorMessage e) st) as (_ & _ & _ & _ & Hp & _).
  destruct (detectRateLimitFromError (errorMessage e) st) as [limited st0].
  cbn [snd] in Hp. rewrite <- Hp.
  destruct limited; [|apply framesKept_refl]. cbn [snd].
  break_match; [apply framesKept_refl | apply framesKept_startRateLimitCountdown].
Qed.

Lemma framesKept_historicalPriceFailed e card st :
  framesKept (page st) (page (snd (historicalPriceFailed e card st))).
Proof.
  unfold historicalPriceFailed.
  destruct (detect_frame (errorMessage e) st) as (_ & _ & _ & _ & Hp & _).
  destruct (detectRateLimitFromError (errorMessage e) st) as [limited st0].
  cbn [snd] in Hp. rewrite <- Hp.
  destruct limited; [|apply framesKept_refl]. cbn [snd].
  assert (framesKept (page st0)
            (page (match card with
                   | Some card => addPendingCard card st0
                   | None => st0
                   end))) as Ha
    by (destruct card; [apply framesKept_addPendingCard | apply framesKept_refl]).
  break_match; [exact Ha|].
  eapply framesKept_trans; [exact Ha | apply framesKept_startRateLimitCountdown].
Qed.

Lemma page_request url st :
  page (emit (Requested url (now (recordRequest (addRequestDelay (checkRateLimit st)))))
             (recordRequest (addRequestDelay (checkRateLimit st)))) = page st.
Proof.
  cbn. unfold addRequestDelay, checkRateLimit. repeat break_match; reflexivity.
Qed.

Lemma framesKept_getCurrentPriceForAllCurrencies resp st :
  framesKept (page st) (page (snd (getCurrentPriceForAllCurrencies resp st))).
Proof.
  unfold getCurrentPriceForAllCurrencies.
  destruct (isCurrentPriceCacheValid st); [apply framesKept_refl|].
  rewrite <- (page_request currentPricesUrl st) at 1.
  set (st1 := emit _ _). clearbody st1.
  destruct resp as [e|status body].
  - apply framesKept_currentPricesFailed.
  - destruct (negb (ok status)).
    + destruct (status =? 429) eqn:E.
      * apply framesKept_startRateLimitCountdown.
      * unfold handleRateLimit. rewrite E. apply framesKept_currentPricesFailed.
    + destruct body as [bitcoin|e];
        [apply framesKept_refl | apply framesKept_currentPricesFailed].
Qed.

Lemma framesKept_getHistoricalPrice d c card resp st :
  framesKept (page st) (page (snd (getHistoricalPrice d c card resp st))).
Proof.
  unfold getHistoricalPrice.
  destruct (convertFirefishDateToCoinGecko d) as [cg|]; [|apply framesKept_refl].
  destruct (historical (priceCache st) !! cacheKey cg c) as [entry|];
    [apply framesKept_refl|].
  rewrite <- (page_request (historyUrl cg) st) at 1.
  set (st1 := emit _ _). clearbody st1.
  destruct resp as [e|status body].
  - apply framesKept_historicalPriceFailed.
  - destruct (negb (ok status)).
    + destruct (status =? 429) eqn:E.
      * cbn [snd]. eapply framesKept_trans; [|apply framesKept_startRateLimitCountdown].
        destruct card; [apply framesKept_addPendingCard | apply framesKept_refl].
      * unfold handleRateLimit. rewrite E. apply framesKept_historicalPriceFailed.
    + destruct body as [[current_price|]|e];
        try apply framesKept_historicalPriceFailed.
      cbn [snd]. destruct card; apply framesKept_refl.
Qed.

(** What the coordinator looks like after a lookup that found it idle. *)
Lemma getCurrentPrice_some_coordinator resp st prices st1 :
  getCurrentPriceForAllCurrencies resp st = (Some prices, st1) ->
  rateLimitState st1 = rateLimitState st.
Proof.
  unfold getCurrentPriceForAllCurrencies.
  destruct (isCurrentPriceCacheValid st); [now intros [= _ <-]|].
  set (st0 := emit _ _).
  assert (rateLimitState st0 = rateLimitState st) as Hp0.
  { subst st0. cbn. unfold addRequestDelay, checkRateLimit.
    repeat break_match; reflexivity. }
  assert (forall e s, currentPricesFailed e s <> (Some prices, st1)) as Hfail.
  { intros e s E. pose proof (currentPricesFailed_null e s) as N.
    rewrite E in N. discriminate. }
  destruct resp as [e|status body]; [intros E; now apply Hfail in E|].
  destruct (negb (ok status)).
  - destruct (status =? 429) eqn:E429; [discriminate|].
    unfold handleRateLimit. rewrite E429. intros E. now apply Hfail in E.
  - destruct body as [bitcoin|e]; [|intros E; now apply Hfail in E].
    intros [= _ <-]. exact Hp0.
Qed.

Lemma historicalPriceFailed_pending e card st :
  isRateLimited (rateLimitState st) = false ->
  isRateLimited (rateLimitState (snd (historicalPriceFailed e (Some card) st))) = true ->
  In card (pendingCards (rateLimitState (snd (historicalPriceFailed e (Some card) st)))).
Proof.
  unfold historicalPriceFailed.
  destruct (detect_frame (errorMessage e) st) as (Hr & _).
  destruct (detectRateLimitFromError (errorMessage e) st) as [limited st0].
  cbn [snd] in Hr. intros Hidle.
  destruct limited; cbn [snd]; [|now rewrite Hr, Hidle].
  assert (In card (pendingCards (rateLimitState (addPendingCard card st0)))) as Hin
    by (unfold addPendingCard; break_match; apply setAdd_In).
  break_match; [auto|]. intros _.
  destruct (startRateLimitCountdown_coordinator (addPendingCard card st0))
    as (_ & _ & ->). exact Hin.
Qed.

(** A lookup that leaves the coordinator rate limited, having found it
    idle, has put its card among the pending ones. *)
Lemma getHistoricalPrice_pending d c card resp st :
  isRateLimited (rateLimitState st) = false ->
  isRateLimited (rateLimitState (snd (getHistoricalPrice d c (Some card) resp st))) = true ->
  In card (pendingCards (rateLimitState (snd (getHistoricalPrice d c (Some card) resp st)))).
Proof.
  intros Hidle. unfold getHistoricalPrice.
  destruct (convertFirefishDateToCoinGecko d) as [cg|]; [|cbn [snd]; congruence].
  destruct (historical (priceCache st) !! cacheKey cg c) as [entry|];
    [cbn [snd]; congruence|].
  set (st1 := emit _ _).
  assert (rateLimitState st1 = rateLimitState st) as H1.
  { subst st1. cbn. unfold addRequestDelay, checkRateLimit.
    repeat break_match; reflexivity. }
  rewrite <- H1 in Hidle. clearbody st1.
  destruct resp as [e|status body].
  - now apply historicalPriceFailed_pending.
  - destruct (negb (ok status)).
    + destruct (status =? 429) eqn:E.
      * cbn [snd]. intros _.
        destruct (startRateLimitCountdown_coordinator (addPendingCard card st1))
          as (_ & _ & ->).
        unfold addPendingCard. break_match; apply setAdd_In.
      * unfold handleRateLimit. rewrite E. now apply historicalPriceFailed_pending.
    + destruct body as [[current_price|]|e];
        try (now apply historicalPriceFailed_pending).
      cbn [snd]. unfold removePendingCard. cbn. congruence.
Qed.

End Frames.

Section Outcomes.
Import Timers Display RateLimit ApiClient Analyzer EventLoop.
Context `{Intl}.

Lemma settle_error m card st c :
  page st !! card = Some c -> hasDetails c = true ->
  exists c', page (onCardSt (showFirefishError m) card st) !! card = Some c' /\
             widgets c' = WError m :: removeDisplays true true false (widgets c) /\
             processed c' = processed c.
Proof.
  intros Hc Hd. exists (showFirefishError m c). split.
  - unfold onCardSt, onCard. cbn [page set_page]. now rewrite lookup_alter_eq, Hc.
  - unfold showFirefishError, insertAfterDetails. rewrite Hd. now split.
Qed.

(** The card when the pipeline has marked it and shown the loading
    display. *)
Lemma marked_card card st c :
  page st !! card = Some c ->
  exists c0, page (markAndShowLoading card st) !! card = Some c0 /\
             hasDetails c0 = hasDetails c /\ processed c0 = true.
Proof.
  intros Hc. exists (showFirefishLoadingState (set_processed true c)). split.
  - unfold markAndShowLoading, onCardSt, onCard. cbn [page set_page].
    now rewrite !lookup_alter_eq, Hc.
  - now rewrite hasDetails_showFirefishLoadingState, processed_showFirefishLoadingState.
Qed.

End Outcomes.

Section LoopOutcome.
Import Timers Display RateLimit ApiClient Analyzer EventLoop.
Context `{Intl}.



(** X11.  A 429 on the request for the current prices fails the card: it gets
    the error display and is not put among the pending cards, so the
    resubmission after the cooldown does not include it. *)
Theorem throttled_current_prices_fail_the_card card c loanData body rh st :
  page st !! card = Some c -> processed c = false -> hasDetails c = true ->
  extracted c = Some loanData -> isValid loanData = true ->
  isCurrentPriceCacheValid st = false ->
  let st' := processFirefishLoanCard card (Http 429 body) rh st in
  isRateLimited (rateLimitState st') = true /\
  pendingCards (rateLimitState st') = pendingCards (rateLimitState st) /\
  exists c' ws, page st' !! card = Some c' /\ processed c' = true /\
                widgets c' = WError "Failed to fetch current BTC prices" :: ws.
Proof.
  intros Hc Hproc Hdet Hext Hvalid Hinvalid st'. subst st'.
  unfold processFirefishLoanCard. rewrite Hc, Hproc, Hext, Hvalid. cbn [negb].
  fold (markAndShowLoading card st).
  destruct (marked_card card st c Hc) as (c0 & Hc0 & Hd0 & Hp0).
  rewrite Hdet in Hd0.
  assert (rateLimitState (markAndShowLoading card st) = rateLimitState st) as Hr0
    by reflexivity.
  assert (isCurrentPriceCacheValid (markAndShowLoading card st) = false) as Hi0
    by exact Hinvalid.
  set (st0 := markAndShowLoading card st) in *. clearbody st0.
  unfold getCurrentPriceForAllCurrencies. rewrite Hi0.
  change (negb (ok 429)) with true. change (429 =? 429) with true. cbv iota.
  set (st1 := emit _ _).
  assert (rateLimitState st1 = rateLimitState st0 /\ page st1 = page st0) as [Hr1 Hp1].
  { subst st1. cbn. unfold addRequestDelay, checkRateLimit.
    repeat break_match; now split. }
  clearbody st1.
  destruct (startRateLimitCountdown_coordinator st1) as (Hl & _ & Hpend).
  pose proof (framesKept_startRateLimitCountdown st1) as K.
  rewrite Hp1 in K.
  destruct (K card c0 Hc0) as (c1 & Hc1 & _ & _ & Hd1 & _ & Hpr1).
  destruct (settle_error "Failed to fetch current BTC prices" card
              (startRateLimitCountdown st1) c1 Hc1 ltac:(congruence))
    as (c' & Hc' & Hw & Hp').
  split; [exact Hl|].
  split; [change (pendingCards (rateLimitState (startRateLimitCountdown st1))
                  = pendingCards (rateLimitState st)); rewrite Hpend; congruence|].
  exists c', (removeDisplays true true false (widgets c1)).
  split; [exact Hc'|]. split; [congruence | exact Hw].
Qed.

End LoopOutcome.

Section RateLimitElements.
Import Timers Display RateLimit ApiClient Analyzer EventLoop.

Lemma onCards_lookup f cards p card :
  List.NoDup cards ->
  onCards f cards p !! card
  = if List.existsb (Nat.eqb card) cards then f <$> p !! card else p !! card.
Proof.
  unfold onCards. revert p. induction cards as [|k cards IH]; intros p Hnd;
    [reflexivity|].
  inversion Hnd as [|? ? Hk Hnd']; subst. cbn [List.fold_left List.existsb].
  rewrite (IH _ Hnd'). unfold onCard.
  destruct (Nat.eqb_spec card k) as [->|Hne]; cbn [orb].
  - assert (List.existsb (Nat.eqb k) cards = false) as ->.
    { apply not_true_is_false. intros E. apply List.existsb_exists in E as (y & Hy & Ey).
      apply Nat.eqb_eq in Ey. now subst. }
    now rewrite lookup_alter_eq.
  - now rewrite lookup_alter_ne by congruence.
Qed.

Lemma existsb_In card cards : In card cards -> List.existsb (Nat.eqb card) cards = true.
Proof.
  intros Hin. apply List.existsb_exists. exists card. split; [exact Hin|].
  apply Nat.eqb_refl.
Qed.

Lemma rateLimitElements_removeDisplays l r e c :
  rateLimitElements (set_widgets (removeDisplays l r e (widgets c)) c)
  = rateLimitElements c.
Proof.
  unfold rateLimitElements, removeDisplays. cbn [widgets set_widgets].
  induction (widgets c) as [|w ws IH]; [reflexivity|].
  cbn [List.flat_map]. rewrite List.filter_app, List.length_app, IH.
  destruct w; cbn; try reflexivity;
    [destruct l | destruct r | destruct e]; reflexivity.
Qed.

(** Each rate-limit message adds an element and removes none. *)
Lemma rateLimitElements_showRateLimitMessage m c :
  hasDetails c = true ->
  rateLimitElements (showRateLimitMessage m c) = S (rateLimitElements c).
Proof.
  intros Hd. unfold showRateLimitMessage, insertAfterDetails. rewrite Hd.
  pose proof (rateLimitElements_removeDisplays true true true c) as Hr.
  unfold rateLimitElements in *. cbn [widgets set_widgets List.filter List.length] in *.
  now rewrite Hr.
Qed.

Lemma rateLimitElements_removeFirst c :
  rateLimitElements (set_widgets (removeFirstRateLimited (widgets c)) c)
  = pred (rateLimitElements c).
Proof.
  unfold rateLimitElements. cbn [widgets set_widgets].
  induction (widgets c) as [|w ws IH]; [reflexivity|].
  destruct w; cbn [removeFirstRateLimited List.filter List.length]; try exact IH.
  reflexivity.
Qed.

Lemma updateRateLimitDisplay_elements r st card c :
  List.NoDup (pendingCards (rateLimitState st)) ->
  In card (pendingCards (rateLimitState st)) ->
  page st !! card = Some c -> hasDetails c = true ->
  exists c', page (updateRateLimitDisplay r st) !! card = Some c' /\
             hasDetails c' = true /\
             rateLimitElements c' = S (rateLimitElements c).
Proof.
  intros Hnd Hin Hc Hd. unfold updateRateLimitDisplay. cbn [page set_page].
  rewrite (onCards_lookup _ _ _ _ Hnd), (existsb_In _ _ Hin), Hc. cbn.
  eexists. split; [reflexivity|]. split; [exact Hd|].
  now apply rateLimitElements_showRateLimitMessage.
Qed.

Lemma resolveRateLimit_page st :
  page (resolveRateLimit st)
  = onCards (fun c => set_widgets (removeFirstRateLimited (widgets c)) c)
            (pendingCards (rateLimitState st)) (page st).
Proof.
  unfold resolveRateLimit. repeat break_match; try reflexivity.
  all: destruct c; reflexivity.
Qed.

(** X12.  The countdown piles up rate-limit elements: every update of the
    display adds one to a pending card and removes none, and
    [resolveRateLimit] removes one.  After [n] updates and the resolution
    a card that had none keeps [n - 1] of them. *)
Theorem rate_limit_elements_pile_up (rs : list (option Z)) st card c :
  List.NoDup (pendingCards (rateLimitState st)) ->
  In card (pendingCards (rateLimitState st)) ->
  page st !! card = Some c -> hasDetails c = true ->
  let st1 := List.fold_left (fun s r => updateRateLimitDisplay r s) rs st in
  let st2 := resolveRateLimit st1 in
  exists c1 c2,
    page st1 !! card = Some c1 /\
    rateLimitElements c1 = (rateLimitElements c + List.length rs)%nat /\
    page st2 !! card = Some c2 /\
    rateLimitElements c2 = pred (rateLimitElements c + List.length rs).
Proof.
  intros Hnd Hin Hc Hd st1 st2.
  assert (exists c1, page st1 !! card = Some c1 /\ hasDetails c1 = true /\
                     rateLimitElements c1 = (rateLimitElements c + List.length rs)%nat /\
                     pendingCards (rateLimitState st1) = pendingCards (rateLimitState st))
    as (c1 & Hc1 & Hd1 & He1 & Hp1).
  { subst st1 st2. revert st c Hnd Hin Hc Hd.
    induction rs as [|r rs IH]; intros st c Hnd Hin Hc Hd; cbn [List.fold_left List.length].
    - exists c. repeat split; [exact Hc | exact Hd | lia].
    - destruct (updateRateLimitDisplay_elements r st card c Hnd Hin Hc Hd)
        as (c' & Hc' & Hd' & He').
      destruct (IH (updateRateLimitDisplay r st) c' Hnd Hin Hc' Hd')
        as (c1 & Hc1 & Hd1 & He1 & Hp1).
      exists c1. repeat split; [exact Hc1 | exact Hd1 | lia | exact Hp1]. }
  exists c1. eexists. split; [exact Hc1|]. split; [exact He1|].
  subst st2. rewrite resolveRateLimit_page, Hp1.
  rewrite (onCards_lookup _ _ _ _ Hnd), (existsb_In _ _ Hin), Hc1. cbn [fmap option_fmap option_map].
  split; [reflexivity|].
  now rewrite rateLimitElements_removeFirst, He1.
Qed.

End RateLimitElements.

(** ** The general cache *)

Section CacheFacts.

(** X13.  A value is read back until its expiry time, exclusive; the first read
    at or after it returns null and evicts the entry. *)
Theorem cache_round_trip (key : string) (v : Stored) (e t t' : Z) (data : Cache.t) :
  let data1 := Cache.set key v e t data in
  (t' < t + e -> Cache.get key t' data1 = (Some v, data1)) /\
  (t + e <= t' -> Cache.get key t' data1 = (None, delete key data)) /\
  (forall other, other <> key ->
     fst (Cache.get other t' data1) = fst (Cache.get other t' data)).
Proof.
  intros data1. subst data1. unfold Cache.get, Cache.set.
  rewrite lookup_insert_eq. cbn [Cache.expiry Cache.value].
  repeat split.
  - intros Hlt. apply Z.ltb_lt in Hlt. now rewrite Hlt.
  - intros Hge. apply Z.ltb_ge in Hge. rewrite Hge. now rewrite delete_insert_eq.
  - intros other Hne. rewrite lookup_insert_ne by congruence.
    destruct (data !! other) as [item|]; [|reflexivity].
    destruct (t' <? Cache.expiry item); reflexivity.
Qed.

(** X14.  A price that was fetched is served from the cache, without a request,
    to every call less than five minutes after it was received; a call at
    or after that asks the network again. *)
Theorem getPrice_served_from_cache
    (symbol : string) (status : Z) (d : SimplePrices) (coin : gmap string float)
    (p : float) (resp' : Response SimplePrices)
    (now received later received' : Z) (data : gmap string Cache.Item) :
  data !! ("price_" ++ symbol)%string = None ->
  d !! symbol = Some coin -> coin !! "usd"%string = Some p ->
  JS.truthyNum p = true ->
  let first := getPrice symbol (Http status (Json d)) now received data in
  let again := getPrice symbol resp' later received' (cacheAfter first) in
  result first = Some (SNumber p) /\ requested first = true /\
  (later < received + cacheExpiry ->
   again = {| result := Some (SNumber p); cacheAfter := cacheAfter first;
              requested := false |}) /\
  (received + cacheExpiry <= later -> requested again = true).
Proof.
  intros Hmiss Hcoin Husd Htruthy first again.
  assert (first = {| result := Some (SNumber p);
                     cacheAfter := Cache.set ("price_" ++ symbol) (SNumber p) cacheExpiry
                                     received (delete ("price_" ++ symbol)%string data);
                     requested := true |}) as Hfirst.
  { subst first. unfold getPrice, Cache.get. rewrite Hmiss, Hcoin, Husd, Htruthy.
    reflexivity. }
  subst again. rewrite Hfirst. cbn [result requested cacheAfter].
  split; [reflexivity|]. split; [reflexivity|].
  unfold getPrice, Cache.get, Cache.set. rewrite lookup_insert_eq.
  cbn [Cache.expiry Cache.value]. split.
  - intros Hlt. apply Z.ltb_lt in Hlt. rewrite Hlt. cbn [truthyStored].
    now rewrite Htruthy.
  - intros Hge. apply Z.ltb_ge in Hge. rewrite Hge.
    destruct resp' as [e|st [body|e]]; try reflexivity.
    destruct (body !! symbol) as [c|]; [|reflexivity].
    destruct (c !! "usd"%string) as [q|]; [|reflexivity].
    destruct (JS.truthyNum q); reflexivity.
Qed.

End CacheFacts.

(** ** Debounced calls *)

Section DebounceFacts.
Import Debounce.
Context {A : Type}.

Implicit Types (a : A) (st : Closure A).

Lemma elapse_armed_before wait t a st t' :
  armed wait t a st -> t' < t + wait -> elapse t' st = st.
Proof.
  intros (i & Hp & _) Hlt. unfold elapse. rewrite Hp. cbn.
  rewrite Hp. cbn. now apply Z.leb_gt in Hlt as ->.
Qed.

Lemma executedFunction_armed wait t a st t' a' :
  armed wait t a st -> armed wait t' a' (executedFunction wait a' t' st).
Proof.
  intros (i & Hp & Ht & Hi). exists (nextId st).
  unfold executedFunction. rewrite Hp, Ht, Hi. cbn. rewrite Nat.eqb_refl. cbn.
  now repeat split.
Qed.

Lemma calls_cons wait (c : Z * A) cs st :
  calls wait (c :: cs) st
  = calls wait cs (executedFunction wait (snd c) (fst c) (elapse (fst c) st)).
Proof. reflexivity. Qed.

Lemma calls_armed wait cs t a st :
  armed wait t a st -> burst wait t cs = true ->
  armed wait (fst (List.last cs (t, a))) (snd (List.last cs (t, a))) (calls wait cs st).
Proof.
  revert t a st. induction cs as [|[t1 a1] cs IH]; intros t a st Harm Hb; [exact Harm|].
  cbn [burst fst] in Hb.
  apply andb_true_iff in Hb as [Hb Hrest]. apply andb_true_iff in Hb as [H1 H2].
  apply Z.ltb_lt in H2.
  rewrite calls_cons. cbn [fst snd].
  rewrite (elapse_armed_before wait t a st t1 Harm H2).
  pose proof (executedFunction_armed wait t a st t1 a1 Harm) as Harm1.
  specialize (IH t1 a1 _ Harm1 Hrest).
  destruct cs as [|c cs]; [exact IH|].
  change (List.last ((t1, a1) :: c :: cs) (t, a)) with (List.last (c :: cs) (t, a)).
  replace (List.last (c :: cs) (t, a)) with (List.last (c :: cs) (t1, a1)); [exact IH|].
  clear. revert c. induction cs as [|d cs IH]; intros c; [reflexivity|].
  change (List.last (c :: d :: cs) (t1, a1)) with (List.last (d :: cs) (t1, a1)).
  change (List.last (c :: d :: cs) (t, a)) with (List.last (d :: cs) (t, a)).
  apply IH.
Qed.

(** X15.  A burst of calls, each less than [wait] after the one before, invokes
    the function once: [wait] after the last call, with the arguments of
    the last call, and not before. *)
Theorem debounce_burst (wait : Z) (t0 : Z) (a0 : A) (cs : list (Z * A)) (finish : Z) :
  burst wait t0 cs = true ->
  let last := List.last cs (t0, a0) in
  let st := elapse finish (calls wait ((t0, a0) :: cs) initial) in
  invoked st = if finish <? fst last + wait then []
               else [(fst last + wait, snd last)].
Proof.
  intros Hb last st. subst st.
  assert (armed wait t0 a0 (executedFunction wait a0 t0 (elapse t0 initial))) as H0.
  { exists 1%nat. now repeat split. }
  rewrite calls_cons. cbn [fst snd].
  pose proof (calls_armed wait cs t0 a0 _ H0 Hb) as Harm. fold last in Harm.
  set (st1 := calls wait cs _) in *. clearbody st1.
  destruct (Z.ltb_spec finish (fst last + wait)) as [Hlt|Hge].
  - rewrite (elapse_armed_before wait _ _ st1 finish Harm Hlt).
    now destruct Harm as (i & _ & _ & ->).
  - destruct Harm as (i & Hp & Ht & Hi). unfold elapse. rewrite Hp. cbn.
    rewrite Hp. cbn. apply Z.leb_le in Hge. rewrite Hge. cbn. now rewrite Hi.
Qed.

End DebounceFacts.

(** ** The start of the extension *)

Section StartupFacts.
Import Startup.

Lemma schedule_S t0 n : schedule t0 (S n) = t0 :: schedule (t0 + 2000) n.
Proof.
  unfold schedule. cbn [List.seq List.map]. f_equal; [lia|].
  rewrite <- List.seq_shift, List.map_map. apply List.map_ext. intros k. lia.
Qed.

Lemma attempts_S fuel validAt now st :
  attempts (S fuel) validAt now st
  = match retryAt (initializeFirefish (validAt now) now st) with
    | Some t => attempts fuel validAt t (initializeFirefish (validAt now) now st)
    | None => initializeFirefish (validAt now) now st
    end.
Proof. reflexivity. Qed.

Lemma attempts_from (validAt : Z -> bool) m : forall extra now st,
  (retryCount st + S m = MAX_RETRIES)%nat -> isInitialized st = false ->
  let st' := attempts (S m + extra) validAt now st in
  isInitialized st' = List.existsb validAt (schedule now (S m)) /\
  retryAt st' = None /\
  (List.length (validations st') <= List.length (validations st) + S m)%nat /\
  (List.existsb validAt (schedule now (S m)) = false ->
   validations st' = List.rev (schedule now (S m)) ++ validations st /\
   retryCount st' = MAX_RETRIES).
Proof.
  induction m as [|m IH]; intros extra now st Hk Hinit st'; subst st';
    rewrite schedule_S; change (S ?n + extra)%nat with (S (n + extra));
    rewrite attempts_S; cbn [List.existsb List.rev];
    unfold initializeFirefish; destruct (validAt now) eqn:Ev; cbn [negb orb].
  - cbn [retryAt isInitialized validations List.length].
    split; [reflexivity|]. split; [reflexivity|]. split; [lia | discriminate].
  - assert (Nat.leb MAX_RETRIES (S (retryCount st)) = true) as ->
      by (apply Nat.leb_le; lia).
    cbn [retryAt isInitialized validations retryCount schedule List.seq List.map
         List.existsb List.rev List.app List.length].
    split; [exact Hinit|]. split; [reflexivity|]. split; [lia|]. intros _.
    split; [reflexivity | lia].
  - cbn [retryAt isInitialized validations List.length].
    split; [reflexivity|]. split; [reflexivity|]. split; [lia | discriminate].
  - assert (Nat.leb MAX_RETRIES (S (retryCount st)) = false) as ->
      by (apply Nat.leb_gt; unfold MAX_RETRIES in *; lia).
    cbn [retryAt].
    set (st1 := {| retryCount := S (retryCount st) |}).
    destruct (IH extra (now + 2000) st1) as (Hi & Hr & Hl & Hv);
      [subst st1; cbn; lia | exact Hinit |].
    split; [exact Hi|]. split; [exact Hr|].
    split; [etransitivity; [exact Hl|]; subst st1; cbn [validations List.length]; lia|].
    intros Hnone. destruct (Hv Hnone) as [Hval Hcount].
    split; [|exact Hcount]. rewrite Hval. subst st1. cbn [validations].
    now rewrite <- List.app_assoc.
Qed.

(** X16.  The start gives up after ten validations: they are two seconds apart,
    the script is initialized exactly when one of them succeeds, and no
    retry is left pending.  On a page that never validates the last
    attempt is made eighteen seconds after the first. *)
Theorem initializeFirefish_gives_up (validAt : Z -> bool) (t0 : Z) (extra : nat) :
  let st := attempts (MAX_RETRIES + extra) validAt t0 initial in
  isInitialized st = List.existsb validAt (schedule t0 MAX_RETRIES) /\
  retryAt st = None /\
  (List.length (validations st) <= MAX_RETRIES)%nat /\
  (List.existsb validAt (schedule t0 MAX_RETRIES) = false ->
   validations st = List.rev (schedule t0 MAX_RETRIES) /\
   List.hd 0 (validations st) = t0 + 18000).
Proof.
  intros st.
  destruct (attempts_from validAt 9 extra t0 initial eq_refl eq_refl)
    as (Hi & Hr & Hl & Hv).
  change (attempts (10 + extra) validAt t0 initial) with st in Hi, Hr, Hl, Hv.
  change MAX_RETRIES with 10%nat.
  split; [exact Hi|]. split; [exact Hr|]. split; [exact Hl|].
  intros Hnone. destruct (Hv Hnone) as [Hval _].
  rewrite List.app_nil_r in Hval. split; [exact Hval|].
  rewrite Hval. cbn. lia.
Qed.

End StartupFacts.

(** ** Detection and extraction *)

Example extract_sample :
  Detector.extractFirefishLoanData sampleCard
  = Some {| currency := "EUR"; loanAmount := 10000; interestRate := 12.5;
            provisionDate := "24 Nov 2024"; collateralBTC := 0.25891;
            isValid := true |}.
Proof. vm_compute. reflexivity. Qed.

Example parseFloat_forms :
  List.map (fun s => Text.parseFloat (list_ascii_of_string s))
    ["12.5"; " -3.25e2x"; "1e3"; "1e"; ".5"; "5."; "1.5E-1"; "abc"; "-Infinityx"; "+7"]%string
  = [12.5; -325; 1000; 1; 0.5; 5; 0.15; nan; neg_infinity; 7]%float.
Proof. vm_compute. reflexivity. Qed.

(** [NaN] is one value: a number that [isNaN] accepts is [nan]. *)
Lemma SFcompare_refl_not_nan x :
  x <> S754_nan -> SFeqb x x = true.
Proof.
  intros Hx. unfold SFeqb, SFcompare.
  destruct x as [s|s| |s m e]; try (destruct s; reflexivity); [now elim Hx|].
  destruct s.
  - rewrite Z.compare_refl. rewrite Pos.compare_cont_refl. reflexivity.
  - rewrite Z.compare_refl. rewrite Pos.compare_cont_refl. reflexivity.
Qed.

Lemma is_nan_eq (x : float) : PrimFloat.is_nan x = true -> x = nan.
Proof.
  unfold PrimFloat.is_nan. rewrite FloatAxioms.eqb_spec. intros H.
  apply negb_true_iff in H.
  destruct (Prim2SF x) eqn:E;
    try (rewrite SFcompare_refl_not_nan in H by discriminate; discriminate).
  rewrite <- (FloatAxioms.SF2Prim_Prim2SF x), E. reflexivity.
Qed.

Section ExtractionFacts.
Import Text Detector.

(** What [interestOf] returns is null or a number. *)
Lemma interestOf_truthy titles :
  JS.truthy (interestOf titles) = true ->
  exists f, interestOf titles = JS.VNum f /\ JS.truthyNum f = true.
Proof.
  destruct (interestOf titles) as [| |f]; try discriminate.
  intros Hf. now exists f.
Qed.

Lemma matchAmount_currency s cur digits :
  matchAmount s = Some (cur, digits) ->
  List.length cur = 3%nat /\ List.forallb isUpper cur = true /\ digits <> [].
Proof.
  unfold matchAmount. destruct s as [|a [|b [|c r]]]; try discriminate.
  destruct (isUpper a && isUpper b && isUpper c) eqn:E; [|discriminate].
  destruct (spaces r) as [r'|]; [|discriminate].
  destruct (span _ r') as [[|d ds] rest]; [discriminate|].
  intros [= <- <-]. split; [reflexivity|]. split; [|discriminate].
  cbn. now rewrite andb_true_r, andb_assoc.
Qed.

Lemma length_string_of_list_ascii (l : list ascii) :
  String.length (string_of_list_ascii l) = List.length l.
Proof. induction l as [|c l IH]; cbn; [reflexivity | now rewrite IH]. Qed.

(** X17.  The data of a card that yields some: the card is not pending, the
    currency is three capital letters, the amount, the rate and the
    collateral are numbers other than zero, the date is not empty, and
    the data are marked valid. *)
Theorem extractFirefishLoanData_valid (card : LoanCard) (data : LoanData) :
  extractFirefishLoanData card = Some data ->
  isPending card = false /\
  isValid data = true /\
  String.length (currency data) = 3%nat /\
  List.forallb isUpper (list_ascii_of_string (currency data)) = true /\
  JS.truthyNum (loanAmount data) = true /\
  JS.truthyNum (interestRate data) = true /\
  JS.truthyNum (collateralBTC data) = true /\
  String.eqb (provisionDate data) "" = false.
Proof.
  unfold extractFirefishLoanData.
  destruct (isPending card); [discriminate|].
  destruct (matchAmount _) as [[cur digits]|] eqn:Em; [|discriminate].
  destruct (matchAmount_currency _ _ _ Em) as (Hlen & Hup & _).
  destruct (_ || _ || _ || _ || _) eqn:Echeck; [discriminate|].
  apply orb_false_iff in Echeck as [Echeck Hcoll].
  apply orb_false_iff in Echeck as [Echeck Hdate].
  apply orb_false_iff in Echeck as [Echeck Hrate].
  apply orb_false_iff in Echeck as [_ Hamount].
  apply negb_false_iff in Hamount, Hrate, Hcoll.
  intros [= <-]. cbn [currency loanAmount interestRate provisionDate collateralBTC isValid].
  split; [reflexivity|]. split; [reflexivity|].
  split; [now rewrite length_string_of_list_ascii|].
  split; [now rewrite list_ascii_of_string_of_list_ascii|].
  split; [exact Hamount|].
  split; [destruct (interestOf _) as [| |f]; try discriminate; exact Hrate|].
  split; [destruct (collateralOf card) as [| |f]; try discriminate; exact Hcoll|].
  destruct (dateOf _) as [d|]; [exact Hdate | discriminate].
Qed.

End ExtractionFacts.

Section DetectorFacts.
Import JS Utils AmountSpec ApiClient Text Detector.

Lemma startsWith_upper needle hay :
  List.forallb (fun c => Ascii.eqb (upperChar c) c) needle = true ->
  startsWith needle hay = true ->
  startsWith needle (List.map upperChar hay) = true.
Proof.
  revert hay. induction needle as [|a n IH]; intros [|b h] Hn; cbn; try easy.
  apply andb_true_iff in Hn as [Ha Hn].
  intros Hs. apply andb_true_iff in Hs as [Hab Hs].
  apply Ascii.eqb_eq in Hab as <-. rewrite Ascii.eqb_sym, Ha. cbn. auto.
Qed.

Lemma includesChars_upper needle hay :
  List.forallb (fun c => Ascii.eqb (upperChar c) c) needle = true ->
  includesChars needle hay = true ->
  includesChars needle (List.map upperChar hay) = true.
Proof.
  intros Hn. induction hay as [|b h IH].
  - cbn. rewrite !orb_false_r. intros Hs. now apply (startsWith_upper needle []).
  - cbn [includesChars List.map]. intros Hs.
    apply orb_true_iff in Hs as [Hs|Hs].
    + apply (startsWith_upper _ _ Hn) in Hs. cbn [List.map] in Hs.
      rewrite Hs. reflexivity.
    + rewrite (IH Hs). apply orb_true_r.
Qed.

Lemma includes_toUpperCase hay needle :
  List.forallb (fun c => Ascii.eqb (upperChar c) c) (list_ascii_of_string needle) = true ->
  includes hay needle = true ->
  includes (toUpperCase hay) needle = true.
Proof.
  unfold includes, toUpperCase. rewrite list_ascii_of_string_of_list_ascii.
  apply includesChars_upper.
Qed.

Lemma toUpperCase_empty s : String.eqb s "" = false -> String.eqb (toUpperCase s) "" = false.
Proof. destruct s; [discriminate|reflexivity]. Qed.

Lemma detector_pending_aggregator_pending (card : LoanCard) :
  Detector.isPending card = true -> UiEnhancer.isPending (cardDomOf card) = true.
Proof.
  unfold Detector.isPending, UiEnhancer.isPending. cbn [bodyTexts cardDomOf].
  intros Hp. apply existsb_exists in Hp as (t & Hin & Ht).
  apply existsb_exists. exists t. split; [exact Hin|].
  apply andb_true_iff in Ht as [Hne Hinc].
  apply andb_true_iff. split; [exact Hne|].
  apply includes_toUpperCase; [reflexivity | exact Hinc].
Qed.

(** X18.  The aggregator looks for "PENDING" in any case, the detector for the
    capitals only: a card the detector skips as pending is never among the
    loans the dashboard counts, so the dashboard counts at most the cards
    that are not pending for the detector. *)
Theorem totalLoans_skips_detector_pending (cards : list LoanCard) :
  (totalLoans (UiEnhancer.aggregatePortfolioData (List.map cardDomOf cards))
   <= List.length (List.filter (fun card => negb (Detector.isPending card)) cards))%nat
  /\ forall card, In card cards -> Detector.isPending card = true ->
       ~ In (cardDomOf card)
            (List.filter (fun c => negb (UiEnhancer.isPending c))
                         (List.map cardDomOf cards)).
Proof.
  split.
  - unfold UiEnhancer.aggregatePortfolioData. cbn [totalLoans].
    induction cards as [|card cards IH]; [reflexivity|].
    cbn [List.map List.filter].
    destruct (UiEnhancer.isPending (cardDomOf card)) eqn:Ha; cbn [negb].
    + destruct (negb (Detector.isPending card)); cbn [List.length]; lia.
    + destruct (Detector.isPending card) eqn:Hd.
      * apply detector_pending_aggregator_pending in Hd. congruence.
      * cbn [negb List.length]. lia.
  - intros card _ Hd Hin. apply filter_In in Hin as [_ Hn].
    apply detector_pending_aggregator_pending in Hd. rewrite Hd in Hn. discriminate.
Qed.

(** *** The amount of a card, as the extraction and as the aggregator read it *)

Lemma span_forallb p s :
  List.forallb p (fst (span p s)) = true.
Proof.
  induction s as [|c s IH]; cbn; [reflexivity|].
  destruct (p c) eqn:Hc; [|reflexivity].
  destruct (span p s) as [a b]. cbn in *. now rewrite Hc.
Qed.

Lemma matchAmount_digits s cur digits :
  matchAmount s = Some (cur, digits) ->
  List.forallb (fun d => isDigit d || Ascii.eqb d comma) digits = true /\ digits <> [].
Proof.
  unfold matchAmount. destruct s as [|a [|b [|c r]]]; try discriminate.
  destruct (isUpper a && isUpper b && isUpper c); [|discriminate].
  destruct (spaces r) as [r'|]; [|discriminate].
  pose proof (span_forallb (fun d => isDigit d || Ascii.eqb d comma) r') as Hs.
  destruct (span _ r') as [[|d ds] rest]; [discriminate|].
  intros [= <- <-]. split; [exact Hs | discriminate].
Qed.

Lemma finish_digits s :
  List.forallb (fun c => negb (Ascii.eqb c minus)) s = true ->
  finish s = JS.parseFloat s.
Proof.
  intros Hs. unfold finish.
  assert (dropInnerMinus s = s) as ->.
  { destruct s as [|c s]; [reflexivity|]. cbn in *.
    apply andb_true_iff in Hs as [_ Hs]. f_equal. now apply filter_all. }
  destruct (isNaN (JS.parseFloat s)) eqn:E; [|reflexivity].
  symmetry. now apply is_nan_eq.
Qed.

Lemma digit_or_comma_cases c :
  isDigit c || Ascii.eqb c comma = true ->
  Ascii.eqb c minus = false /\ Ascii.eqb c dot = false /\ Ascii.eqb dot c = false.
Proof.
  destruct c as [[] [] [] [] [] [] [] []]; vm_compute; intuition congruence.
Qed.

(** X19.  When the digits and commas that the extraction takes for the amount
    are the only digits, separators and minus signs of the amount text,
    and they hold no comma or exactly three characters after the last
    comma, the amount the aggregator adds to the portfolio total is the
    loan amount of the extracted data. *)
Theorem portfolio_amount_is_extracted_amount
    (card : LoanCard) (data : LoanData) (text : string) (cur digits : list ascii) :
  extractFirefishLoanData card = Some data ->
  amountElement card = Some text ->
  matchAmount (trimmed text) = Some (cur, digits) ->
  keepNumberChars (JS.trim (chars text)) = digits ->
  count digits comma = 0
  \/ Z.of_nat (List.length digits) - lastIndexOf comma digits - 1 = 3 ->
  Utils.parseNumberFromText text = loanAmount data.
Proof.
  intros He Ha Hm Hk Hshape.
  destruct (matchAmount_digits _ _ _ Hm) as [Hd Hne].
  assert (loanAmount data
          = JS.parseFloat (List.filter (fun c => negb (Ascii.eqb c comma)) digits)) as ->.
  { unfold extractFirefishLoanData in He.
    destruct (isPending card); [discriminate|].
    rewrite Ha, Hm in He.
    destruct (_ || _ || _ || _ || _); [discriminate|].
    now injection He as <-. }
  assert (List.forallb (fun c => negb (Ascii.eqb c minus)) digits = true) as Hnm.
  { eapply forallb_weaken; [|exact Hd]. intros c Hc.
    now destruct (digit_or_comma_cases c Hc) as (-> & _). }
  assert (count digits dot = 0) as Hdots.
  { unfold count. rewrite filter_none; [reflexivity|].
    eapply forallb_weaken; [|exact Hd]. intros c Hc.
    now destruct (digit_or_comma_cases c Hc) as (_ & _ & ->). }
  rewrite (parseNumberFromText_cleaned text digits) by (auto; congruence).
  rewrite Hdots. rewrite andb_false_r. cbn [Z.eqb andb Z.ltb Z.compare].
  rewrite andb_true_r.
  pose proof (count_nonneg comma digits) as Hc0.
  destruct (0 <? count digits comma) eqn:Hc.
  - apply Z.ltb_lt in Hc. destruct Hshape as [Hz|Htr]; [lia|].
    unfold parseCommas. apply Z.eqb_eq in Htr. rewrite Htr.
    rewrite stripThousands_filter.
    apply finish_digits. 
    clear - Hnm. induction digits as [|c s IH]; [reflexivity|].
    cbn in *. apply andb_true_iff in Hnm as [Hc Hs].
    destruct (negb (Ascii.eqb c comma)); cbn; [rewrite Hc|]; auto.
  - apply Z.ltb_ge in Hc.
    assert (count digits comma = 0) as Hz by lia.
    rewrite (filter_all (fun c => negb (Ascii.eqb c comma)))
      by (now apply count_zero_absent).
    now apply finish_digits.
Qed.

(** *** [getAllLoanData] *)

Lemma getAllLoanData_from (k : nat) (cards : list LoanCard) (i : nat) (data : LoanData) :
  In (i, data)
     (List.flat_map
        (fun ic => match extractFirefishLoanData (snd ic) with
                   | Some d => [(fst ic, d)]
                   | None => []
                   end)
        (List.combine (List.seq k (List.length cards)) cards))
  <-> (k <= i)%nat /\ exists card, nth_error cards (i - k) = Some card /\
                          extractFirefishLoanData card = Some data.
Proof.
  revert k. induction cards as [|c cards IH]; intros k.
  - cbn. split; [easy|]. intros [_ (card & Hn & _)]. now destruct (i - k)%nat.
  - cbn [List.length List.seq List.combine List.flat_map]. rewrite in_app_iff, IH.
    cbn [fst snd]. split.
    + intros [Hh|[Hle (card & Hn & He)]].
      * destruct (extractFirefishLoanData c) as [d|] eqn:Ec; [|easy].
        destruct Hh as [[= <- <-]|[]]. split; [lia|].
        exists c. now rewrite Nat.sub_diag.
      * split; [lia|]. exists card. split; [|exact He].
        replace (i - k)%nat with (S (i - S k)) by lia. exact Hn.
    + intros [Hle (card & Hn & He)].
      destruct (Nat.eq_dec i k) as [->|Hne].
      * left. rewrite Nat.sub_diag in Hn. injection Hn as ->. rewrite He. now left.
      * right. split; [lia|]. exists card. split; [|exact He].
        replace (i - k)%nat with (S (i - S k)) in Hn by lia. exact Hn.
Qed.

(** X20.  [getAllLoanData] returns the data of exactly the cards from which the
    extraction yields some, each under the position of its card among the
    detected cards (not among the data returned), and so never more
    entries than cards. *)
Theorem getAllLoanData_entries (cards : list LoanCard) :
  (forall i data,
     In (i, data) (getAllLoanData cards)
     <-> exists card, nth_error cards i = Some card /\
                      extractFirefishLoanData card = Some data)
  /\ (List.length (getAllLoanData cards) <= List.length cards)%nat.
Proof.
  split.
  - intros i data. unfold getAllLoanData. rewrite getAllLoanData_from.
    rewrite Nat.sub_0_r. split; [now intros [_ Hx] | intros Hx; split; [lia | exact Hx]].
  - unfold getAllLoanData. generalize 0%nat.
    induction cards as [|c cards IH]; intros k; [reflexivity|].
    cbn [List.length List.seq List.combine List.flat_map]. rewrite length_app.
    specialize (IH (S k)). cbn [snd].
    destruct (extractFirefishLoanData c); cbn [List.length]; lia.
Qed.

End DetectorFacts.

(** ** One display for each card *)

Section DisplayCounts.
Import Timers Display RateLimit ApiClient Analyzer EventLoop.

Lemma removeDisplays_cons l r e w ws :
  removeDisplays l r e (w :: ws) = removeDisplays l r e [w] ++ removeDisplays l r e ws.
Proof. unfold removeDisplays. cbn [List.flat_map]. now rewrite List.app_nil_r. Qed.

Lemma counts_removeDisplays_all ws :
  List.length (List.filter isDisplay (removeDisplays true true true ws)) = 0%nat /\
  List.length (List.filter isErrorDisplay (removeDisplays true true true ws)) = 0%nat.
Proof.
  induction ws as [|w ws [IH1 IH2]]; [now split|].
  rewrite removeDisplays_cons, !List.filter_app, !List.length_app, IH1, IH2.
  destruct w as [|m inner| |]; cbn; try (now split).
  now rewrite andb_false_r.
Qed.

Lemma counts_removeDisplays_keep_errors ws :
  List.length (List.filter isDisplay (removeDisplays true true false ws))
  = List.length (List.filter isErrorDisplay ws).
Proof.
  induction ws as [|w ws IH]; [reflexivity|].
  rewrite removeDisplays_cons, !List.filter_app, !List.length_app, IH.
  destruct w as [|m inner| |]; cbn; try reflexivity.
  now rewrite andb_false_r.
Qed.

Lemma errors_le_displays ws :
  (List.length (List.filter isErrorDisplay ws)
   <= List.length (List.filter isDisplay ws))%nat.
Proof.
  induction ws as [|w ws IH]; [reflexivity|].
  destruct w as [|m inner| |]; cbn; try lia. destruct inner; cbn; lia.
Qed.

Lemma shown_counted ws :
  hasLoadingOrResults ws = true -> (1 <= List.length (List.filter isDisplay ws))%nat.
Proof.
  induction ws as [|w ws IH]; [discriminate|].
  destruct w as [|m inner| |]; cbn; intros Hs; try lia.
  destruct inner; cbn in *; [lia | auto].
Qed.

Lemma shown_no_errors ws :
  hasLoadingOrResults ws = true ->
  (List.length (List.filter isDisplay ws) <= 1)%nat ->
  List.length (List.filter isErrorDisplay ws) = 0%nat.
Proof.
  induction ws as [|w ws IH]; [discriminate|].
  pose proof (errors_le_displays ws) as Hle.
  destruct w as [|m inner| |]; cbn; intros Hs Hd; try lia.
  - destruct inner; cbn in *; [lia | auto].
  - apply shown_counted in Hs. lia.
Qed.

Lemma counts_removeFirstRateLimited ws :
  (List.length (List.filter isDisplay (removeFirstRateLimited ws))
   <= List.length (List.filter isDisplay ws))%nat.
Proof.
  induction ws as [|w ws IH]; [reflexivity|].
  destruct w as [|m inner| |]; cbn; try lia. destruct inner; cbn; lia.
Qed.

(** A rate-limit message replaces every display of the card. *)
Lemma showRateLimitMessage_counts m c :
  oneDisplay (showRateLimitMessage m c) /\ errorCount (showRateLimitMessage m c) = 0%nat.
Proof.
  unfold oneDisplay, displayCount, errorCount, showRateLimitMessage, insertAfterDetails.
  destruct (counts_removeDisplays_all (widgets c)) as [Hd He].
  destruct (hasDetails c); cbn; rewrite ?Hd, ?He; split; lia.
Qed.

Lemma showFirefishLoadingState_counts c :
  oneDisplay c ->
  oneDisplay (showFirefishLoadingState c) /\
  errorCount (showFirefishLoadingState c) = 0%nat.
Proof.
  intros Hc. unfold showFirefishLoadingState.
  destruct (hasLoadingOrResults (widgets c)) eqn:Hs.
  - split; [exact Hc|]. now apply shown_no_errors.
  - unfold oneDisplay, displayCount, errorCount, insertAfterDetails.
    destruct (counts_removeDisplays_all (widgets c)) as [Hd He].
    destruct (hasDetails c); cbn; rewrite ?Hd, ?He; split; lia.
Qed.

Lemma showFirefishError_counts m c :
  errorCount c = 0%nat -> oneDisplay (showFirefishError m c).
Proof.
  unfold oneDisplay, displayCount, errorCount, showFirefishError, insertAfterDetails.
  intros He. destruct (hasDetails c); cbn;
    rewrite counts_removeDisplays_keep_errors; lia.
Qed.

Lemma showFirefishBTCResults_counts perf c :
  errorCount c = 0%nat -> oneDisplay (showFirefishBTCResults perf c).
Proof.
  unfold oneDisplay, displayCount, errorCount, showFirefishBTCResults, insertAfterDetails.
  intros He. destruct (hasDetails c); cbn;
    rewrite counts_removeDisplays_keep_errors; lia.
Qed.

End DisplayCounts.

(** What the operations of the client do to the cards of the page, for a
    property that a rate-limit message keeps. *)
Section PageFrames.
Import Timers Display RateLimit ApiClient Analyzer EventLoop.
Variable Q : nat -> CardDom -> Prop.
Hypothesis Q_message : forall card m c, Q card c -> Q card (showRateLimitMessage m c).

Lemma pageAll_onCard f card p :
  (forall c, Q card c -> Q card (f c)) -> pageAll Q p -> pageAll Q (onCard f card p).
Proof.
  intros Hf Hp k c'. unfold onCard.
  destruct (decide (k = card)) as [->|Hne].
  - rewrite lookup_alter_eq. destruct (p !! card) as [c|] eqn:E; [|discriminate].
    intros [= <-]. apply Hf, (Hp _ _ E).
  - rewrite lookup_alter_ne by congruence. apply Hp.
Qed.

Lemma pageAll_onCards f cards p :
  (forall card c, Q card c -> Q card (f c)) -> pageAll Q p -> pageAll Q (onCards f cards p).
Proof.
  intros Hf. unfold onCards. revert p.
  induction cards as [|card cards IH]; intros p Hp; simpl; [exact Hp|].
  apply IH, pageAll_onCard; [apply Hf | exact Hp].
Qed.

Lemma pageAll_updateRateLimitDisplay r st :
  pageAll Q (page st) -> pageAll Q (page (updateRateLimitDisplay r st)).
Proof. intros Hp. apply pageAll_onCards; [intros; apply Q_message|]; assumption. Qed.

Lemma pageAll_startRateLimitCountdown st :
  pageAll Q (page st) -> pageAll Q (page (startRateLimitCountdown st)).
Proof.
  intros Hp. unfold startRateLimitCountdown.
  destruct (countdownInterval (rateLimitState st));
    (apply pageAll_onCards; [intros; apply Q_message|]; assumption).
Qed.

Lemma pageAll_addPendingCard card st :
  pageAll Q (page st) -> pageAll Q (page (addPendingCard card st)).
Proof.
  intros Hp. unfold addPendingCard. break_match; [|exact Hp].
  apply pageAll_onCard; [intros; apply Q_message|]; assumption.
Qed.

Lemma pageAll_currentPricesFailed e st :
  pageAll Q (page st) -> pageAll Q (page (snd (currentPricesFailed e st))).
Proof.
  intros Hp. unfold currentPricesFailed.
  destruct (detect_frame (errorMessage e) st) as (_ & _ & _ & _ & Hpg & _).
  destruct (detectRateLimitFromError (errorMessage e) st) as [limited st0].
  cbn [snd] in Hpg. rewrite <- Hpg in Hp.
  destruct limited; [|exact Hp]. cbn [snd].
  break_match; [exact Hp | now apply pageAll_startRateLimitCountdown].
Qed.

Lemma pageAll_historicalPriceFailed e card st :
  pageAll Q (page st) -> pageAll Q (page (snd (historicalPriceFailed e card st))).
Proof.
  intros Hp. unfold historicalPriceFailed.
  destruct (detect_frame (errorMessage e) st) as (_ & _ & _ & _ & Hpg & _).
  destruct (detectRateLimitFromError (errorMessage e) st) as [limited st0].
  cbn [snd] in Hpg. rewrite <- Hpg in Hp.
  destruct limited; [|exact Hp]. cbn [snd].
  assert (pageAll Q (page (match card with
                           | Some card => addPendingCard card st0
                           | None => st0
                           end))) as Ha
    by (destruct card; [now apply pageAll_addPendingCard | exact Hp]).
  break_match; [exact Ha | now apply pageAll_startRateLimitCountdown].
Qed.

Lemma pageAll_getCurrentPriceForAllCurrencies resp st :
  pageAll Q (page st) ->
  pageAll Q (page (snd (getCurrentPriceForAllCurrencies resp st))).
Proof.
  intros Hp. unfold getCurrentPriceForAllCurrencies.
  destruct (isCurrentPriceCacheValid st); [exact Hp|].
  rewrite <- (page_request currentPricesUrl st) in Hp.
  set (st1 := emit _ _) in *. clearbody st1.
  destruct resp as [e|status body].
  - now apply pageAll_currentPricesFailed.
  - destruct (negb (ok status)).
    + destruct (status =? 429) eqn:E.
      * now apply pageAll_startRateLimitCountdown.
      * unfold handleRateLimit. rewrite E. now apply pageAll_currentPricesFailed.
    + destruct body as [bitcoin|e];
        [exact Hp | now apply pageAll_currentPricesFailed].
Qed.

Lemma pageAll_getHistoricalPrice d c card resp st :
  pageAll Q (page st) ->
  pageAll Q (page (snd (getHistoricalPrice d c card resp st))).
Proof.
  intros Hp. unfold getHistoricalPrice.
  destruct (convertFirefishDateToCoinGecko d) as [cg|]; [|exact Hp].
  destruct (historical (priceCache st) !! cacheKey cg c) as [entry|]; [exact Hp|].
  rewrite <- (page_request (historyUrl cg) st) in Hp.
  set (st1 := emit _ _) in *. clearbody st1.
  destruct resp as [e|status body].
  - now apply pageAll_historicalPriceFailed.
  - destruct (negb (ok status)).
    + destruct (status =? 429) eqn:E.
      * cbn [snd]. apply pageAll_startRateLimitCountdown.
        destruct card; [now apply pageAll_addPendingCard | exact Hp].
      * unfold handleRateLimit. rewrite E. now apply pageAll_historicalPriceFailed.
    + destruct body as [[current_price|]|e];
        try (now apply pageAll_historicalPriceFailed).
      cbn [snd]. destruct card; exact Hp.
Qed.

End PageFrames.

Section DisplayRuns.
Import Timers Display RateLimit ApiClient Analyzer EventLoop.
Context `{Intl}.

Local Abbreviation shown := (pageAll (fun _ c => oneDisplay c)).

Lemma oneDisplay_message (card : nat) m c :
  oneDisplay c -> oneDisplay (showRateLimitMessage m c).
Proof. intros _. apply showRateLimitMessage_counts. Qed.

Lemma shown_resolveRateLimit st :
  shown (page st) -> shown (page (resolveRateLimit st)).
Proof.
  intros Hp. rewrite resolveRateLimit_page.
  apply pageAll_onCards; [|exact Hp].
  intros _ c Hc. unfold oneDisplay, displayCount in *. cbn [widgets set_widgets].
  etransitivity; [apply counts_removeFirstRateLimited | exact Hc].
Qed.

Lemma shown_countdownTick st :
  shown (page st) -> shown (page (countdownTick st)).
Proof.
  intros Hp. unfold countdownTick. break_match.
  - now apply shown_resolveRateLimit.
  - apply pageAll_updateRateLimitDisplay; [apply oneDisplay_message | exact Hp].
Qed.

Lemma shown_processQueuedCards st :
  shown (page st) -> shown (page (processQueuedCards st)).
Proof.
  intros Hp. unfold processQueuedCards. cbn [page set_page set_queues].
  apply pageAll_onCards; [|exact Hp].
  intros _ c Hc. break_match; [exact Hc|].
  now apply showFirefishLoadingState_counts.
Qed.

Lemma shown_processPendingCards st :
  shown (page st) -> shown (page (processPendingCards st)).
Proof.
  intros Hp. unfold processPendingCards.
  destruct (pendingCards (rateLimitState st)) as [|card rest]; [exact Hp|].
  apply shown_processQueuedCards.
  apply (fold_left_invariant (fun s => shown (page s))).
  - intros s k Hs. unfold resubmit. cbn [page emit set_queues onCardSt set_page].
    apply pageAll_onCard; [|exact Hs]. intros c Hc. exact Hc.
  - exact Hp.
Qed.

Lemma shown_fire tm st : shown (page st) -> shown (page (fire tm st)).
Proof.
  intros Hp. unfold fire, runTask.
  assert (page (rearm tm (set_now (Z.max (now st) (due tm)) st)) = page st) as H0
    by (unfold rearm; break_match; reflexivity).
  rewrite <- H0 in Hp.
  destruct (task tm);
    [now apply shown_countdownTick | now apply shown_resolveRateLimit
     | now apply shown_processPendingCards].
Qed.

Lemma shown_advance fuel nf t st :
  shown (page st) -> shown (page (advance fuel nf t st)).
Proof.
  revert st. induction fuel as [|fuel IH]; intros st Hp; simpl; [exact Hp|].
  destruct (next nf (timers st)) as [tm|]; [|exact Hp].
  destruct (due tm <=? t); [|exact Hp].
  apply IH. now apply shown_fire.
Qed.

Lemma processing_message loanCard card m c :
  processing loanCard card c -> processing loanCard card (showRateLimitMessage m c).
Proof.
  intros _. split; [apply showRateLimitMessage_counts|].
  intros _. apply showRateLimitMessage_counts.
Qed.

Lemma processing_settle loanCard f st :
  (forall c, errorCount c = 0%nat -> oneDisplay (f c)) ->
  pageAll (processing loanCard) (page st) ->
  shown (page (onCardSt f loanCard st)).
Proof.
  intros Hf Hp k c'. unfold onCardSt, onCard. cbn [page set_page].
  destruct (decide (k = loanCard)) as [->|Hne].
  - rewrite lookup_alter_eq. destruct (page st !! loanCard) as [c|] eqn:E; [|discriminate].
    intros [= <-]. apply Hf. now apply (Hp _ _ E).
  - rewrite lookup_alter_ne by congruence. intros E. apply (Hp _ _ E).
Qed.

Lemma processing_shown loanCard p : pageAll (processing loanCard) p -> shown p.
Proof. intros Hp k c E. apply (Hp _ _ E). Qed.

Lemma shown_processFirefishLoanCard card rc rh st :
  shown (page st) -> shown (page (processFirefishLoanCard card rc rh st)).
Proof.
  intros Hp. unfold processFirefishLoanCard.
  destruct (page st !! card) as [c|] eqn:Ec; [|exact Hp].
  destruct (processed c); [exact Hp|].
  set (st0 := onCardSt showFirefishLoadingState card _).
  assert (pageAll (processing card) (page st0)) as H0.
  { subst st0. intros k c'. unfold onCardSt, onCard. cbn [page set_page].
    destruct (decide (k = card)) as [->|Hne].
    - rewrite !lookup_alter_eq, Ec. cbn. intros [= <-].
      destruct (showFirefishLoadingState_counts (set_processed true c)) as [Hd He];
        [exact (Hp _ _ Ec)|].
      split; [exact Hd | intros _; exact He].
    - rewrite !lookup_alter_ne by congruence. intros E.
      split; [exact (Hp _ _ E) | congruence]. }
  clearbody st0.
  destruct (extracted c) as [loanData|];
    [|apply processing_settle; [apply showFirefishError_counts | exact H0]].
  destruct (negb (isValid loanData));
    [apply processing_settle; [apply showFirefishError_counts | exact H0]|].
  pose proof (pageAll_getCurrentPriceForAllCurrencies _ (processing_message card)
                rc st0 H0) as H1.
  destruct (getCurrentPriceForAllCurrencies rc st0) as [currentPrices st1].
  cbn [snd] in H1. destruct currentPrices as [prices|];
    [|apply processing_settle; [apply showFirefishError_counts | exact H1]].
  pose proof (pageAll_getHistoricalPrice _ (processing_message card)
                (provisionDate loanData) (currency loanData) (Some card) rh st1 H1) as H2.
  destruct (getHistoricalPrice _ _ _ rh st1) as [historicalPrice st2].
  cbn [snd] in H2.
  repeat break_match;
    first [ exact (processing_shown _ _ H2)
          | apply processing_settle;
            [first [apply showFirefishError_counts | apply showFirefishBTCResults_counts]
            | exact H2] ].
Qed.

Lemma shown_step op st : shown (page st) -> shown (page (step op st)).
Proof.
  intros Hp. destruct op; simpl.
  - now apply shown_advance.
  - apply pageAll_getCurrentPriceForAllCurrencies; [apply oneDisplay_message | exact Hp].
  - apply pageAll_getHistoricalPrice; [apply oneDisplay_message | exact Hp].
  - now apply shown_processFirefishLoanCard.
  - exact Hp.
  - now apply shown_processQueuedCards.
  - unfold processNextCard. destruct (worker st) as [|card rest]; [exact Hp|].
    break_match; [exact Hp|].
    now apply shown_processFirefishLoanCard.
  - break_match; [|exact Hp]. now apply shown_resolveRateLimit.
  - exact Hp.
Qed.

Lemma shown_run ops st : shown (page st) -> shown (page (run ops st)).
Proof.
  revert st. induction ops as [|op ops IH]; intros st Hp; simpl; [exact Hp|].
  apply IH. now apply shown_step.
Qed.

(** X21.  A card never shows two displays: on a page whose cards have at most
    one of loading indicator, result and error each, every card has at
    most one after any run. *)
Theorem one_display_per_card (t0 : Z) (p : gmap nat CardDom) (ops : list Op) :
  (forall card c, p !! card = Some c -> (displayCount c <= 1)%nat) ->
  forall card c, page (run ops (booted t0 p)) !! card = Some c ->
                 (displayCount c <= 1)%nat.
Proof.
  intros Hp. apply (shown_run ops (booted t0 p)). exact Hp.
Qed.

End DisplayRuns.

Section DashboardCounts.
Import Display UiEnhancer.

Lemma views_le_displays c :
  (List.length (resultViews c) + List.length (errorViews c) <= displayCount c)%nat.
Proof.
  unfold resultViews, errorViews, displayCount.
  induction (widgets c) as [|w ws IH]; [reflexivity|].
  destruct w as [|m inner| |]; cbn; try lia. destruct inner; cbn; lia.
Qed.

Lemma sumOutperforming_fold els acc :
  (sumOutperforming (List.fold_left accumulate els acc)
   <= sumOutperforming acc + List.length els)%nat.
Proof.
  revert acc. induction els as [|[res card] els IH]; intros acc; cbn [List.fold_left List.length];
    [lia|].
  etransitivity; [apply IH|].
  unfold accumulate at 1. cbn [sumOutperforming].
  destruct (outperformingClass res); lia.
Qed.

(** The counts of the dashboard on a document whose cards show at most one
    display each. *)
Lemma aggregatePortfolioData_counts document :
  List.Forall oneDisplay document ->
  let totals := aggregatePortfolioData document in
  (outperformingCount totals <= analyzedCount totals)%nat /\
  (analyzedCount totals <= totalLoans totals)%nat.
Proof.
  intros Hd. unfold aggregatePortfolioData.
  cbn [outperformingCount analyzedCount totalLoans]. split.
  - etransitivity; [apply sumOutperforming_fold|]. cbn [sumOutperforming]. lia.
  - unfold resultEls, errorEls.
    induction Hd as [|c d Hc Hd IH]; [reflexivity|].
    cbn [List.flat_map List.filter]. rewrite !List.length_app.
    pose proof (views_le_displays c) as Hv. unfold oneDisplay in Hc.
    destruct (isPending c); cbn [negb List.length]; [exact IH|].
    rewrite List.length_map. lia.
Qed.

End DashboardCounts.

Section DashboardRuns.
Context `{Intl}.

(** X22.  The dashboard never reports more analysed loans than loans, nor more
    outperforming loans than analysed ones: on the document of any run
    from a page whose cards show at most one display each,
    [outperformingCount <= analyzedCount <= totalLoans]. *)
Theorem dashboard_counts_bounded
    (t0 : Z) (p : gmap nat CardDom) (ops : list Op) (cards : list nat) :
  (forall card c, p !! card = Some c -> (displayCount c <= 1)%nat) ->
  let totals :=
    UiEnhancer.aggregatePortfolioData (documentOf (run ops (booted t0 p)) cards) in
  (outperformingCount totals <= analyzedCount totals)%nat /\
  (analyzedCount totals <= totalLoans totals)%nat.
Proof.
  intros Hp. apply aggregatePortfolioData_counts.
  pose proof (shown_run ops (booted t0 p) Hp) as Hrun.
  unfold documentOf. induction cards as [|card cards IH]; [constructor|].
  cbn [List.flat_map].
  destruct (page (run ops (booted t0 p)) !! card) as [c|] eqn:E; [|exact IH].
  constructor; [exact (Hrun _ _ E) | exact IH].
Qed.

End DashboardRuns.

Section DashboardComplete.
Import Display UiEnhancer.

Lemma views_analysed c :
  analysed c = negb (Nat.eqb (List.length (resultViews c) + List.length (errorViews c)) 0).
Proof.
  unfold analysed, resultViews, errorViews.
  induction (widgets c) as [|w ws IH]; [reflexivity|].
  destruct w as [|m inner| |]; cbn; try exact IH; try reflexivity.
  now rewrite Nat.add_succ_r.
Qed.

Lemma analyzedCount_cons c d :
  analyzedCount (aggregatePortfolioData (c :: d))
  = ((if isPending c then 0
      else List.length (resultViews c) + List.length (errorViews c))
     + analyzedCount (aggregatePortfolioData d))%nat.
Proof.
  unfold aggregatePortfolioData, resultEls, errorEls. cbn [analyzedCount List.flat_map].
  rewrite !List.length_app. destruct (isPending c); cbn [List.length]; [reflexivity|].
  rewrite List.length_map. lia.
Qed.

Lemma totalLoans_cons c d :
  totalLoans (aggregatePortfolioData (c :: d))
  = ((if isPending c then 0 else 1) + totalLoans (aggregatePortfolioData d))%nat.
Proof.
  unfold aggregatePortfolioData. cbn [totalLoans List.filter].
  destruct (isPending c); reflexivity.
Qed.

Lemma analyzedCount_full document :
  List.Forall oneDisplay document ->
  analyzedCount (aggregatePortfolioData document)
  = totalLoans (aggregatePortfolioData document)
  <-> forall c, In c document -> isPending c = false -> analysed c = true.
Proof.
  intros Hd. induction Hd as [|c d Hc Hd IH].
  - split; [intros _ c [] | reflexivity].
  - pose proof (proj2 (aggregatePortfolioData_counts d Hd)) as Hle. cbn zeta in Hle.
    rewrite analyzedCount_cons, totalLoans_cons.
    pose proof (views_le_displays c) as Hv. unfold oneDisplay in Hc.
    pose proof (views_analysed c) as Ha.
    destruct (isPending c) eqn:Hp.
    + cbn [Nat.add]. rewrite IH. split.
      * intros Hall x [<-|Hin] Hx; [congruence | now apply Hall].
      * intros Hall x Hin. apply Hall. now right.
    + split.
      * intros Heq x [<-|Hin] Hx.
        -- rewrite Ha. apply negb_true_iff, Nat.eqb_neq. lia.
        -- apply IH; [lia | exact Hin | exact Hx].
      * intros Hall.
        assert (analysed c = true) as Hc1 by (apply Hall; [now left | exact Hp]).
        rewrite Ha in Hc1. apply negb_true_iff, Nat.eqb_neq in Hc1.
        assert (analyzedCount (aggregatePortfolioData d)
                = totalLoans (aggregatePortfolioData d)) as ->
          by (apply IH; intros x Hin; apply Hall; now right).
        lia.
Qed.

Lemma totalLoans_pos document :
  (0 < totalLoans (aggregatePortfolioData document))%nat
  <-> exists c, In c document /\ isPending c = false.
Proof.
  unfold aggregatePortfolioData. cbn [totalLoans].
  induction document as [|c d IH]; cbn [List.filter].
  - split; [cbn; lia | intros (c & [] & _)].
  - destruct (isPending c) eqn:Hp; cbn [negb].
    + rewrite IH. split.
      * intros (x & Hin & Hx). exists x. split; [now right | exact Hx].
      * intros (x & [<-|Hin] & Hx); [congruence|]. now exists x.
    + split; [|cbn; lia]. intros _. exists c. split; [now left | exact Hp].
Qed.

(** The summary on a document whose cards show at most one display each. *)
Lemma isComplete_settled document :
  List.Forall oneDisplay document ->
  Dashboard.isComplete (aggregatePortfolioData document) = true
  <-> (exists c, In c document /\ isPending c = false) /\
      (forall c, In c document -> isPending c = false -> analysed c = true).
Proof.
  intros Hd. unfold Dashboard.isComplete.
  rewrite andb_true_iff, Nat.leb_le, Nat.ltb_lt.
  rewrite <- (analyzedCount_full document Hd), <- totalLoans_pos.
  pose proof (proj2 (aggregatePortfolioData_counts document Hd)) as Hle.
  cbn zeta in Hle. lia.
Qed.

End DashboardComplete.

Section DashboardCompleteRuns.
Context `{Intl}.

Lemma documentOf_oneDisplay (t0 : Z) (p : gmap nat CardDom) (ops : list Op)
    (cards : list nat) :
  (forall card c, p !! card = Some c -> (displayCount c <= 1)%nat) ->
  List.Forall oneDisplay (documentOf (run ops (booted t0 p)) cards).
Proof.
  intros Hp. pose proof (shown_run ops (booted t0 p) Hp) as Hrun.
  unfold documentOf. induction cards as [|card cards IH]; [constructor|].
  cbn [List.flat_map].
  destruct (page (run ops (booted t0 p)) !! card) as [c|] eqn:E; [|exact IH].
  constructor; [exact (Hrun _ _ E) | exact IH].
Qed.

(** X23.  The dashboard shows its summary exactly when the analysis is over: on
    the document of any run from a page whose cards show at most one
    display each, [isComplete] holds if and only if there is a loan that
    is not pending and every such loan shows a result or an error. *)
Theorem summary_when_every_loan_is_analysed
    (t0 : Z) (p : gmap nat CardDom) (ops : list Op) (cards : list nat) :
  (forall card c, p !! card = Some c -> (displayCount c <= 1)%nat) ->
  let document := documentOf (run ops (booted t0 p)) cards in
  Dashboard.isComplete (UiEnhancer.aggregatePortfolioData document) = true
  <-> (exists c, In c document /\ UiEnhancer.isPending c = false) /\
      (forall c, In c document -> UiEnhancer.isPending c = false -> analysed c = true).
Proof.
  intros Hp. apply isComplete_settled. now apply documentOf_oneDisplay.
Qed.

End DashboardCompleteRuns.

(** ** The analysis of all loans *)

Section AnalysisFacts.
Import ApiClient LoanAnalysis.
Context `{Intl}.

Lemma truthy_toNumber v : JS.truthy v = true -> JS.truthyNum (JS.toNumber v) = true.
Proof. destruct v; [discriminate | discriminate | now intros]. Qed.

Lemma analyseLoans_entries loans : forall k prices resp st,
  let r := analyseLoans loans k prices resp st in
  keeps st (snd r) /\
  sublist (List.map BTCAnalysis.cardIndex (fst r)) (List.map fst loans) /\
  List.Forall (fun e => JS.truthyNum (BTCAnalysis.btcPriceAtProvision e) = true /\
                        JS.truthyNum (BTCAnalysis.btcPriceNow e) = true /\
                        JS.VNum (BTCAnalysis.btcPriceNow e)
                        = priceOf prices (BTCAnalysis.currency e))
              (fst r).
Proof.
  induction loans as [|[index loan] rest IH]; intros k prices resp st; cbn zeta.
  - cbn. split; [apply keeps_refl|]. split; constructor.
  - cbn [analyseLoans].
    pose proof (keeps_getHistoricalPrice (provisionDate loan) (currency loan) None
                  (resp k) st) as Hk.
    destruct (getHistoricalPrice _ _ None (resp k) st) as [historicalPrice st1].
    cbn [snd] in Hk.
    specialize (IH (S k) prices resp st1). cbn zeta in IH.
    destruct (analyseLoans rest (S k) prices resp st1) as [entries st2].
    cbn [fst snd] in *. destruct IH as (IHk & IHs & IHf).
    split; [eapply keeps_trans; eassumption|].
    destruct (JS.truthy historicalPrice) eqn:Hh; cbn [negb].
    + destruct (JS.truthy (priceOf prices (currency loan))) eqn:Hc; cbn [negb].
      * cbn [List.app List.map fst BTCAnalysis.cardIndex entryOf].
        split; [now apply sublist_skip || now constructor|].
        constructor; [|exact IHf].
        cbn [BTCAnalysis.btcPriceAtProvision BTCAnalysis.btcPriceNow
             BTCAnalysis.currency entryOf].
        split; [now apply truthy_toNumber|]. split; [now apply truthy_toNumber|].
        destruct (priceOf prices (currency loan)); try discriminate. reflexivity.
      * cbn [List.app List.map fst]. split; [now apply sublist_cons | exact IHf].
    + cbn [List.app List.map fst]. split; [now apply sublist_cons | exact IHf].
Qed.

(** X24.  The analysis of all loans is null exactly when the current prices are
    not to be had.  Otherwise its elements come from loans of the list, in
    the order of the list and at most one per loan; each was computed from
    a historical price and a current price that are numbers other than
    zero, the current one being the price of the loan's currency; and the
    historical cache has lost nothing. *)
Theorem getBTCAnalysis_entries
    (loans : list (nat * LoanData)) (rc : Response Prices)
    (rh : nat -> Response Prices) (st : State) :
  let r := getBTCAnalysis loans rc rh st in
  keeps st (snd r) /\
  match fst r with
  | None => fst (getCurrentPriceForAllCurrencies rc st) = None
  | Some a =>
      exists prices,
        fst (getCurrentPriceForAllCurrencies rc st) = Some prices /\
        BTCAnalysis.loanData a = loans /\
        sublist (List.map BTCAnalysis.cardIndex (BTCAnalysis.analysis a))
                (List.map fst loans) /\
        List.Forall
          (fun e => JS.truthyNum (BTCAnalysis.btcPriceAtProvision e) = true /\
                    JS.truthyNum (BTCAnalysis.btcPriceNow e) = true /\
                    JS.VNum (BTCAnalysis.btcPriceNow e)
                    = priceOf prices (BTCAnalysis.currency e))
          (BTCAnalysis.analysis a)
  end.
Proof.
  cbn zeta. unfold getBTCAnalysis.
  pose proof (hist_getCurrentPriceForAllCurrencies rc st) as Hc.
  destruct (getCurrentPriceForAllCurrencies rc st) as [[prices|] st1]; cbn [fst snd] in *.
  - pose proof (analyseLoans_entries loans 0 prices rh st1) as Ha. cbn zeta in Ha.
    destruct (analyseLoans loans 0 prices rh st1) as [entries st2].
    cbn [fst snd] in *. destruct Ha as (Hk & Hs & Hf).
    split; [eapply keeps_trans; [apply keeps_eq; exact Hc | exact Hk]|].
    exists prices. cbn. repeat split; assumption.
  - split; [apply keeps_eq; exact Hc | reflexivity].
Qed.

End AnalysisFacts.

Example getBTCAnalysis_sample :
  let r := @LoanAnalysis.getBTCAnalysis IntlEnDE.instance
             [(0%nat, exampleLoan); (2%nat, laterLoan)]
             (Http 200 (Json (eurPrices 90000)))
             (fun k => match k with
                       | O => Http 200 (Json (eurPrices 60000))
                       | _ => Http 200 (Json (eurPrices 0))
                       end)
             (booted 1000 onePage) in
  option_map (fun a => List.map (fun e => (BTCAnalysis.cardIndex e,
                                           BTCAnalysis.priceChangePercent e,
                                           BTCAnalysis.riskLevel e))
                                (BTCAnalysis.analysis a)) (fst r)
  = Some [(0%nat, 50%float, "LOW"%string)].
Proof. vm_compute. reflexivity. Qed.

(** ** The portfolio aggregator *)

Section AmountsShown.
Import JS Utils AmountSpec Rendering.












End AmountsShown.

Section ExclusionFacts.
Import ApiClient UiEnhancer Rendering.





End ExclusionFacts.

Section RenderingFacts.
Import Display UiEnhancer PortfolioSpec Rendering.










(** *** Items in any order *)




End RenderingFacts.

Section CalculatorFacts.
Context `{Intl}.
Import CryptoService Analyzer.


End CalculatorFacts.

Section AggregatorTotals.
Context `{Intl}.
Import PortfolioSpec Rendering.


End AggregatorTotals.

Section RenderingExamples.
Import PortfolioSpec Rendering.






End RenderingExamples.

(** ** The properties at concrete inputs *)

Lemma parseNumberFromText_noDigit_witness :
  Utils.parseNumberFromText "-.,-" = nan.
Proof. apply parseNumberFromText_noDigit. reflexivity. Defined.

Lemma parseNumberFromText_decorated_witness :
  Utils.parseNumberFromText "EUR 1.234,56 net"
  = Utils.finish (JS.chars "1234.56").
Proof.
  apply (parseNumberFromText_decorated "EUR 1.234,56 net" (JS.chars "EUR ")
           (JS.chars "1.234") ","%char (JS.chars "56") (JS.chars " net"));
    reflexivity.
Defined.

Lemma getHistoricalPrice_error_status_witness :
  let st := booted 1000 onePage in
  let r := ApiClient.getHistoricalPrice "24 Nov 2024" "EUR" (Some 0%nat)
             (Http 500 (Json None)) st in
  fst r = JS.VNull /\ hist (snd r) = hist st /\
  rateLimitState (snd r) = rateLimitState st /\ timers (snd r) = timers st.
Proof.
  pose proof (getHistoricalPrice_error_status "24 Nov 2024" "EUR" "24-11-2024" 0%nat 500
                (Json None) (booted 1000 onePage)) as Hw.
  cbv zeta. cbv zeta in Hw.
  apply Hw; [reflexivity | reflexivity | reflexivity | discriminate].
Defined.

Lemma current_prices_cache_window_witness :
  let st := snd (ApiClient.getCurrentPriceForAllCurrencies
                   (Http 200 (Json (eurPrices 90000))) (booted 1000 onePage)) in
  let st1 := EventLoop.advance 10 false 200000 st in
  ApiClient.getCurrentPriceForAllCurrencies failedToFetch st1
  = (Some {[ "eur"%string := 90000%float ]}, st1).
Proof.
  cbv zeta.
  apply (current_prices_cache_window _ {[ "eur"%string := 90000%float ]} 1000
           10%nat false 200000 failedToFetch);
    [reflexivity | discriminate | vm_compute; reflexivity].
Defined.

Lemma historical_cache_ignores_case_witness :
  let st1 := snd (ApiClient.getHistoricalPrice "24 Nov 2024" "EUR" None
                    (Http 200 (Json (eurPrices 60000))) (booted 1000 onePage)) in
  @ApiClient.getHistoricalPrice "24 Nov 2024" "eur" None failedToFetch
     (@run IntlEnDE.instance aYearOfOperations st1)
  = (JS.VNum 60000, @run IntlEnDE.instance aYearOfOperations st1).
Proof.
  exact (@historical_cache_ignores_case IntlEnDE.instance "24 Nov 2024" "24-11-2024"
           "EUR" "eur" None None 200 {[ "eur"%string := 60000%float ]}
           (booted 1000 onePage) aYearOfOperations failedToFetch
           eq_refl eq_refl eq_refl eq_refl).
Defined.

Lemma convertFirefishDateToCoinGecko_format_witness :
  ApiClient.convertFirefishDateToCoinGecko "4 Nov 2024" = Some "04-11-2024"%string.
Proof.
  apply (convertFirefishDateToCoinGecko_format "4" "Nov" "11" "2024"); reflexivity.
Defined.

Lemma convertFirefishDateToCoinGecko_parts_witness :
  Detector.hasDate (JS.chars "24  Nov 2024") = true /\
  ApiClient.convertFirefishDateToCoinGecko "24  Nov 2024" = None.
Proof.
  split; [reflexivity|].
  apply convertFirefishDateToCoinGecko_parts. vm_compute. discriminate.
Defined.


Lemma throttled_current_prices_fail_the_card_witness :
  let st' := @Analyzer.processFirefishLoanCard IntlEnDE.instance 0%nat
               tooManyRequests tooManyRequests (booted 1000 onePage) in
  isRateLimited (rateLimitState st') = true /\
  pendingCards (rateLimitState st') = [] /\
  exists c' ws, page st' !! 0%nat = Some c' /\ processed c' = true /\
                widgets c' = WError "Failed to fetch current BTC prices" :: ws.
Proof.
  cbv zeta.
  apply (@throttled_current_prices_fail_the_card IntlEnDE.instance 0%nat exampleCard
           exampleLoan _ tooManyRequests (booted 1000 onePage));
    reflexivity.
Defined.

Lemma getPrice_served_from_cache_witness :
  let first := getPrice "bitcoin" (Http 200 (Json {[ "bitcoin"%string := {[ "usd"%string := 65000%float ]} ]}))
                 1000 1200 ∅ in
  let again := getPrice "bitcoin" (FetchRejected {| exnName := "TypeError"; exnMessage := "Failed to fetch" |})
                 300000 300000 (cacheAfter first) in
  result again = Some (SNumber 65000) /\ requested again = false.
Proof.
  cbv zeta.
  destruct (getPrice_served_from_cache "bitcoin" 200
              {[ "bitcoin"%string := {[ "usd"%string := 65000%float ]} ]}
              {[ "usd"%string := 65000%float ]} 65000
              (FetchRejected {| exnName := "TypeError"; exnMessage := "Failed to fetch" |})
              1000 1200 300000 300000 ∅)
    as (_ & _ & Hhit & _); [reflexivity | reflexivity | reflexivity | reflexivity |].
  cbv zeta in Hhit. rewrite Hhit by reflexivity. split; reflexivity.
Defined.

Lemma debounce_burst_witness :
  Debounce.invoked
    (Debounce.elapse 1000
       (Debounce.calls 500 [(0, 1%nat); (100, 2%nat); (400, 3%nat)] Debounce.initial))
  = [(900, 3%nat)].
Proof.
  apply (debounce_burst 500 0 1%nat [(100, 2%nat); (400, 3%nat)] 1000). reflexivity.
Defined.

Lemma extractFirefishLoanData_valid_witness :
  let data := {| currency := "EUR"; loanAmount := 10000; interestRate := 12.5;
                 provisionDate := "24 Nov 2024"; collateralBTC := 0.25891;
                 isValid := true |} in
  Detector.isPending sampleCard = false /\ isValid data = true.
Proof.
  cbv zeta.
  destruct (extractFirefishLoanData_valid sampleCard
              {| currency := "EUR"; loanAmount := 10000; interestRate := 12.5;
                 provisionDate := "24 Nov 2024"; collateralBTC := 0.25891;
                 isValid := true |}) as (Hp & Hv & _);
    [vm_compute; reflexivity | split; assumption].
Defined.

Lemma portfolio_amount_is_extracted_amount_witness :
  Utils.parseNumberFromText " EUR 10,000 " = 10000%float.
Proof.
  apply (portfolio_amount_is_extracted_amount sampleCard
           {| currency := "EUR"; loanAmount := 10000; interestRate := 12.5;
              provisionDate := "24 Nov 2024"; collateralBTC := 0.25891;
              isValid := true |}
           " EUR 10,000 " (JS.chars "EUR") (JS.chars "10,000"));
    [vm_compute; reflexivity | reflexivity | reflexivity | reflexivity
    | right; reflexivity].
Defined.

Lemma rate_limit_elements_pile_up_witness :
  let st := snd (ApiClient.getHistoricalPrice "24 Nov 2024" "EUR" (Some 0%nat)
                   tooManyRequests (booted 1000 onePage)) in
  let st1 := List.fold_left (fun s r => RateLimit.updateRateLimitDisplay r s)
               [Some 59; Some 58] st in
  let st2 := RateLimit.resolveRateLimit st1 in
  exists c1 c2,
    page st1 !! 0%nat = Some c1 /\ rateLimitElements c1 = 3%nat /\
    page st2 !! 0%nat = Some c2 /\ rateLimitElements c2 = 2%nat.
Proof.
  cbv zeta.
  apply (rate_limit_elements_pile_up [Some 59; Some 58]
           (snd (ApiClient.getHistoricalPrice "24 Nov 2024" "EUR" (Some 0%nat)
                   tooManyRequests (booted 1000 onePage)))
           0%nat
           (Display.showRateLimitMessage
              "BTC price API rate limited - retrying in 60s..." exampleCard)).
  - vm_compute. apply List.NoDup_cons; [intros [] | apply List.NoDup_nil].
  - vm_compute. left. reflexivity.
  - vm_compute. reflexivity.
  - reflexivity.
Defined.

Lemma one_display_per_card_witness :
  match page (@run IntlEnDE.instance
                [ProcessCard 0%nat (Http 200 (Json (eurPrices 90000))) tooManyRequests;
                 Advance 500 false 200000]
                (booted 1000 twoCards)) !! 0%nat with
  | Some c => (displayCount c <= 1)%nat
  | None => True
  end.
Proof.
  destruct (page _ !! 0%nat) as [c|] eqn:E; [|exact I].
  refine (@one_display_per_card IntlEnDE.instance 1000 twoCards _ _ 0%nat c E).
  change (map_Forall (fun (_ : nat) c => (displayCount c <= 1)%nat) twoCards).
  apply (bool_decide_eq_true_1 _). vm_compute. reflexivity.
Defined.

Lemma dashboard_counts_bounded_witness :
  let totals := UiEnhancer.aggregatePortfolioData scenarioDocument in
  (outperformingCount totals <= analyzedCount totals)%nat /\
  (analyzedCount totals <= totalLoans totals)%nat.
Proof.
  apply (@dashboard_counts_bounded IntlEnDE.instance 1000 fourCards).
  change (map_Forall (fun (_ : nat) c => (displayCount c <= 1)%nat) fourCards).
  apply (bool_decide_eq_true_1 _). vm_compute. reflexivity.
Defined.

Lemma summary_when_every_loan_is_analysed_witness :
  Dashboard.isComplete (UiEnhancer.aggregatePortfolioData scenarioDocument) = true
  <-> (exists c, In c scenarioDocument /\ UiEnhancer.isPending c = false) /\
      (forall c, In c scenarioDocument -> UiEnhancer.isPending c = false ->
                 analysed c = true).
Proof.
  apply (@summary_when_every_loan_is_analysed IntlEnDE.instance 1000 fourCards).
  change (map_Forall (fun (_ : nat) c => (displayCount c <= 1)%nat) fourCards).
  apply (bool_decide_eq_true_1 _). vm_compute. reflexivity.
Defined.


